(** * Colonyzer driver scripts: a shallow embedding

    The two driver scripts of the repository,
    [scripts/parseAndRun.py] and [scripts/timecourse_fixedpos.py], are
    embedded as functions in a small state-and-exception monad.  The state
    is the file system (the only shared mutable resource of the scripts)
    together with the trace of externally visible calls (prints, image
    opens, file writes, library calls).

    The image-analysis library [colonyzer2] (imported as [c2]) is not part
    of the embedded sources; its functions are a record of oracles,
    except where a statement is about what such a function does, in which
    case it is modelled from the specification and marked as such.

    Pixel values and thresholds are floating-point numbers in the scripts.
    The embedding is parametric in the numeric carrier ([Numeric]), so that
    every general statement holds for any interpretation of the arithmetic;
    concrete runs use exact rationals on values for which binary floating
    point is exact. *)

From Stdlib Require Import ZArith QArith Qround List String Ascii Bool Lia.
From stdpp Require Import base gmap strings list fin_maps.
Import ListNotations.

Local Open Scope string_scope.
Local Open Scope Z_scope.

(** ** Python exceptions raised by the scripts *)

Inductive exn : Type :=
  | NameError (name : string)          (* unbound global name *)
  | UnboundLocalError (name : string)  (* local read before assignment *)
  | ValueError (what : string)
  | OverflowError (what : string)
  | IndexError (what : string)
  | KeyError (key : string)
  | IOError (path : string)
  | LibraryError (fn : string)          (* raised inside a colonyzer2 call *)
  | OutOfFuel.                          (* not Python: the loop bound of the model *)

(** [UnboundLocalError] is a subclass of [NameError] in Python. *)
Definition is_NameError (e : exn) : bool :=
  match e with
  | NameError _ | UnboundLocalError _ => true
  | _ => false
  end.

Inductive Res (A : Type) : Type :=
  | Ok (a : A)
  | Raise (e : exn).
Arguments Ok {A} a.
Arguments Raise {A} e.

Definition rbind {A B} (r : Res A) (k : A -> Res B) : Res B :=
  match r with
  | Ok a => k a
  | Raise e => Raise e
  end.

(** ** Numbers *)

(** The operations on Python floats that the scripts use. *)
Class Numeric : Type := {
  num : Type;
  num_of_Z : Z -> num;               (* int -> float conversion, literals *)
  num_add : num -> num -> num;
  num_sub : num -> num -> num;
  num_mul : num -> num -> num;
  num_half : num -> num;             (* x/2 and x/2.0 *)
  num_ltb : num -> num -> bool;      (* x < y *)
  num_geb : num -> num -> bool;      (* x >= y *)
  num_eqb : num -> num -> bool;      (* x == y *)
  num_round : num -> option Z;       (* int(round(x)); None when x is not finite *)
  num_isnan : num -> bool;           (* x is a NaN *)
  num_mean : list num -> num;        (* numpy.mean of the selected pixels *)
  num_str : num -> string;           (* str(x) *)
  (* the one fact about the order that the scripts rely on: the sentinel
     -99 that stands for "no fixed threshold" is not >= 0 *)
  num_sentinel_negative : num_geb (num_of_Z (-99)) (num_of_Z 0) = false
}.

(** [int(round(x))]: ValueError on a NaN, OverflowError on an infinity. *)
Definition int_round `{Numeric} (x : num) : Res Z :=
  match num_round x with
  | Some n => Ok n
  | None =>
      if num_isnan x then Raise (ValueError "cannot convert float NaN to integer")
      else Raise (OverflowError "cannot convert float infinity to integer")
  end.

(** ** Python strings and POSIX paths *)

Definition slash : ascii := "/"%char.
Definition dot : ascii := "."%char.

(** Python slice [l[lo:hi]], negative bounds counting from the end. *)
Definition py_index (n i : Z) : Z :=
  let j := if i <? 0 then i + n else i in
  Z.max 0 (Z.min n j).

Definition py_slice {A : Type} (lo hi : Z) (l : list A) : list A :=
  let n := Z.of_nat (length l) in
  let a := py_index n lo in
  let b := py_index n hi in
  firstn (Z.to_nat (b - a)) (skipn (Z.to_nat a) l).

(** [l[lo:]] and [l[:hi]]. *)
Definition py_slice_from {A : Type} (lo : Z) (l : list A) : list A :=
  py_slice lo (Z.of_nat (length l)) l.
Definition py_slice_to {A : Type} (hi : Z) (l : list A) : list A :=
  py_slice 0 hi l.

Definition str_slice (lo hi : Z) (s : string) : string :=
  string_of_list_ascii (py_slice lo hi (list_ascii_of_string s)).
Definition str_slice_from (lo : Z) (s : string) : string :=
  string_of_list_ascii (py_slice_from lo (list_ascii_of_string s)).

(** [s.split(".")[0]]: the part before the first dot. *)
Fixpoint split_dot0 (s : string) : string :=
  match s with
  | EmptyString => EmptyString
  | String c s' => if Ascii.eqb c dot then EmptyString else String c (split_dot0 s')
  end.

(** Split at the last slash: [Some (head, tail)] with [head] ending in that
    slash, [None] when the path has no slash (as [p.rfind('/') + 1]). *)
Fixpoint rsplit_slash (s : string) : option (string * string) :=
  match s with
  | EmptyString => None
  | String c s' =>
      match rsplit_slash s' with
      | Some (h, t) => Some (String c h, t)
      | None => if Ascii.eqb c slash then Some (String c EmptyString, s') else None
      end
  end.

Fixpoint all_slashes (s : string) : bool :=
  match s with
  | EmptyString => true
  | String c s' => Ascii.eqb c slash && all_slashes s'
  end.

(** [s.rstrip('/')] *)
Fixpoint rstrip_slash (s : string) : string :=
  match s with
  | EmptyString => EmptyString
  | String c s' =>
      match rstrip_slash s' with
      | EmptyString => if Ascii.eqb c slash then EmptyString else String c EmptyString
      | r => String c r
      end
  end.

(** [os.path.basename] *)
Definition basename (p : string) : string :=
  match rsplit_slash p with
  | Some (_, t) => t
  | None => p
  end.

(** [os.path.dirname] *)
Definition dirname (p : string) : string :=
  match rsplit_slash p with
  | Some (h, _) => if all_slashes h then h else rstrip_slash h
  | None => EmptyString
  end.

Definition starts_with_slash (s : string) : bool :=
  match s with
  | String c _ => Ascii.eqb c slash
  | EmptyString => false
  end.

Fixpoint ends_with_slash (s : string) : bool :=
  match s with
  | EmptyString => false
  | String c EmptyString => Ascii.eqb c slash
  | String _ s' => ends_with_slash s'
  end.

(** [os.path.join(a, b)] *)
Definition join2 (a b : string) : string :=
  if starts_with_slash b then b
  else match a with
       | EmptyString => b
       | _ => if ends_with_slash a then a ++ b else a ++ "/" ++ b
       end.

(** [os.path.join(a, *ps)] *)
Definition path_join (a : string) (ps : list string) : string :=
  fold_left join2 ps a.

(** The three per-image output names used by both scripts:
    [os.path.join(os.path.dirname(F), sub, os.path.basename(F).split(".")[0] + ext)]. *)
Definition out_name (sub ext : string) (F : string) : string :=
  path_join (dirname F) [sub; split_dot0 (basename F) ++ ext].

Definition out_path (F : string) : string := out_name "Output_Data" ".out" F.
Definition dat_path (F : string) : string := out_name "Output_Data" ".dat" F.
Definition png_path (F : string) : string := out_name "Output_Images" ".png" F.
Definition pdf_path (F : string) : string := out_name "Output_Reports" ".pdf" F.

(** [int(x)] on a command-line token: an optional sign followed by decimal
    digits, where single underscores may separate digits. *)
Definition digit_of (c : ascii) : option Z :=
  let n := Z.of_N (N_of_ascii c) in
  if (48 <=? n) && (n <=? 57) then Some (n - 48) else None.

Fixpoint int_digits (acc : Z) (after_digit : bool) (s : string) : option Z :=
  match s with
  | EmptyString => if after_digit then Some acc else None
  | String c s' =>
      match digit_of c with
      | Some d => int_digits (10 * acc + d) true s'
      | None =>
          if Ascii.eqb c "_"%char && after_digit
          then match s' with
               | String c' _ => match digit_of c' with
                                | Some _ => int_digits acc false s'
                                | None => None
                                end
               | EmptyString => None
               end
          else None
      end
  end.

Definition py_int (s : string) : option Z :=
  match s with
  | String "-"%char s' => option_map Z.opp (int_digits 0 false s')
  | String "+"%char s' => int_digits 0 false s'
  | _ => int_digits 0 false s
  end.

(** ** Arrays, grid locations and the interface of the library *)

(** A numpy 2-D array as its list of rows; a boolean mask likewise. *)
Definition arr `{Numeric} : Type := list (list num).
Definition mask_t : Type := list (list bool).

(** One row of the locations data frame: the integer pixel coordinates of
    a culture (the columns [x] and [y] that the scripts read). *)
Record Loc : Type := { loc_x : Z; loc_y : Z }.

(** What the scripts call from outside their own text: the operating
    system, and the library [colonyzer2].  A library call that raises is
    [None].  Image files are inputs that the scripts never write, so
    [openImage] depends on the path only.  [can_write p] says whether the
    operating system lets the process create or replace the file [p] (its
    directory exists and is writable), [dir_readable d] whether it lets
    the process list the directory [d]. *)
Class External `{Numeric} : Type := {
  Row : Type;        (* one row of the measurement data frame *)
  Img : Type;        (* a PIL image *)
  Cal : Type;        (* one entry of Colonyzer.txt *)
  Bindat : Type;     (* histogram data returned with the threshold *)
  c2_version : string;
  getcwd : string;
  realpath : string -> string;
  listImages : string -> list string;
  dir_readable : string -> bool;
  can_write : string -> bool;
  parsePlateFormat : string -> option (Z * Z);
  openImage : string -> option (Img * arr);
  readInstructions : string -> option (gmap string Cal);
  cal_any_list : Cal -> bool;   (* any(isinstance(el, list) for el in entry) *)
  SetUp : Cal -> option string -> option (list num * list num * num * num);
  estimateLocations :
    arr -> Z -> Z -> option (list num * list num * num * num * (Z * Z) * (Z * Z) * (Z * Z));
  locateCultures :
    list Z -> list Z -> num -> num -> arr -> option (Z * Z) -> bool -> option (list Loc);
  makeCorrectionMap : arr -> list Loc -> option (arr * num);
  automaticThreshold : arr -> option (num * Bindat);
  measureSizeAndColour :
    list Loc -> arr -> Img -> mask_t -> num -> string -> string -> option (list Row);
  threshPreview : arr -> num -> list Row -> option Img
}.

Section Driver.
Context `{Ext : External}.

(** ** The file system and the trace *)

Inductive File : Type :=
  | FEmpty                                           (* zero-length file *)
  | FTable (rows : list Row)                         (* DataFrame.to_csv *)
  | FDat (rows : list Row) (thresh dx dy : num)      (* c2.saveColonyzer *)
  | FPng (im : Img)                                  (* Image.save *)
  | FManifest (d : gmap string (list string))        (* JSON work list *)
  | FPdf                                             (* PdfPages report *)
  | FOther.

Inductive Event : Type :=
  | EvPrint (s : string)
  | EvOpenImage (p : string)
  | EvWrite (p : string) (f : File)
  | EvAutoThresh (label : string)
  | EvPlotModel (label : string)
  | EvPdfOpen (p : string)
  | EvPdfClose
  | EvCall (fn : string).

Record World : Type := { fs : gmap string File; trace : list Event }.

(** ** The monad: state that survives an exception *)

Definition M (A : Type) : Type := World -> World * Res A.

Definition ret {A} (a : A) : M A := fun w => (w, Ok a).
Definition raise {A} (e : exn) : M A := fun w => (w, Raise e).
Definition bind {A B} (c : M A) (k : A -> M B) : M B :=
  fun w => match c w with
           | (w1, Ok a) => k a w1
           | (w1, Raise e) => (w1, Raise e)
           end.

Definition emit (e : Event) : M unit :=
  fun w => ({| fs := fs w; trace := trace w ++ [e] |}, Ok tt).
Definition print (s : string) : M unit := emit (EvPrint s).
Definition get_fs : M (gmap string File) := fun w => (w, Ok (fs w)).

(** Creating or replacing a whole file: [open(p, "w")], [to_csv],
    [saveColonyzer], [Image.save].  The call raises IOError, and changes
    nothing, when the operating system refuses the file. *)
Definition write_file (p : string) (f : File) : M unit :=
  fun w =>
    if can_write p
    then ({| fs := <[p := f]> (fs w); trace := trace w ++ [EvWrite p f] |}, Ok tt)
    else (w, Raise (IOError p)).

(** [PdfPages(p)]: the report file is created when the object is made;
    the pages that the library adds later go to the same file. *)
Definition open_pdf (p : string) : M unit :=
  fun w =>
    if can_write p
    then ({| fs := <[p := FPdf]> (fs w); trace := trace w ++ [EvPdfOpen p] |}, Ok tt)
    else (w, Raise (IOError p)).

(** A computation without effects, which returns or raises. *)
Definition lift {A} (r : Res A) : M A := fun w => (w, r).

(** The result of a library call, with the exception it raises. *)
Definition lib {A} (fn : string) (o : option A) : M A :=
  lift (match o with
        | Some a => Ok a
        | None => Raise (LibraryError fn)
        end).

(** Reading a local variable that may not have been assigned. *)
Definition read_local {A} (name : string) (o : option A) : M A :=
  lift (match o with
        | Some a => Ok a
        | None => Raise (UnboundLocalError name)
        end).

Definition when (b : bool) (c : M unit) : M unit := if b then c else ret tt.

End Driver.

Declare Scope py_scope.
Delimit Scope py_scope with py.
Notation "x <- c ;; k" := (bind c (fun x => k))
  (at level 100, c at next level, right associativity) : py_scope.
Notation "c ;; k" := (bind c (fun _ => k))
  (at level 100, right associativity) : py_scope.
Notation "x <~ r ;; k" := (rbind r (fun x => k))
  (at level 100, r at next level, right associativity) : py_scope.
Local Open Scope py_scope.

(** ** Configuration: [parseArgs] and [buildVars] *)

Section Config.
Context `{Ext : External}.

(** The namespace returned by [parseArgs] (argparse is outside the model). *)
Record Args : Type := {
  a_lc : bool; a_diffims : bool; a_plots : bool; a_initpos : bool;
  a_cut : bool; a_quiet : bool;
  a_dir : option string; a_logsdir : string;
  a_fixthresh : option num; a_usedict : option string;
  a_fmt : list string
}.

(** The dictionary [res] returned by [buildVars]. *)
Record Config : Type := {
  cfg_lc : bool; cfg_fixedThresh : num; cfg_plots : bool; cfg_initpos : bool;
  cfg_fdict : option string; cfg_fdir : string;
  cfg_nrow : Z; cfg_ncol : Z;
  cfg_cut : bool; cfg_verbose : bool; cfg_diffims : bool
}.

(** [[int(x) for x in inp.fmt]] *)
Fixpoint ints (l : list string) : M (list Z) :=
  match l with
  | [] => ret []
  | x :: l' =>
      match py_int x with
      | Some n => r <- ints l' ;; ret (n :: r)
      | None => raise (ValueError "int")
      end
  end.

(** [nrow,ncol = ...] on a list *)
Definition unpack2 (l : list Z) : M (Z * Z) :=
  match l with
  | [a; b] => ret (a, b)
  | _ => raise (ValueError "unpack")
  end.

(** parseAndRun.py lines 72-78, timecourse_fixedpos.py lines 62-68. *)
Definition grid_format (fmt : list string) : M (Z * Z) :=
  if (2 <? length fmt)%nat then
    print "Woah!  Too many dimensions specified for rectangular grid format!" ;;
    ret (0, 0)
  else if (length fmt =? 1)%nat then
    match fmt with
    | f :: _ => lib "parsePlateFormat" (parsePlateFormat f)
    | [] => raise (IndexError "fmt")
    end
  else
    l <- ints fmt ;; unpack2 l.

Definition locateJSON (scrID dirHTS : string) : string :=
  let exptType := str_slice 0 (-4) scrID in
  path_join dirHTS [(exptType ++ "_EXPERIMENTS")%string; scrID; "AUXILIARY";
                    (scrID ++ "_C2.json")%string].

(** parseAndRun.py lines 80-85, timecourse_fixedpos.py lines 70-75. *)
Definition manifest_path (inp : Args) : option string :=
  match a_usedict inp with
  | None => None
  | Some u =>
      let ext := str_slice_from (-5) u in
      if String.eqb ext ".json" || String.eqb ext ".JSON"
      then Some (realpath u)
      else Some (locateJSON u (realpath (a_logsdir inp)))
  end.

(** [os.path.exists] *)
Definition path_exists (p : string) : M bool :=
  f <- get_fs ;; ret (match f !! p with Some _ => true | None => false end).

(** [if fdict is not None and not os.path.exists(fdict): print(...)] *)
Definition warn_missing (fdict : option string) : M unit :=
  match fdict with
  | None => ret tt
  | Some p =>
      ex <- path_exists p ;;
      when (negb ex) (print ("WARNING! " ++ p ++ " does not exist...")%string)
  end.

Definition report_threshold (fixedThresh : num) : M unit :=
  if num_eqb fixedThresh (num_of_Z (-99))
  then print "Image segmentation by automatic thresholding."
  else print ("Images will be segmented using fixed threshold: "
              ++ num_str fixedThresh ++ ".")%string.

Definition report_manifest (fdict : option string) : M unit :=
  match fdict with
  | None => ret tt
  | Some p =>
      ex <- path_exists p ;;
      when ex (print ("Preparing to load barcodes from " ++ p ++ ".")%string)
  end.

Definition default_dir (inp : Args) : string :=
  match a_dir inp with
  | None => getcwd
  | Some d => realpath d
  end.

Definition default_thresh (inp : Args) : num :=
  match a_fixthresh inp with
  | Some t => t
  | None => num_of_Z (-99)
  end.

End Config.

(** ** Code shared by the two scripts *)

(** The barcode index: barcode to image paths, latest first. *)
Abbreviation Index := (gmap string (list string)).

Section Shared.
Context `{Ext : External}.

(** Modelled from the spec: [c2.checkAnalysisStarted], which is not among
    the embedded sources.  The LockMarker of an image is the sentinel in the
    output-data directory named after the image; analysis has started when
    it exists. *)
Definition checkAnalysisStarted (f : gmap string File) (fname : string) : bool :=
  match f !! out_path fname with
  | Some _ => true
  | None => false
  end.

(** [barcdict[x][-1]] is the earliest image of a batch. *)
Definition unclaimed (f : gmap string File) (ims : list string) : bool :=
  match last ims with
  | Some e => negb (checkAnalysisStarted f e)
  | None => false
  end.

Definition is_nil {A} (l : list A) : bool :=
  match l with
  | [] => true
  | _ => false
  end.

(** [{x:barcdict[x] for x in barcdict.keys()
      if not c2.checkAnalysisStarted(barcdict[x][-1])}];
    [barcdict[x][-1]] raises IndexError on an empty list. *)
Definition drop_started (d : Index) : M Index :=
  f <- get_fs ;;
  if existsb (fun kv => is_nil (snd kv)) (map_to_list d)
  then raise (IndexError "barcdict[x][-1]")
  else ret (filter (fun kv => unclaimed f (snd kv) = true) d).

(** Latest first: file names sort by acquisition time. *)
Fixpoint insert_desc (x : string) (l : list string) : list string :=
  match l with
  | [] => [x]
  | y :: l' => if String.leb y x then x :: l else y :: insert_desc x l'
  end.

Definition barcode_of (barcRange : Z * Z) (p : string) : string :=
  str_slice (fst barcRange) (snd barcRange) (basename p).

Definition group_images (barcRange : Z * Z) (ims : list string) : Index :=
  fold_right
    (fun p m =>
       let b := barcode_of barcRange p in
       <[b := insert_desc p (default [] (m !! b))]> m)
    ∅ ims.

(** The batches found under a directory that can be read: the images
    grouped by the barcode prefix of their file name, each group latest
    first, without the barcodes whose LockMarker exists. *)
Definition found_barcodes (f : gmap string File) (fdir : string) (barcRange : Z * Z) : Index :=
  filter (fun kv => unclaimed f (snd kv) = true)
         (group_images barcRange (listImages fdir)).

(** Modelled from the spec: [c2.getBarcodes], which is not among the
    embedded sources.  An unreadable directory is fatal; otherwise the
    images found under the directory are grouped by the barcode prefix of
    their file name, each group latest first, and every barcode whose
    LockMarker exists is left out. *)
Definition getBarcodes (f : gmap string File) (fdir : string) (barcRange : Z * Z)
  : Res Index :=
  if dir_readable fdir then Ok (found_barcodes f fdir barcRange)
  else Raise (IOError fdir).

(** [checkImages], lines 13-26 of both scripts. *)
Definition checkImages (fdir : string) (fdict : option string) : M Index :=
  match fdict with
  | Some p =>
      f <- get_fs ;;
      match f !! p with
      | Some (FManifest barcdict) => drop_started barcdict
      | Some _ => raise (ValueError "json.load")
      | None => raise (IOError p)
      end
  | None =>
      emit (EvCall "getBarcodes") ;;
      f <- get_fs ;;
      lift (getBarcodes f fdir (0, -24))
  end.

(** [sorted(barcdict)[0]] *)
Definition first_barcode (d : Index) : option string :=
  fold_right
    (fun k acc =>
       match acc with
       | None => Some k
       | Some m => if String.ltb k m then Some k else Some m
       end)
    None (map fst (map_to_list d)).

Record Timecourse : Type := {
  tc_BARCODE : string; tc_imdir : string; tc_InsData : gmap string Cal;
  tc_IMs : list string;
  tc_LATESTIMAGE : string; tc_EARLIESTIMAGE : string; tc_imRoot : string
}.

(** [prepareTimecourse] *)
Definition prepareTimecourse (barcdict : Index) (verbose : bool) : M Timecourse :=
  match first_barcode barcdict with
  | None => raise (IndexError "BARCs[0]")
  | Some BARCODE =>
      match barcdict !! BARCODE with
      | None => raise (KeyError BARCODE)
      | Some IMs =>
          match head IMs, last IMs with
          | Some LATESTIMAGE, Some EARLIESTIMAGE =>
              let imdir := dirname LATESTIMAGE in
              emit (EvCall "readInstructions") ;;
              InsData <- lib "readInstructions" (readInstructions imdir) ;;
              let imRoot := split_dot0 EARLIESTIMAGE in
              when verbose
                (print ("Analysing images labelled with the barcode " ++ BARCODE
                        ++ " in " ++ imdir)%string ;;
                 print ("Earliest image: " ++ EARLIESTIMAGE)%string ;;
                 print ("Latest image: " ++ LATESTIMAGE)%string) ;;
              ret {| tc_BARCODE := BARCODE; tc_imdir := imdir; tc_InsData := InsData;
                     tc_IMs := IMs;
                     tc_LATESTIMAGE := LATESTIMAGE; tc_EARLIESTIMAGE := EARLIESTIMAGE;
                     tc_imRoot := imRoot |}
          | _, _ => raise (IndexError "barcdict[BARCODE][0]")
          end
      end
  end.

(** [loadLocationGuesses] *)
Definition loadLocationGuesses (IMAGE : string) (InsData : gmap string Cal)
  : M (list num * list num * num * num) :=
  match InsData !! basename IMAGE with
  | Some c => lib "SetUp" (SetUp c None)
  | None =>
      match InsData !! "default" with
      | None => raise (KeyError "default")
      | Some d =>
          if cal_any_list d then
            let imname := split_dot0 (basename IMAGE) in
            let imdate := str_slice (-19) (-9) imname in
            lib "SetUp" (SetUp d (Some imdate))
          else lib "SetUp" (SetUp d None)
      end
  end.

(** [edgeFill]: its first statement calls [getEdges], which neither script
    defines or imports (nor [ndimage], nor the [dx], [dy] read by
    [cutEdgesFromMask]): the call raises NameError. *)
Definition edgeFill (a : arr) (locations : list Loc) : M mask_t :=
  raise (NameError "getEdges").

(** [maskAndFill] is likewise not a name of either module. *)
Definition maskAndFill (a : arr) (m : mask_t) : M arr :=
  raise (NameError "maskAndFill").

(** *** numpy *)

Definition shape_of {A} (a : list (list A)) : list nat := map length a.
Definition same_shape {A B} (a : list (list A)) (b : list (list B)) : bool :=
  bool_decide (shape_of a = shape_of b).

(** [a * b] on arrays of one shape *)
Definition arr_mul (a b : arr) : Res arr :=
  if same_shape a b then Ok (zip_with (zip_with num_mul) a b)
  else Raise (ValueError "operands could not be broadcast together").

(** [a + c] *)
Definition arr_shift (a : arr) (c : num) : arr := map (map (fun p => num_add p c)) a.

(** [numpy.ones(a.shape, dtype=numpy.bool)] *)
Definition ones_like (a : arr) : mask_t := map (map (fun _ : num => true)) a.

(** [a < t] *)
Definition lt_mask (a : arr) (t : num) : mask_t := map (map (fun p => num_ltb p t)) a.

(** [m[cond] = False] *)
Definition set_false (m cond : mask_t) : Res mask_t :=
  if same_shape m cond
  then Ok (zip_with (zip_with (fun (x c : bool) => if c then false else x)) m cond)
  else Raise (IndexError "boolean index did not match indexed array").

(** [a[r0:r1, c0:c1]] *)
Definition slice2 {A} (r0 r1 c0 c1 : Z) (a : list (list A)) : list (list A) :=
  map (py_slice c0 c1) (py_slice r0 r1 a).

(** [a[numpy.logical_not(m)]]: the selected elements, row by row. *)
Definition select_not (a : arr) (m : mask_t) : Res (list num) :=
  if same_shape a m
  then Ok (concat (zip_with
                      (fun r mr => concat (zip_with (fun p (b : bool) => if b then [] else [p]) r mr))
                      a m))
  else Raise (IndexError "boolean index did not match indexed array").

Definition shape0 {A} (a : list (list A)) : Z := Z.of_nat (length a).
Definition shape1 {A} (a : list (list A)) : Z :=
  match a with
  | [] => 0
  | r :: _ => Z.of_nat (length r)
  end.

(** [min(...)] and [max(...)] of a column; ValueError when it is empty. *)
Definition col_min (l : list Z) : Res Z :=
  match l with
  | [] => Raise (ValueError "min() arg is an empty sequence")
  | x :: l' => Ok (fold_left Z.min l' x)
  end.
Definition col_max (l : list Z) : Res Z :=
  match l with
  | [] => Raise (ValueError "max() arg is an empty sequence")
  | x :: l' => Ok (fold_left Z.max l' x)
  end.

(** The window that removes the plate walls:
    [a[max(0,int(round(min(y)-dy/2.0))):min(arrN.shape[0],int(round(max(y)+dy/2.0))),
       max(0,int(round(min(x)-dx/2.0))):min(arrN.shape[1],int(round(max(x)+dx/2.0)))]]. *)
Definition trim {A} (a : list (list A)) (arrN : arr) (locs : list Loc) (dx dy : num)
  : Res (list (list A)) :=
  ymin <~ col_min (map loc_y locs) ;;
  r0 <~ int_round (num_sub (num_of_Z ymin) (num_half dy)) ;;
  ymax <~ col_max (map loc_y locs) ;;
  r1 <~ int_round (num_add (num_of_Z ymax) (num_half dy)) ;;
  xmin <~ col_min (map loc_x locs) ;;
  c0 <~ int_round (num_sub (num_of_Z xmin) (num_half dx)) ;;
  xmax <~ col_max (map loc_x locs) ;;
  c1 <~ int_round (num_add (num_of_Z xmax) (num_half dx)) ;;
  Ok (slice2 (Z.max 0 r0) (Z.min (shape0 arrN) r1) (Z.max 0 c0) (Z.min (shape1 arrN) c1) a).

(** [numpy.mean(arr0[numpy.min(y):numpy.max(y), numpy.min(x):numpy.max(x)])] *)
Definition grid_mean (arr0 : arr) (locs : list Loc) : Res num :=
  ymin <~ col_min (map loc_y locs) ;;
  ymax <~ col_max (map loc_y locs) ;;
  xmin <~ col_min (map loc_x locs) ;;
  xmax <~ col_max (map loc_x locs) ;;
  Ok (num_mean (concat (slice2 ymin ymax xmin xmax arr0))).

(** [[int(round(c - d/2.0)) for c in cand]] *)
Fixpoint corner_of (cand : list num) (d : num) : Res (list Z) :=
  match cand with
  | [] => Ok []
  | c :: cand' =>
      n <~ int_round (num_sub c (num_half d)) ;;
      r <~ corner_of cand' d ;;
      Ok (n :: r)
  end.

(** The work claim, line 199 of parseAndRun.py and line 175 of
    timecourse_fixedpos.py:
    [open(os.path.join(os.path.dirname(EARLIESTIMAGE),"Output_Data",
          os.path.basename(EARLIESTIMAGE).split(".")[0]+".out"),"w").close()]. *)
Definition claim (EARLIESTIMAGE : string) : M unit :=
  write_file (out_path EARLIESTIMAGE) FEmpty.

(** What is recorded about one image of a batch: the values of the loop's
    locals when its body ends. *)
Record ImageLog : Type := {
  il_file : string; il_arr : arr; il_threshadj : num;
  il_mask : mask_t; il_rows : list Row; il_preview : Img
}.

(** What is recorded about a batch: the locals of the loop over barcodes. *)
Record BatchLog : Type := {
  bl_tc : Timecourse;
  bl_arrN : arr; bl_arr0 : arr;
  bl_locationsN : list Loc; bl_dx : num; bl_dy : num;
  bl_correction_map : option arr;
  bl_average_back : option num;
  bl_corrected_arrN : arr; bl_trimmed_arrN : arr;
  bl_thresh : num; bl_maskN : mask_t;
  bl_images : list ImageLog
}.

(** [for x in l: body], collecting what each iteration records. *)
Fixpoint for_each {A B} (body : A -> M B) (l : list A) : M (list B) :=
  match l with
  | [] => ret []
  | x :: l' => b <- body x ;; r <- for_each body l' ;; ret (b :: r)
  end.

(** The three files written for every image (lines 281-292 and
    248-254).  Modelled from the spec: [c2.saveColonyzer] writes the
    companion file with the same rows plus threshold and spacing. *)
Definition write_results (F : string) (rows : list Row) (threshadj dx dy : num)
    (preview : M Img) : M Img :=
  write_file (out_path F) (FTable rows) ;;
  write_file (dat_path F) (FDat rows threshadj dx dy) ;;
  im <- preview ;;
  write_file (png_path F) (FPng im) ;;
  ret im.

End Shared.

(** ** parseAndRun.py *)

Module ParseAndRun.
Section Script.
Context `{Ext : External}.

(** Lines 88-120: the body of [if verbose:].  It returns the two locals
    that are assigned only here, [diffIms] and [cut]. *)
Definition verbose_report (inp : Args) (fixedThresh : num) (fdict : option string)
  : M (bool * bool) :=
  (if a_lc inp then print "Lighting correction turned on."
   else print "Lighting correction turned off.") ;;
  diffIms <-
    (if a_lc inp then
       if a_diffims inp then
         print "Correcting for lighting differences between subsequent images of same plate." ;;
         ret true
       else
         print "Any lighting differences between plates will be ignored." ;;
         ret false
     else ret false) ;;
  (if a_plots inp
   then print "Reports on spot location and thresholding will appear in Output_Reports directory."
   else print "No reports on spot location or thresholding will be generated.") ;;
  (if a_initpos inp
   then print "Using user-specified initial guess for colony locations.  NOTE: Colonyzer.txt file must be located in directory with images to be analysed.  See Parametryzer for more information."
   else print "Searching for colony locations automatically.") ;;
  cut <-
    (if a_lc inp then
       if a_cut inp then
         print "Cutting cell signal from first image to create pseudo-empty plate (for lighting correction)." ;;
         ret true
       else
         print "Using first plate (without segmenting) as best estimate of pseudo-empty plate (for lighting correction)." ;;
         ret false
     else ret false) ;;
  report_threshold fixedThresh ;;
  report_manifest fdict ;;
  ret (diffIms, cut).

(** [buildVars], lines 53-122, after [parseArgs]. *)
Definition buildVars (inp : Args) : M Config :=
  let verbose := if a_quiet inp then false else true in
  let fdir := default_dir inp in
  let fixedThresh := default_thresh inp in
  g <- grid_format (a_fmt inp) ;;
  let fdict := manifest_path inp in
  warn_missing fdict ;;
  locals <-
    (if verbose then
       r <- verbose_report inp fixedThresh fdict ;;
       ret (Some (fst r), Some (snd r))
     else ret (None, None)) ;;
  (* line 121: the dictionary display reads cut before diffIms *)
  cut <- read_local "cut" (snd locals) ;;
  diffIms <- read_local "diffIms" (fst locals) ;;
  ret {| cfg_lc := a_lc inp; cfg_fixedThresh := fixedThresh;
         cfg_plots := a_plots inp; cfg_initpos := a_initpos inp;
         cfg_fdict := fdict; cfg_fdir := fdir;
         cfg_nrow := fst g; cfg_ncol := snd g;
         cfg_cut := cut; cfg_verbose := verbose; cfg_diffims := diffIms |}.

(** Lines 255-295: the body of [for FILENAME in barcdict[BARCODE]]. *)
Definition image_step (cfg : Config) (BARCODE : string)
    (locationsN : list Loc) (dx dy : num) (candx candy : list num) (arrN : arr)
    (correction_map : option arr) (average_back : option num)
    (corrected_arrN : arr) (thresh : num) (maskN : mask_t)
    (FILENAME : string) : M ImageLog :=
  emit (EvOpenImage FILENAME) ;;
  ia <- lib "openImage" (openImage FILENAME) ;;
  arr1 <-
    (if cfg_lc cfg then
       cm <- read_local "correction_map" correction_map ;;
       lift (arr_mul (snd ia) cm)
     else ret (snd ia)) ;;
  adj <-
    (if cfg_diffims cfg then
       arrsm <- lift (trim arr1 arrN locationsN dx dy) ;;
       masksm <- lift (trim maskN arrN locationsN dx dy) ;;
       sel <- lift (select_not arrsm masksm) ;;
       let meanPx := num_mean sel in
       ab <- read_local "average_back" average_back ;;
       ret (arr_shift arr1 (num_sub ab meanPx), num_add thresh (num_sub ab meanPx))
     else ret (arr1, thresh)) ;;
  let arr2 := fst adj in
  let threshadj := snd adj in
  (* lines 274-275 *)
  mask <- lift (set_false (ones_like arr2) (lt_mask corrected_arrN threshadj)) ;;
  ab <- read_local "average_back" average_back ;;
  emit (EvCall "measureSizeAndColour") ;;
  locations <-
    lib "measureSizeAndColour"
      (measureSizeAndColour locationsN arr2 (fst ia) mask ab BARCODE
                            (str_slice 0 (-4) FILENAME)) ;;
  imthresh <-
    write_results FILENAME locations threshadj dx dy
      (emit (EvCall "threshPreview") ;;
       im <- lib "threshPreview" (threshPreview arr2 threshadj locations) ;;
       (* the four draw.ellipse calls read candx[0] and candy[0] *)
       match candx, candy with
       | _ :: _, _ :: _ => ret im
       | _, _ => raise (IndexError "candx[0]")
       end) ;;
  when (cfg_verbose cfg) (print ("Finished " ++ basename FILENAME)%string) ;;
  ret {| il_file := FILENAME; il_arr := arr2; il_threshadj := threshadj;
         il_mask := mask; il_rows := locations; il_preview := imthresh |}.

(** Lines 244-249. *)
Definition choose_threshold (cfg : Config) (BARCODE : string) (trimmed_arrN : arr) : M num :=
  if num_geb (cfg_fixedThresh cfg) (num_of_Z 0) then ret (cfg_fixedThresh cfg)
  else
    emit (EvAutoThresh BARCODE) ;;
    tb <- lib "automaticThreshold" (automaticThreshold trimmed_arrN) ;;
    when (cfg_plots cfg) (emit (EvPlotModel BARCODE)) ;;
    ret (fst tb).

(** Lines 220-239: the correction model.  The three locals
    [correction_map], [average_back] and [corrected_arrN] are returned as
    they stand when the statement ends, unassigned ones as [None]. *)
Definition correction_model (cfg : Config) (arrN arr0 : arr) (locationsN : list Loc)
  : M (option arr * option num * option arr) :=
  if cfg_lc cfg then
    if cfg_cut cfg then
      mask <- edgeFill arr0 locationsN ;;
      (* cythonFill is False *)
      pseudoempty <- maskAndFill arr0 mask ;;
      print "Inpainting using NumPy" ;;
      ret (None, None, None)
    else
      let pseudoempty := arr0 in
      emit (EvCall "makeCorrectionMap") ;;
      cm <- lib "makeCorrectionMap" (makeCorrectionMap pseudoempty locationsN) ;;
      corrected_arrN <- lift (arr_mul arrN (fst cm)) ;;
      ret (Some (fst cm), Some (snd cm), Some corrected_arrN)
  else
    average_back <- lift (grid_mean arr0 locationsN) ;;
    ret (None, Some average_back, Some arrN).

(** Lines 191-298: the body of [while len(barcdict)>0] up to the update of
    [barcdict]. *)
Definition analyse_barcode (cfg : Config) (barcdict : Index) : M BatchLog :=
  tc <- prepareTimecourse barcdict (cfg_verbose cfg) ;;
  let BARCODE := tc_BARCODE tc in
  let LATESTIMAGE := tc_LATESTIMAGE tc in
  let EARLIESTIMAGE := tc_EARLIESTIMAGE tc in
  (* lines 193-194 *)
  when (cfg_plots cfg) (open_pdf (pdf_path EARLIESTIMAGE)) ;;
  (* line 199 *)
  claim EARLIESTIMAGE ;;
  emit (EvOpenImage LATESTIMAGE) ;;
  imarrN <- lib "openImage" (openImage LATESTIMAGE) ;;
  imarr0 <-
    (if String.eqb LATESTIMAGE EARLIESTIMAGE then ret imarrN
     else
       emit (EvOpenImage EARLIESTIMAGE) ;;
       lib "openImage" (openImage EARLIESTIMAGE)) ;;
  let arrN := snd imarrN in
  let arr0 := snd imarr0 in
  guess <-
    (if cfg_initpos cfg then loadLocationGuesses LATESTIMAGE (tc_InsData tc)
     else
       emit (EvCall "estimateLocations") ;;
       e <- lib "estimateLocations" (estimateLocations arrN (cfg_ncol cfg) (cfg_nrow cfg)) ;;
       ret (fst (fst (fst e)))) ;;
  let candx := fst (fst (fst guess)) in
  let candy := snd (fst (fst guess)) in
  let dx := snd (fst guess) in
  let dy := snd guess in
  cornersx <- lift (corner_of candx dx) ;;
  cornersy <- lift (corner_of candy dy) ;;
  emit (EvCall "locateCultures") ;;
  locationsN <-
    lib "locateCultures"
      (locateCultures cornersx cornersy dx dy arrN
                      (Some (cfg_ncol cfg, cfg_nrow cfg)) true) ;;
  model <- correction_model cfg arrN arr0 locationsN ;;
  let correction_map := fst (fst model) in
  let average_back := snd (fst model) in
  (* line 242 *)
  corrected_arrN <- read_local "corrected_arrN" (snd model) ;;
  trimmed_arrN <- lift (trim corrected_arrN arrN locationsN dx dy) ;;
  thresh <- choose_threshold cfg BARCODE trimmed_arrN ;;
  (* lines 252-253 *)
  maskN <- lift (set_false (ones_like arrN) (lt_mask corrected_arrN thresh)) ;;
  images <-
    for_each (image_step cfg BARCODE locationsN dx dy candx candy arrN
                         correction_map average_back corrected_arrN thresh maskN)
             (tc_IMs tc) ;;
  when (cfg_verbose cfg) (print ("Finished " ++ basename BARCODE)%string) ;;
  ret {| bl_tc := tc; bl_arrN := arrN; bl_arr0 := arr0;
         bl_locationsN := locationsN; bl_dx := dx; bl_dy := dy;
         bl_correction_map := correction_map; bl_average_back := average_back;
         bl_corrected_arrN := corrected_arrN; bl_trimmed_arrN := trimmed_arrN;
         bl_thresh := thresh; bl_maskN := maskN; bl_images := images |}.

(** The loop [while len(barcdict)>0], with a bound on its iterations. *)
Fixpoint main_loop (fuel : nat) (cfg : Config) (barcdict : Index) : M (list BatchLog) :=
  if bool_decide (barcdict = ∅) then ret []
  else
    match fuel with
    | O => raise OutOfFuel
    | S fuel' =>
        b <- analyse_barcode cfg barcdict ;;
        (* line 300 *)
        barcdict' <- drop_started barcdict ;;
        when (cfg_plots cfg) (emit EvPdfClose) ;;
        r <- main_loop fuel' cfg barcdict' ;;
        ret (b :: r)
    end.

(** [main], after [parseArgs]. *)
Definition main (fuel : nat) (inp : Args) : M (list BatchLog) :=
  print ("Colonyzer " ++ c2_version)%string ;;
  var <- buildVars inp ;;
  barcdict <- checkImages (cfg_fdir var) (cfg_fdict var) ;;
  emit (EvCall "setupDirectories") ;;
  logs <- main_loop fuel var barcdict ;;
  print "No more barcodes to analyse... I'm done." ;;
  ret logs.

End Script.
End ParseAndRun.

(** ** timecourse_fixedpos.py *)

Module TimecourseFixedpos.
Section Script.
Context `{Ext : External}.

(** [buildVars], lines 48-99.  This script has no [--diffims], [--cut] or
    [--quiet] option and its [-t/--threshplots] flag is read from
    [a_plots]; its result has no [cut], [verbose] or [diffims] entry, and
    the corresponding fields of [Config] are set to the constants that
    [main] uses. *)
Definition buildVars (verbose : bool) (inp : Args) : M Config :=
  let fdir := default_dir inp in
  let fixedThresh := default_thresh inp in
  g <- grid_format (a_fmt inp) ;;
  let fdict := manifest_path inp in
  warn_missing fdict ;;
  when verbose
    ((if a_lc inp then print "Lighting correction turned on."
      else print "Lighting correction turned off.") ;;
     (if a_plots inp then print "Pixel intensity distribution plotting turned on."
      else print "Pixel intensity distribution plotting turned off.") ;;
     (if a_initpos inp
      then print "Using user-specified initial guess for colony locations.  NOTE: Colonyzer.txt file must be located in directory with images to be analysed.  See Parametryzer for more information."
      else print "Searching for colony locations automatically.") ;;
     report_threshold fixedThresh ;;
     report_manifest fdict) ;;
  print "res" ;;
  ret {| cfg_lc := a_lc inp; cfg_fixedThresh := fixedThresh;
         cfg_plots := a_plots inp; cfg_initpos := a_initpos inp;
         cfg_fdict := fdict; cfg_fdir := fdir;
         cfg_nrow := fst g; cfg_ncol := snd g;
         cfg_cut := false; cfg_verbose := verbose; cfg_diffims := false |}.

(** Lines 213-222. *)
Definition choose_threshold (cfg : Config) (BARCODE : string) (trimmed_arrN : arr) : M num :=
  if num_geb (cfg_fixedThresh cfg) (num_of_Z 0) then ret (cfg_fixedThresh cfg)
  else if cfg_plots cfg then
    open_pdf (BARCODE ++ "_HistogramReport.pdf")%string ;;
    emit (EvAutoThresh BARCODE) ;;
    tb <- lib "automaticThreshold" (automaticThreshold trimmed_arrN) ;;
    emit (EvPlotModel BARCODE) ;;
    emit EvPdfClose ;;
    ret (fst tb)
  else
    emit (EvAutoThresh BARCODE) ;;
    tb <- lib "automaticThreshold" (automaticThreshold trimmed_arrN) ;;
    ret (fst tb).

(** Lines 228-254: the body of [for FILENAME in barcdict[BARCODE]]. *)
Definition image_step (cfg : Config) (BARCODE : string)
    (locationsN : list Loc) (dx dy : num) (arrN : arr)
    (correction_map : arr) (average_back : num)
    (thresh : num) (maskN : mask_t)
    (FILENAME : string) : M ImageLog :=
  emit (EvOpenImage FILENAME) ;;
  ia <- lib "openImage" (openImage FILENAME) ;;
  arr1 <- (if cfg_lc cfg then lift (arr_mul (snd ia) correction_map) else ret (snd ia)) ;;
  arrsm <- lift (trim arr1 arrN locationsN dx dy) ;;
  masksm <- lift (trim maskN arrN locationsN dx dy) ;;
  sel <- lift (select_not arrsm masksm) ;;
  let meanPx := num_mean sel in
  let threshadj := thresh in
  (* lines 242-243 *)
  mask <- lift (set_false (ones_like arr1) (lt_mask arrN threshadj)) ;;
  emit (EvCall "measureSizeAndColour") ;;
  locations <-
    lib "measureSizeAndColour"
      (measureSizeAndColour locationsN arr1 (fst ia) mask average_back BARCODE
                            (str_slice 0 (-4) FILENAME)) ;;
  imthresh <-
    write_results FILENAME locations threshadj dx dy
      (emit (EvCall "threshPreview") ;;
       lib "threshPreview" (threshPreview arr1 threshadj locations)) ;;
  ret {| il_file := FILENAME; il_arr := arr1; il_threshadj := threshadj;
         il_mask := mask; il_rows := locations; il_preview := imthresh |}.

(** Lines 172-257: the body of [while len(barcdict)>0] up to the update of
    [barcdict].  [cutFromFirst], [cythonFill] and [updateLocations] are
    False. *)
Definition analyse_barcode (cfg : Config) (barcdict : Index) : M BatchLog :=
  tc <- prepareTimecourse barcdict (cfg_verbose cfg) ;;
  let BARCODE := tc_BARCODE tc in
  let LATESTIMAGE := tc_LATESTIMAGE tc in
  let EARLIESTIMAGE := tc_EARLIESTIMAGE tc in
  (* line 175 *)
  claim EARLIESTIMAGE ;;
  emit (EvOpenImage LATESTIMAGE) ;;
  imarrN <- lib "openImage" (openImage LATESTIMAGE) ;;
  emit (EvOpenImage EARLIESTIMAGE) ;;
  imarr0 <- lib "openImage" (openImage EARLIESTIMAGE) ;;
  let arrN := snd imarrN in
  let arr0 := snd imarr0 in
  guess <-
    (if cfg_initpos cfg then loadLocationGuesses LATESTIMAGE (tc_InsData tc)
     else
       emit (EvCall "estimateLocations") ;;
       e <- lib "estimateLocations" (estimateLocations arrN (cfg_ncol cfg) (cfg_nrow cfg)) ;;
       ret (fst (fst (fst e)))) ;;
  let candx := fst (fst (fst guess)) in
  let candy := snd (fst (fst guess)) in
  let dx := snd (fst guess) in
  let dy := snd guess in
  cornersx <- lift (corner_of candx dx) ;;
  cornersy <- lift (corner_of candy dy) ;;
  emit (EvCall "locateCultures") ;;
  locationsN <-
    lib "locateCultures"
      (locateCultures cornersx cornersy dx dy arrN None false) ;;
  let pseudoempty := arr0 in
  emit (EvCall "makeCorrectionMap") ;;
  cm <- lib "makeCorrectionMap" (makeCorrectionMap pseudoempty locationsN) ;;
  let correction_map := fst cm in
  let average_back := snd cm in
  corrected_arrN <- lift (arr_mul arrN correction_map) ;;
  (* line 211 *)
  trimmed_arrN <- lift (trim arrN arrN locationsN dx dy) ;;
  thresh <- choose_threshold cfg BARCODE trimmed_arrN ;;
  (* lines 225-226 *)
  maskN <- lift (set_false (ones_like arrN) (lt_mask arrN thresh)) ;;
  images <-
    for_each (image_step cfg BARCODE locationsN dx dy arrN
                         correction_map average_back thresh maskN)
             (tc_IMs tc) ;;
  print "Finished" ;;
  ret {| bl_tc := tc; bl_arrN := arrN; bl_arr0 := arr0;
         bl_locationsN := locationsN; bl_dx := dx; bl_dy := dy;
         bl_correction_map := Some correction_map; bl_average_back := Some average_back;
         bl_corrected_arrN := corrected_arrN; bl_trimmed_arrN := trimmed_arrN;
         bl_thresh := thresh; bl_maskN := maskN; bl_images := images |}.

Fixpoint main_loop (fuel : nat) (cfg : Config) (barcdict : Index) : M (list BatchLog) :=
  if bool_decide (barcdict = ∅) then ret []
  else
    match fuel with
    | O => raise OutOfFuel
    | S fuel' =>
        b <- analyse_barcode cfg barcdict ;;
        (* line 259 *)
        barcdict' <- drop_started barcdict ;;
        r <- main_loop fuel' cfg barcdict' ;;
        ret (b :: r)
    end.

Definition main (fuel : nat) (verbose : bool) (inp : Args) : M (list BatchLog) :=
  print ("Colonyzer " ++ c2_version)%string ;;
  var <- buildVars verbose inp ;;
  barcdict <- checkImages (cfg_fdir var) (cfg_fdict var) ;;
  emit (EvCall "setupDirectories") ;;
  logs <- main_loop fuel var barcdict ;;
  print "No more barcodes to analyse... I'm done." ;;
  ret logs.

End Script.
End TimecourseFixedpos.

(** ** A concrete world for running the scripts

    Exact rational arithmetic, and a small library whose images are 2x2
    arrays of integer intensities.  All the numbers that occur are small
    dyadic rationals, on which binary floating point computes the same
    values. *)

Module Demo.

Definition q_round (x : Q) : Z :=
  let f := Qfloor x in
  match Qcompare (x - inject_Z f)%Q (1 # 2)%Q with
  | Lt => f
  | Gt => f + 1
  | Eq => if Z.even f then f else f + 1     (* round half to even *)
  end.

Definition q_mean (l : list Q) : Q :=
  match l with
  | [] => 0%Q   (* numpy gives nan *)
  | _ => Qred (fold_right Qplus 0%Q l / inject_Z (Z.of_nat (length l)))
  end.

#[export] Instance numQ : Numeric := {|
  num := Q;
  num_of_Z := inject_Z;
  num_add := fun a b => Qred (a + b)%Q;
  num_sub := fun a b => Qred (a - b)%Q;
  num_mul := fun a b => Qred (a * b)%Q;
  num_half := fun a => Qred (a / 2)%Q;
  num_ltb := fun a b => negb (Qle_bool b a);
  num_geb := fun a b => Qle_bool b a;
  num_eqb := Qeq_bool;
  num_round := fun x => Some (q_round x);
  num_isnan := fun _ => false;
  num_mean := q_mean;
  num_str := fun _ => "<float>";
  num_sentinel_negative := eq_refl
|}.

(** Two plates on a 2x2 grid.  Plate [P1] has two timepoints, plate [P2]
    one. *)
Definition im_P1_late : string := "d/P1_2011-06-28_11-08-14.JPG".
Definition im_P1_early : string := "d/P1_2011-06-27_11-08-14.JPG".
Definition im_P2 : string := "d/P2_2011-06-27_11-08-14.JPG".

Definition pixels (p : string) : option (list (list Q)) :=
  if String.eqb p im_P1_late then Some [[8; 2]; [2; 8]]%Q
  else if String.eqb p im_P1_early then Some [[2; 2]; [2; 4]]%Q
  else if String.eqb p im_P2 then Some [[6; 1]; [1; 1]]%Q
  else None.

(** The number of signal pixels of a mask. *)
Definition area (m : mask_t) : Z :=
  Z.of_nat (length (filter (fun b => b = true) (concat m))).

#[export] Instance demo : External := {|
  Row := string * Z;
  Img := string;
  Cal := unit;
  Bindat := unit;
  c2_version := "1.1.6";
  getcwd := "d";
  realpath := fun p => p;
  listImages := fun _ => [im_P1_late; im_P1_early; im_P2];
  dir_readable := fun _ => true;
  can_write := fun _ => true;
  parsePlateFormat := fun f =>
    if String.eqb f "384" then Some (16, 24)
    else if String.eqb f "4" then Some (2, 2)
    else None;
  openImage := fun p => option_map (fun a => (p, a)) (pixels p);
  readInstructions := fun _ => Some ∅;
  cal_any_list := fun _ => false;
  SetUp := fun _ _ => None;
  estimateLocations := fun _ _ _ =>
    Some ([1; 3]%Q, [1; 3]%Q, 2%Q, 2%Q, (0, 0), (0, 0), (0, 0));
  locateCultures := fun xs ys _ _ _ _ _ =>
    Some (flat_map (fun y => map (fun x => {| loc_x := x; loc_y := y |}) xs) ys);
  makeCorrectionMap := fun a _ => Some (map (map (fun _ => 2%Q)) a, 3%Q);
  automaticThreshold := fun _ => Some (5%Q, tt);
  measureSizeAndColour := fun locs _ _ m _ _ fid => Some (map (fun _ => (fid, area m)) locs);
  threshPreview := fun _ _ _ => Some "preview"
|}.

Definition w0 : World := {| fs := ∅; trace := [] |}.

Definition args0 : Args := {|
  a_lc := false; a_diffims := false; a_plots := false; a_initpos := false;
  a_cut := false; a_quiet := false;
  a_dir := Some "d"; a_logsdir := "."; a_fixthresh := None; a_usedict := None;
  a_fmt := ["4"]
|}.

(** The work list found in directory [d] when nothing is claimed. *)
Definition idx0 : Index := found_barcodes ∅ "d" (0, -24).

(** A work list with the single-timepoint plate only. *)
Definition idx_P2 : Index := {[ "P2" := [im_P2] ]}.

(** The configuration that [args0] gives. *)
Definition cfg0 : Config := {|
  cfg_lc := false; cfg_fixedThresh := (-99)%Q; cfg_plots := false;
  cfg_initpos := false; cfg_fdict := None; cfg_fdir := "d";
  cfg_nrow := 2; cfg_ncol := 2;
  cfg_cut := false; cfg_verbose := true; cfg_diffims := false
|}.

Definition with_fmt (fmt : list string) (a : Args) : Args := {|
  a_lc := a_lc a; a_diffims := a_diffims a; a_plots := a_plots a;
  a_initpos := a_initpos a; a_cut := a_cut a; a_quiet := a_quiet a;
  a_dir := a_dir a; a_logsdir := a_logsdir a; a_fixthresh := a_fixthresh a;
  a_usedict := a_usedict a; a_fmt := fmt
|}.

Definition with_flags (lc cut quiet : bool) (thresh : option Q) (a : Args) : Args := {|
  a_lc := lc; a_diffims := a_diffims a; a_plots := a_plots a;
  a_initpos := a_initpos a; a_cut := cut; a_quiet := quiet;
  a_dir := a_dir a; a_logsdir := a_logsdir a; a_fixthresh := thresh;
  a_usedict := a_usedict a; a_fmt := a_fmt a
|}.

(** [-o 2 2 2]: three dimension tokens. *)
Definition args_3tokens : Args := with_fmt ["2"; "2"; "2"] args0.
(** [-c -x]: signal-removal mode. *)
Definition args_cut : Args := with_flags true true false None args0.
(** [-q] *)
Definition args_quiet : Args := with_flags false false true None args0.
(** [-q -o a b] *)
Definition args_quiet_ab : Args := with_fmt ["a"; "b"] args_quiet.
(** [-f 0.5] *)
Definition args_fixed : Args := with_flags false false false (Some (1 # 2)%Q) args0.
(** [-c] *)
Definition args_lc : Args := with_flags true false false None args0.
(** [-c -m -f 5] *)
Definition args_drift : Args := {|
  a_lc := true; a_diffims := true; a_plots := false; a_initpos := false;
  a_cut := false; a_quiet := false;
  a_dir := Some "d"; a_logsdir := "."; a_fixthresh := Some 5%Q; a_usedict := None;
  a_fmt := ["4"]
|}.

(** The configuration that [args_cut] gives. *)
Definition cfg0_cut : Config := {|
  cfg_lc := true; cfg_fixedThresh := (-99)%Q; cfg_plots := false;
  cfg_initpos := false; cfg_fdict := None; cfg_fdir := "d";
  cfg_nrow := 2; cfg_ncol := 2;
  cfg_cut := true; cfg_verbose := true; cfg_diffims := false
|}.

(** A world in which plate [P2] is already claimed: its marker holds the
    rows that an earlier run wrote for its earliest image. *)
Definition w_claimed : World :=
  {| fs := {[ out_path im_P2 := FTable [("d/P2_2011-06-27_11-08-14", 1)] ]};
     trace := [] |}.

End Demo.

(** ** Vocabulary of the statements *)

Section Vocabulary.
Context `{Ext : External}.

(** [emits P c]: whatever its outcome, [c] only adds events that satisfy
    [P] to the trace. *)
Definition emits (P : Event -> Prop) {A} (c : M A) : Prop :=
  forall w, exists t, trace (fst (c w)) = (trace w ++ t)%list /\ Forall P t.

Definition is_print (e : Event) : Prop := exists s, e = EvPrint s.

(** The image files opened, the files written and the automatic threshold
    fits invoked, in the order of a trace. *)
Definition opens (t : list Event) : list string :=
  omap (fun e => match e with EvOpenImage p => Some p | _ => None end) t.
Definition writes (t : list Event) : list (string * File) :=
  omap (fun e => match e with
                 | EvWrite p f => Some (p, f)
                 | EvPdfOpen p => Some (p, FPdf)
                 | _ => None
                 end) t.
Definition autos (t : list Event) : list string :=
  omap (fun e => match e with EvAutoThresh l => Some l | _ => None end) t.

(** The rows held by a file. *)
Definition file_rows (f : File) : list Row :=
  match f with
  | FTable rows | FDat rows _ _ _ => rows
  | _ => []
  end.

(** The file system after a sequence of whole-file writes. *)
Definition apply_writes (ws : list (string * File)) (f : gmap string File)
  : gmap string File :=
  fold_left (fun g pf => <[fst pf := snd pf]> g) ws f.

(** [effects w w' t]: from [w] to [w'] the events [t] happened, and the
    files changed by the writes among them. *)
Definition effects (w w' : World) (t : list Event) : Prop :=
  trace w' = (trace w ++ t)%list /\ fs w' = apply_writes (writes t) (fs w).

(** The files written for one image, from what the loop recorded. *)
Definition image_writes (dx dy : num) (il : ImageLog) : list (string * File) :=
  [ (out_path (il_file il), FTable (il_rows il));
    (dat_path (il_file il), FDat (il_rows il) (il_threshadj il) dx dy);
    (png_path (il_file il), FPng (il_preview il)) ].

(** The mask [m] with [m[a < t] = False] applied to an all-true mask. *)
Definition not_below (a : arr) (t : num) : mask_t :=
  map (map (fun p => negb (num_ltb p t))) a.

(** What a successful pass of the per-image loop of parseAndRun.py
    establishes for the image [F]. *)
Definition parse_image_facts (cfg : Config) (corrected_arrN : arr) (thresh : num)
    (correction_map : option arr) (F : string) (il : ImageLog) : Prop :=
  il_file il = F /\
  il_mask il = not_below corrected_arrN (il_threshadj il) /\
  (cfg_diffims cfg = false ->
     il_threshadj il = thresh /\
     exists im raw, openImage F = Some (im, raw) /\
       if cfg_lc cfg
       then exists cm, correction_map = Some cm /\ arr_mul raw cm = Ok (il_arr il)
       else il_arr il = raw).

(** What a successful pass of the loop over barcodes of parseAndRun.py
    establishes, with [t] the events of the pass. *)
Definition parse_batch_facts (cfg : Config) (d : Index) (b : BatchLog)
    (t : list Event) : Prop :=
  let tc := bl_tc b in
  first_barcode d = Some (tc_BARCODE tc) /\
  d !! tc_BARCODE tc = Some (tc_IMs tc) /\
  head (tc_IMs tc) = Some (tc_LATESTIMAGE tc) /\
  last (tc_IMs tc) = Some (tc_EARLIESTIMAGE tc) /\
  (exists im, openImage (tc_LATESTIMAGE tc) = Some (im, bl_arrN b)) /\
  (if String.eqb (tc_LATESTIMAGE tc) (tc_EARLIESTIMAGE tc)
   then bl_arr0 b = bl_arrN b
   else exists im, openImage (tc_EARLIESTIMAGE tc) = Some (im, bl_arr0 b)) /\
  (if cfg_lc cfg
   then cfg_cut cfg = false /\
        exists cm ab, makeCorrectionMap (bl_arr0 b) (bl_locationsN b) = Some (cm, ab)
                      /\ bl_correction_map b = Some cm
                      /\ arr_mul (bl_arrN b) cm = Ok (bl_corrected_arrN b)
   else bl_corrected_arrN b = bl_arrN b /\ bl_correction_map b = None) /\
  trim (bl_corrected_arrN b) (bl_arrN b) (bl_locationsN b) (bl_dx b) (bl_dy b)
    = Ok (bl_trimmed_arrN b) /\
  (if num_geb (cfg_fixedThresh cfg) (num_of_Z 0)
   then bl_thresh b = cfg_fixedThresh cfg
   else exists tb, automaticThreshold (bl_trimmed_arrN b) = Some tb
                   /\ bl_thresh b = fst tb) /\
  bl_maskN b = not_below (bl_corrected_arrN b) (bl_thresh b) /\
  Forall2 (parse_image_facts cfg (bl_corrected_arrN b) (bl_thresh b) (bl_correction_map b))
          (tc_IMs tc) (bl_images b) /\
  opens t = (tc_LATESTIMAGE tc
             :: (if String.eqb (tc_LATESTIMAGE tc) (tc_EARLIESTIMAGE tc)
                 then [] else [tc_EARLIESTIMAGE tc])
             ++ map il_file (bl_images b))%list /\
  writes t = ((if cfg_plots cfg then [(pdf_path (tc_EARLIESTIMAGE tc), FPdf)] else [])
              ++ (out_path (tc_EARLIESTIMAGE tc), FEmpty)
              :: flat_map (image_writes (bl_dx b) (bl_dy b)) (bl_images b))%list /\
  autos t = (if num_geb (cfg_fixedThresh cfg) (num_of_Z 0) then []
             else [tc_BARCODE tc]).

(** The same for timecourse_fixedpos.py. *)
Definition fixedpos_image_facts (cfg : Config) (arrN : arr) (thresh : num)
    (correction_map : arr) (F : string) (il : ImageLog) : Prop :=
  il_file il = F /\
  il_mask il = not_below arrN (il_threshadj il) /\
  il_threshadj il = thresh /\
  exists im raw, openImage F = Some (im, raw) /\
    if cfg_lc cfg
    then arr_mul raw correction_map = Ok (il_arr il)
    else il_arr il = raw.

Definition fixedpos_batch_facts (cfg : Config) (d : Index) (b : BatchLog)
    (t : list Event) : Prop :=
  let tc := bl_tc b in
  first_barcode d = Some (tc_BARCODE tc) /\
  d !! tc_BARCODE tc = Some (tc_IMs tc) /\
  head (tc_IMs tc) = Some (tc_LATESTIMAGE tc) /\
  last (tc_IMs tc) = Some (tc_EARLIESTIMAGE tc) /\
  (exists im, openImage (tc_LATESTIMAGE tc) = Some (im, bl_arrN b)) /\
  (exists im, openImage (tc_EARLIESTIMAGE tc) = Some (im, bl_arr0 b)) /\
  (exists cm ab, makeCorrectionMap (bl_arr0 b) (bl_locationsN b) = Some (cm, ab)
                 /\ bl_correction_map b = Some cm
                 /\ arr_mul (bl_arrN b) cm = Ok (bl_corrected_arrN b)
                 /\ Forall2 (fixedpos_image_facts cfg (bl_arrN b) (bl_thresh b) cm)
                            (tc_IMs tc) (bl_images b)) /\
  trim (bl_arrN b) (bl_arrN b) (bl_locationsN b) (bl_dx b) (bl_dy b)
    = Ok (bl_trimmed_arrN b) /\
  (if num_geb (cfg_fixedThresh cfg) (num_of_Z 0)
   then bl_thresh b = cfg_fixedThresh cfg
   else exists tb, automaticThreshold (bl_trimmed_arrN b) = Some tb
                   /\ bl_thresh b = fst tb) /\
  bl_maskN b = not_below (bl_arrN b) (bl_thresh b) /\
  opens t = (tc_LATESTIMAGE tc :: tc_EARLIESTIMAGE tc :: map il_file (bl_images b)) /\
  writes t = ((out_path (tc_EARLIESTIMAGE tc), FEmpty)
              :: (if num_geb (cfg_fixedThresh cfg) (num_of_Z 0) then []
                  else if cfg_plots cfg
                       then [((tc_BARCODE tc ++ "_HistogramReport.pdf")%string, FPdf)]
                       else [])
              ++ flat_map (image_writes (bl_dx b) (bl_dy b)) (bl_images b))%list /\
  autos t = (if num_geb (cfg_fixedThresh cfg) (num_of_Z 0) then []
             else [tc_BARCODE tc]).

(** The value that a run returns, and the exception that it raises. *)
Definition result {A} (r : World * Res A) : option A :=
  match snd r with
  | Ok a => Some a
  | Raise _ => None
  end.
Definition raised {A} (r : World * Res A) : option exn :=
  match snd r with
  | Ok _ => None
  | Raise e => Some e
  end.

(** [acts P c]: whatever its outcome, [c] leaves the world it started in
    extended by the events it emitted, all of which satisfy [P], and by
    the files it wrote. *)
Definition acts (P : Event -> Prop) {A} (c : M A) : Prop :=
  forall w, exists t, effects w (fst (c w)) t /\ Forall P t.

(** [returns c]: [c] returns a value in every world. *)
Definition returns {A} (c : M A) : Prop :=
  forall w, exists w' a, c w = (w', Ok a).

(** [never e c]: [c] raises [e] in no world. *)
Definition never (e : exn) {A} (c : M A) : Prop :=
  forall w, raised (c w) <> Some e.

(** Events other than image opens, file writes, report creations and
    threshold fits. *)
Definition silent (e : Event) : Prop :=
  match e with
  | EvOpenImage _ | EvWrite _ _ | EvPdfOpen _ | EvAutoThresh _ => False
  | _ => True
  end.

(** Events that change no file, the writes of the output files of an
    image, and the creations of a report. *)
Definition output_event (e : Event) : Prop :=
  match e with
  | EvWrite p _ => exists F, p = out_path F \/ p = dat_path F \/ p = png_path F
  | EvPdfOpen p => exists F, p = pdf_path F \/ p = (F ++ "_HistogramReport.pdf")%string
  | _ => True
  end.

(** The paths that the scripts write to: the table, the companion file,
    the preview and the report of an image, and the histogram report of a
    barcode. *)
Definition output_path (p : string) : Prop :=
  exists F, p = out_path F \/ p = dat_path F \/ p = png_path F \/ p = pdf_path F
            \/ p = (F ++ "_HistogramReport.pdf")%string.

(** Events other than the invocation of the automatic threshold fit. *)
Definition not_a_fit (e : Event) : Prop :=
  match e with
  | EvAutoThresh _ => False
  | _ => True
  end.

(** Any event. *)
Definition any_event (e : Event) : Prop := True.

(** *** The claims that fail, as they are stated *)

(** C1 at an image: the mask compares the threshold with that image's own
    array, corrected when lighting correction is on and raw otherwise. *)
Definition own_array_mask (cfg : Config) (b : BatchLog) (il : ImageLog) : Prop :=
  exists im raw, openImage (il_file il) = Some (im, raw) /\
    if cfg_lc cfg
    then exists cm corrected,
           bl_correction_map b = Some cm /\ arr_mul raw cm = Ok corrected
           /\ il_mask il = not_below corrected (il_threshadj il)
    else il_mask il = not_below raw (il_threshadj il).
Definition C1_as_stated (cfg : Config) (b : BatchLog) : Prop :=
  Forall (own_array_mask cfg b) (bl_images b).

(** C2 at a run: it fails with an error and has opened no image. *)
Definition C2_as_stated (fuel : nat) (inp : Args) (w : World) : Prop :=
  exists w' e, ParseAndRun.main fuel inp w = (w', Raise e)
               /\ opens (trace w') = opens (trace w).

(** C3 at a claim: the creation fails exactly when the marker exists, and
    an existing marker is left as it is. *)
Definition C3_as_stated (EARLIESTIMAGE : string) (w : World) : Prop :=
  (is_Some (fs w !! out_path EARLIESTIMAGE)
   <-> exists w' e, claim EARLIESTIMAGE w = (w', Raise e)) /\
  (is_Some (fs w !! out_path EARLIESTIMAGE) ->
   fs (fst (claim EARLIESTIMAGE w)) !! out_path EARLIESTIMAGE
   = fs w !! out_path EARLIESTIMAGE).

(** C4 after a batch of [n] images on a grid of [cells] cells: some file
    holds the [n * cells] rows. *)
Definition C4_as_stated (n cells : nat) (w' : World) : Prop :=
  exists p f, fs w' !! p = Some f /\ length (file_rows f) = (n * cells)%nat.

(** C5 at a run with the override [v]: every image of every batch is
    segmented at [v]. *)
Definition C5_as_stated (fuel : nat) (inp : Args) (w : World) (v : num) : Prop :=
  forall w' logs,
    ParseAndRun.main fuel inp w = (w', Ok logs) ->
    Forall (fun b => Forall (fun il => il_threshadj il = v) (bl_images b)) logs.

(** C7 at a batch: when the latest and the earliest image are one file,
    that file is opened once. *)
Definition C7_as_stated (tc : Timecourse) (t : list Event) : Prop :=
  tc_LATESTIMAGE tc = tc_EARLIESTIMAGE tc ->
  length (filter (fun p => p = tc_LATESTIMAGE tc) (opens t)) = 1%nat.

(** C10 at a call: what is raised is a NameError. *)
Definition C10_as_stated (inp : Args) (w : World) : Prop :=
  exists w' e, ParseAndRun.buildVars inp w = (w', Raise e) /\ is_NameError e = true.

End Vocabulary.

(** * Properties of the scripts *)

(** ** Reasoning about the monad *)

Section Monad_facts.
Context `{Ext : External}.

Lemma bind_Ok {A B} (c : M A) (k : A -> M B) w w' b :
  bind c k w = (w', Ok b) ->
  exists w1 a, c w = (w1, Ok a) /\ k a w1 = (w', Ok b).
Proof.
  unfold bind. destruct (c w) as [w1 [a | e]]; [eauto | discriminate].
Qed.

Lemma bind_Raise_l {A B} (c : M A) (k : A -> M B) w w1 e :
  c w = (w1, Raise e) -> bind c k w = (w1, Raise e).
Proof. intros E. unfold bind. now rewrite E. Qed.

Lemma bind_Ok_l {A B} (c : M A) (k : A -> M B) w w1 a :
  c w = (w1, Ok a) -> bind c k w = k a w1.
Proof. intros E. unfold bind. now rewrite E. Qed.

Lemma rbind_Ok {A B} (r : Res A) (k : A -> Res B) b :
  rbind r k = Ok b -> exists a, r = Ok a /\ k a = Ok b.
Proof. destruct r; simpl; [eauto | discriminate]. Qed.

Lemma ret_Ok {A} (a b : A) w w' : ret a w = (w', Ok b) -> w' = w /\ b = a.
Proof. unfold ret. intros [= -> ->]. auto. Qed.

Lemma lift_Ok {A} (r : Res A) w w' a : lift r w = (w', Ok a) -> w' = w /\ r = Ok a.
Proof. unfold lift. intros [= -> ->]. auto. Qed.

Lemma lib_Ok {A} fn (o : option A) w w' a :
  lib fn o w = (w', Ok a) -> w' = w /\ o = Some a.
Proof. unfold lib, lift. destruct o; intros [= -> ?]; subst; auto. Qed.

Lemma read_local_Ok {A} name (o : option A) w w' a :
  read_local name o w = (w', Ok a) -> w' = w /\ o = Some a.
Proof. unfold read_local, lift. destruct o; intros [= -> ?]; subst; auto. Qed.

Lemma emit_Ok e w w' u :
  emit e w = (w', Ok u) -> w' = {| fs := fs w; trace := trace w ++ [e] |}.
Proof. unfold emit. now intros [= <-]. Qed.

Lemma write_file_Ok p f w w' u :
  write_file p f w = (w', Ok u) ->
  w' = {| fs := <[p := f]> (fs w); trace := trace w ++ [EvWrite p f] |}.
Proof. unfold write_file. destruct (can_write p); [now intros [= <-] | discriminate]. Qed.

Lemma open_pdf_Ok p w w' u :
  open_pdf p w = (w', Ok u) ->
  w' = {| fs := <[p := FPdf]> (fs w); trace := trace w ++ [EvPdfOpen p] |}.
Proof. unfold open_pdf. destruct (can_write p); [now intros [= <-] | discriminate]. Qed.

Lemma get_fs_Ok w w' f : get_fs w = (w', Ok f) -> w' = w /\ f = fs w.
Proof. unfold get_fs. intros [= -> ->]. auto. Qed.

Lemma emits_ret P {A} (a : A) : emits P (ret a).
Proof. intros w. exists []. simpl. rewrite app_nil_r. auto. Qed.

Lemma emits_raise P {A} e : emits P (@raise _ _ A e).
Proof. intros w. exists []. simpl. rewrite app_nil_r. auto. Qed.

Lemma emits_lift P {A} (r : Res A) : emits P (lift r).
Proof. intros w. exists []. simpl. rewrite app_nil_r. auto. Qed.

Lemma emits_get_fs P : emits P get_fs.
Proof. intros w. exists []. simpl. rewrite app_nil_r. auto. Qed.

Lemma emits_emit (P : Event -> Prop) e : P e -> emits P (emit e).
Proof. intros He w. exists [e]. simpl. auto. Qed.

Lemma emits_write (P : Event -> Prop) p f : P (EvWrite p f) -> emits P (write_file p f).
Proof.
  intros He w. unfold write_file. destruct (can_write p); simpl.
  - exists [EvWrite p f]. auto.
  - exists []. rewrite app_nil_r. auto.
Qed.

Lemma emits_bind P {A B} (c : M A) (k : A -> M B) :
  emits P c -> (forall a, emits P (k a)) -> emits P (bind c k).
Proof.
  intros Hc Hk w. unfold bind. destruct (Hc w) as (t1 & E1 & F1).
  destruct (c w) as [w1 [a | e]]; simpl in *.
  - destruct (Hk a w1) as (t2 & E2 & F2). exists (t1 ++ t2)%list.
    rewrite E2, E1, <- app_assoc. split; [reflexivity | now apply Forall_app].
  - exists t1. auto.
Qed.

Lemma emits_weaken (P Q : Event -> Prop) {A} (c : M A) :
  (forall e, P e -> Q e) -> emits P c -> emits Q c.
Proof.
  intros HPQ Hc w. destruct (Hc w) as (t & E & F). exists t. split; [exact E |].
  eapply Forall_impl; eauto.
Qed.

End Monad_facts.

(** Splitting a successful run into its steps. *)
Ltac inv_M :=
  repeat match goal with
  | H : bind _ _ _ = (_, Ok _) |- _ =>
      apply bind_Ok in H; destruct H as (? & ? & ? & H)
  | H : ret _ _ = (_, Ok _) |- _ => apply ret_Ok in H; destruct H; subst
  | H : lift _ _ = (_, Ok _) |- _ => apply lift_Ok in H; destruct H; subst
  | H : lib _ _ _ = (_, Ok _) |- _ => apply lib_Ok in H; destruct H; subst
  | H : read_local _ _ _ = (_, Ok _) |- _ => apply read_local_Ok in H; destruct H; subst
  | H : emit _ _ = (_, Ok _) |- _ => apply emit_Ok in H; subst
  | H : print _ _ = (_, Ok _) |- _ => apply emit_Ok in H; subst
  | H : write_file _ _ _ = (_, Ok _) |- _ => apply write_file_Ok in H; subst
  | H : open_pdf _ _ = (_, Ok _) |- _ => apply open_pdf_Ok in H; subst
  | H : get_fs _ = (_, Ok _) |- _ => apply get_fs_Ok in H; destruct H; subst
  | H : raise _ _ = (_, Ok _) |- _ => discriminate H
  | H : rbind _ _ = Ok _ |- _ => apply rbind_Ok in H; destruct H as (? & ? & H)
  end.

(** Proving [emits P c] along the structure of [c]. *)
Ltac emits_step :=
  first
    [ apply emits_ret | apply emits_raise | apply emits_lift | apply emits_get_fs
    | apply emits_bind; [| intros ?]
    | apply emits_emit | apply emits_write ].

(** ** Configuration *)

Section Config_facts.
Context `{Ext : External}.

Lemma emits_print (P : Event -> Prop) s : P (EvPrint s) -> emits P (print s).
Proof. apply emits_emit. Qed.

Lemma is_print_EvPrint s : is_print (EvPrint s).
Proof. now exists s. Qed.

Lemma emits_when P b (c : M unit) : emits P c -> emits P (when b c).
Proof. intros Hc. destruct b; simpl; [exact Hc | apply emits_ret]. Qed.

Lemma ints_prints l : emits is_print (ints l).
Proof.
  induction l as [| x l IH]; simpl.
  - apply emits_ret.
  - destruct (py_int x); [| apply emits_raise].
    apply emits_bind; [exact IH | intros ?; apply emits_ret].
Qed.

Lemma grid_format_prints fmt : emits is_print (grid_format fmt).
Proof.
  unfold grid_format.
  destruct (2 <? length fmt)%nat.
  - apply emits_bind; [apply emits_print, is_print_EvPrint | intros ?; apply emits_ret].
  - destruct (length fmt =? 1)%nat.
    + destruct fmt; [apply emits_raise | apply emits_lift].
    + apply emits_bind; [apply ints_prints |].
      intros l. unfold unpack2. destruct l as [| a [| b [| c l]]];
        first [apply emits_ret | apply emits_raise].
Qed.

Lemma path_exists_Ok p w :
  path_exists p w = (w, Ok (match fs w !! p with Some _ => true | None => false end)).
Proof. reflexivity. Qed.

(** The warning about a missing manifest never raises and only prints. *)
Lemma warn_missing_total fdict w :
  exists w' t, warn_missing fdict w = (w', Ok tt)
               /\ trace w' = (trace w ++ t)%list /\ Forall is_print t /\ fs w' = fs w.
Proof.
  destruct fdict as [p |]; simpl.
  - unfold bind. rewrite path_exists_Ok.
    destruct (fs w !! p); simpl.
    + exists w, []. rewrite app_nil_r. auto.
    + eexists _, [_]. repeat split. repeat constructor. apply is_print_EvPrint.
  - exists w, []. rewrite app_nil_r. auto.
Qed.

(** In quiet mode [buildVars] stops at line 121 whenever it gets there. *)
Lemma buildVars_quiet_after_format inp w w1 g :
  a_quiet inp = true ->
  grid_format (a_fmt inp) w = (w1, Ok g) ->
  exists w' t, ParseAndRun.buildVars inp w = (w', Raise (UnboundLocalError "cut"))
               /\ trace w' = (trace w1 ++ t)%list /\ Forall is_print t.
Proof.
  intros Hq Hg. unfold ParseAndRun.buildVars. rewrite Hq.
  rewrite (bind_Ok_l _ _ _ _ _ Hg).
  destruct (warn_missing_total (manifest_path inp) w1) as (w2 & t & E & Et & Ft & _).
  rewrite (bind_Ok_l _ _ _ _ _ E).
  exists w2, t. auto.
Qed.

(** C10, as amended.  With the quiet flag set, parseAndRun's [buildVars]
    never returns a configuration: it raises before its return statement.
    Whenever the grid format resolves, what it raises is the NameError
    (an UnboundLocalError) for [cut], a local assigned only in the
    verbose-reporting branch; otherwise it is the error of the format
    resolution.  So a quiet run of [main] raises too, and everything it
    has done by then is printing: no image is opened, no file written. *)
Theorem quiet_buildVars_never_returns (inp : Args) (w : World) :
  a_quiet inp = true ->
  (exists w' e, ParseAndRun.buildVars inp w = (w', Raise e)) /\
  (forall w1 g, grid_format (a_fmt inp) w = (w1, Ok g) ->
     exists w', ParseAndRun.buildVars inp w = (w', Raise (UnboundLocalError "cut"))) /\
  (forall w1 e, grid_format (a_fmt inp) w = (w1, Raise e) ->
     ParseAndRun.buildVars inp w = (w1, Raise e)) /\
  (forall fuel, exists w' e t,
     ParseAndRun.main fuel inp w = (w', Raise e)
     /\ trace w' = (trace w ++ t)%list /\ Forall is_print t).
Proof.
  intros Hq.
  assert (Hb : forall w0, exists w' e t,
             ParseAndRun.buildVars inp w0 = (w', Raise e)
             /\ trace w' = (trace w0 ++ t)%list /\ Forall is_print t).
  { intros w0. destruct (grid_format_prints (a_fmt inp) w0) as (t0 & E0 & F0).
    destruct (grid_format (a_fmt inp) w0) as [w1 [g | e]] eqn:Hg; simpl in E0.
    - destruct (buildVars_quiet_after_format inp w0 w1 g Hq Hg) as (w' & t & E & Et & Ft).
      exists w', (UnboundLocalError "cut"), (t0 ++ t)%list.
      rewrite Et, E0, <- app_assoc. split; [exact E |]. split; [reflexivity |].
      now apply Forall_app.
    - exists w1, e, t0. split; [| auto].
      unfold ParseAndRun.buildVars. now rewrite (bind_Raise_l _ _ _ _ _ Hg). }
  split; [| split; [| split]].
  - destruct (Hb w) as (w' & e & _ & E & _). eauto.
  - intros w1 g Hg.
    destruct (buildVars_quiet_after_format inp w w1 g Hq Hg) as (w' & _ & E & _). eauto.
  - intros w1 e Hg. unfold ParseAndRun.buildVars. now rewrite (bind_Raise_l _ _ _ _ _ Hg).
  - intros fuel. unfold ParseAndRun.main.
    set (wp := {| fs := fs w; trace := (trace w ++ [EvPrint ("Colonyzer " ++ c2_version)%string])%list |}).
    destruct (Hb wp) as (w' & e & t & E & Et & Ft).
    exists w', e, (EvPrint ("Colonyzer " ++ c2_version)%string :: t).
    split; [| split].
    + unfold bind at 1. simpl. fold wp. now rewrite (bind_Raise_l _ _ _ _ _ E).
    + rewrite Et. simpl. now rewrite <- app_assoc.
    + constructor; [apply is_print_EvPrint | exact Ft].
Qed.

End Config_facts.

(** ** Effects of successful runs *)

Section Effects.
Context `{Ext : External}.

Lemma opens_app t1 t2 : opens (t1 ++ t2) = (opens t1 ++ opens t2)%list.
Proof. apply omap_app. Qed.
Lemma writes_app t1 t2 : writes (t1 ++ t2) = (writes t1 ++ writes t2)%list.
Proof. apply omap_app. Qed.
Lemma autos_app t1 t2 : autos (t1 ++ t2) = (autos t1 ++ autos t2)%list.
Proof. apply omap_app. Qed.

Lemma effects_refl w : effects w w [].
Proof. split; simpl; [now rewrite app_nil_r | reflexivity]. Qed.

Lemma effects_trans w w1 w2 t1 t2 :
  effects w w1 t1 -> effects w1 w2 t2 -> effects w w2 (t1 ++ t2).
Proof.
  intros [E1 F1] [E2 F2]. split.
  - now rewrite E2, E1, <- app_assoc.
  - rewrite F2, F1, writes_app. unfold apply_writes. now rewrite fold_left_app.
Qed.

Lemma emit_effects e w w' u :
  writes [e] = [] -> emit e w = (w', Ok u) -> effects w w' [e].
Proof.
  intros Hw E. apply emit_Ok in E. subst w'. split; [reflexivity |].
  rewrite Hw. reflexivity.
Qed.

Lemma write_effects p f w w' u :
  write_file p f w = (w', Ok u) -> effects w w' [EvWrite p f].
Proof. intros E. apply write_file_Ok in E. subst w'. split; reflexivity. Qed.

Lemma open_pdf_effects p w w' u :
  open_pdf p w = (w', Ok u) -> effects w w' [EvPdfOpen p].
Proof. intros E. apply open_pdf_Ok in E. subst w'. split; reflexivity. Qed.

Lemma effects_fs_same w w' t : effects w w' t -> writes t = [] -> fs w' = fs w.
Proof. intros [_ F] Hw. now rewrite F, Hw. Qed.

(** A file that exists is still there after any writes. *)
Lemma apply_writes_is_Some ws f p :
  is_Some (f !! p) -> is_Some (apply_writes ws f !! p).
Proof.
  revert f. induction ws as [| [q c] ws IH]; intros f Hp; simpl; [exact Hp |].
  apply IH. destruct (decide (q = p)) as [-> | Hne].
  - rewrite lookup_insert_eq. eauto.
  - now rewrite lookup_insert_ne.
Qed.

Lemma apply_writes_app ws1 ws2 f :
  apply_writes (ws1 ++ ws2) f = apply_writes ws2 (apply_writes ws1 f).
Proof. unfold apply_writes. apply fold_left_app. Qed.

(** A file that was written exists. *)
Lemma applied_write_exists (ws : list (string * File)) (g : gmap string File) p f :
  In (p, f) ws -> is_Some (apply_writes ws g !! p).
Proof.
  revert g. induction ws as [| [q c] ws IH]; intros g Hin; simpl in *; [contradiction |].
  destruct Hin as [Heq | Hin]; [| now apply IH].
  injection Heq as -> ->. apply apply_writes_is_Some.
  rewrite lookup_insert_eq. eauto.
Qed.

End Effects.

(** Turning the steps of a successful run into [effects] facts. *)
Ltac inv_E :=
  repeat match goal with
  | H : bind _ _ _ = (_, Ok _) |- _ =>
      apply bind_Ok in H; destruct H as (? & ? & ? & H)
  | H : ret _ _ = (_, Ok _) |- _ => apply ret_Ok in H; destruct H; subst
  | H : lift _ _ = (_, Ok _) |- _ => apply lift_Ok in H; destruct H; subst
  | H : lib _ _ _ = (_, Ok _) |- _ => apply lib_Ok in H; destruct H; subst
  | H : read_local _ _ _ = (_, Ok _) |- _ => apply read_local_Ok in H; destruct H; subst
  | H : get_fs _ = (_, Ok _) |- _ => apply get_fs_Ok in H; destruct H; subst
  | H : emit _ _ = (_, Ok _) |- _ => apply emit_effects in H; [| reflexivity]
  | H : print _ _ = (_, Ok _) |- _ => apply emit_effects in H; [| reflexivity]
  | H : write_file _ _ _ = (_, Ok _) |- _ => apply write_effects in H
  | H : open_pdf _ _ = (_, Ok _) |- _ => apply open_pdf_effects in H
  | H : claim _ _ = (_, Ok _) |- _ => apply write_effects in H
  | H : raise _ _ = (_, Ok _) |- _ => discriminate H
  | H : when ?b _ _ = (_, Ok _) |- _ => destruct b; simpl in H
  end.

(** Composing the [effects] facts from the first world to the last. *)
Ltac chain :=
  first
    [ apply effects_refl
    | match goal with
      | E : effects ?w ?w1 ?t1 |- effects ?w _ _ =>
          eapply (effects_trans _ _ _ _ _ E); clear E; chain
      end ].

Ltac proj :=
  repeat rewrite ?opens_app, ?writes_app, ?autos_app; simpl.

(** The marker is among the writes [Hw] of a pass. *)
Ltac marker_in Hw :=
  rewrite Hw; first [now left | apply in_or_app; right; now left].

Section Run_facts.
Context `{Ext : External}.

Lemma for_each_Ok {A B} (body : A -> M B) (R : A -> B -> Prop)
    (fo : B -> list string) (fw : B -> list (string * File)) :
  (forall x w w' b, body x w = (w', Ok b) ->
     exists t, effects w w' t /\ opens t = fo b /\ writes t = fw b
               /\ autos t = [] /\ R x b) ->
  forall l w w' r, for_each body l w = (w', Ok r) ->
     exists t, effects w w' t /\ opens t = flat_map fo r /\ writes t = flat_map fw r
               /\ autos t = [] /\ Forall2 R l r.
Proof.
  intros Hbody l. induction l as [| x l IH]; intros w w' r E; simpl in E.
  - inv_E. exists []. repeat split; try reflexivity; [apply effects_refl | constructor].
  - inv_E.
    match goal with Hb : body _ _ = _ |- _ =>
      destruct (Hbody _ _ _ _ Hb) as (t1 & E1 & O1 & W1 & A1 & R1) end.
    match goal with Hf : for_each _ _ _ = _ |- _ =>
      destruct (IH _ _ _ Hf) as (t2 & E2 & O2 & W2 & A2 & R2) end.
    exists (t1 ++ t2)%list. split; [eapply effects_trans; eauto |].
    proj. rewrite O1, O2, W1, W2, A1, A2. repeat split; auto.
Qed.

Lemma prepareTimecourse_Ok d v w w' tc :
  prepareTimecourse d v w = (w', Ok tc) ->
  (exists t, effects w w' t /\ opens t = [] /\ writes t = [] /\ autos t = []) /\
  first_barcode d = Some (tc_BARCODE tc) /\
  d !! tc_BARCODE tc = Some (tc_IMs tc) /\
  head (tc_IMs tc) = Some (tc_LATESTIMAGE tc) /\
  last (tc_IMs tc) = Some (tc_EARLIESTIMAGE tc).
Proof.
  unfold prepareTimecourse. intros E.
  destruct (first_barcode d) as [B |] eqn:HB; [| discriminate].
  destruct (d !! B) as [IMs |] eqn:HI; [| discriminate].
  destruct (head IMs) as [L |] eqn:HL; [| discriminate].
  destruct (last IMs) as [Ea |] eqn:HE; [| discriminate].
  inv_E; simpl; (split; [eexists; split; [chain | proj; auto] | auto]).
Qed.

Lemma zip_ones_lt (r : list num) (r' : list num) (t : num) :
  length r = length r' ->
  zip_with (fun (x c : bool) => if c then false else x)
           (map (fun _ : num => true) r) (map (fun p => num_ltb p t) r')
  = map (fun p => negb (num_ltb p t)) r'.
Proof.
  revert r'. induction r as [| x r IH]; intros [| y r'] Hl; simpl in *;
    try discriminate; try reflexivity.
  f_equal. apply IH. congruence.
Qed.

(** [m = ones(a.shape); m[c < t] = False] compares [c], and only [c],
    with [t]. *)
Lemma set_false_ones (a c : arr) (t : num) (m : mask_t) :
  set_false (ones_like a) (lt_mask c t) = Ok m -> m = not_below c t.
Proof.
  unfold set_false, same_shape, shape_of, ones_like, lt_mask, not_below.
  case_bool_decide as Hs; [| discriminate]. intros [= <-].
  rewrite !map_map in Hs. revert c Hs.
  induction a as [| r a IH]; intros [| r' c] Hs; simpl in *;
    try discriminate; try reflexivity.
  injection Hs as Hr Ha. rewrite !length_map in Hr.
  f_equal; [now apply zip_ones_lt | now apply IH].
Qed.

Lemma loadLocationGuesses_Ok IMAGE ins w w' g :
  loadLocationGuesses IMAGE ins w = (w', Ok g) -> w' = w.
Proof.
  unfold loadLocationGuesses. intros E.
  repeat match type of E with
         | context [match ?x with _ => _ end] => destruct x
         end; inv_E; auto.
Qed.

End Run_facts.

(** ** A successful pass of parseAndRun.py over one barcode *)

Section ParseAndRun_facts.
Context `{Ext : External}.

Lemma parse_choose_threshold_Ok cfg B trimmed w w' th :
  ParseAndRun.choose_threshold cfg B trimmed w = (w', Ok th) ->
  exists t, effects w w' t /\ opens t = [] /\ writes t = [] /\
    autos t = (if num_geb (cfg_fixedThresh cfg) (num_of_Z 0) then [] else [B]) /\
    (if num_geb (cfg_fixedThresh cfg) (num_of_Z 0)
     then th = cfg_fixedThresh cfg
     else exists tb, automaticThreshold trimmed = Some tb /\ th = fst tb).
Proof.
  unfold ParseAndRun.choose_threshold. intros E.
  destruct (num_geb (cfg_fixedThresh cfg) (num_of_Z 0)).
  - inv_E. exists []. repeat split; auto. apply effects_refl.
  - inv_E; (eexists; split; [chain | proj; repeat split; eauto]).
Qed.

Lemma parse_correction_model_Ok cfg arrN arr0 locs w w' m :
  ParseAndRun.correction_model cfg arrN arr0 locs w = (w', Ok m) ->
  (exists t, effects w w' t /\ opens t = [] /\ writes t = [] /\ autos t = []) /\
  (if cfg_lc cfg
   then cfg_cut cfg = false /\
        exists cm ab c, makeCorrectionMap arr0 locs = Some (cm, ab)
                        /\ arr_mul arrN cm = Ok c
                        /\ m = (Some cm, Some ab, Some c)
   else exists ab, grid_mean arr0 locs = Ok ab /\ m = (None, Some ab, Some arrN)).
Proof.
  unfold ParseAndRun.correction_model, edgeFill. intros E.
  destruct (cfg_lc cfg); [destruct (cfg_cut cfg) |].
  - inv_E.
  - inv_E. split; [eexists; split; [chain | proj; auto] |].
    split; [reflexivity |].
    match goal with Hm : makeCorrectionMap _ _ = Some ?x |- _ => destruct x as [cm ab] end.
    simpl in *. eauto 10.
  - inv_E. split; [exists []; repeat split; auto; apply effects_refl | eauto].
Qed.

Lemma parse_image_step_Ok cfg B locs dx dy candx candy arrN cmap ab corrected th maskN F
    w w' il :
  ParseAndRun.image_step cfg B locs dx dy candx candy arrN cmap ab corrected th maskN F w
    = (w', Ok il) ->
  exists t, effects w w' t /\ opens t = [il_file il] /\ writes t = image_writes dx dy il
            /\ autos t = [] /\ parse_image_facts cfg corrected th cmap F il.
Proof.
  unfold ParseAndRun.image_step, write_results. intros E.
  apply bind_Ok in E. destruct E as (w1 & u1 & E1 & E).
  apply bind_Ok in E. destruct E as (w2 & ia & E2 & E).
  apply bind_Ok in E. destruct E as (w3 & arr1 & E3 & E).
  apply bind_Ok in E. destruct E as (w4 & adj & E4 & E).
  assert (F3 : w3 = w2 /\
               if cfg_lc cfg
               then exists cm, cmap = Some cm /\ arr_mul (snd ia) cm = Ok arr1
               else arr1 = snd ia).
  { destruct (cfg_lc cfg); inv_E; eauto. }
  destruct F3 as [-> F3].
  assert (F4 : w4 = w2 /\ (cfg_diffims cfg = false -> adj = (arr1, th))).
  { destruct (cfg_diffims cfg); inv_E; split; auto; discriminate. }
  destruct F4 as [-> F4].
  clear E3 E4.
  destruct candx as [| cx candx]; destruct candy as [| cy candy];
    inv_E;
    match goal with Hs : set_false _ _ = Ok _ |- _ => apply set_false_ones in Hs end;
    (eexists; split; [chain | proj; repeat split; auto]).
  all: match goal with Hd : cfg_diffims _ = false |- _ => specialize (F4 Hd) end;
    subst adj; simpl;
    first [ reflexivity
          | destruct ia as [im raw]; exists im, raw; split; [assumption | exact F3] ].
Qed.

Lemma parse_analyse_barcode_Ok cfg d w w' b :
  ParseAndRun.analyse_barcode cfg d w = (w', Ok b) ->
  exists t, effects w w' t /\ parse_batch_facts cfg d b t.
Proof.
  unfold ParseAndRun.analyse_barcode. intros E.
  apply bind_Ok in E. destruct E as (w1 & tc & Etc & E).
  apply prepareTimecourse_Ok in Etc.
  destruct Etc as ((t1 & Ef1 & O1 & W1 & A1) & Hfb & Hd & Hhd & Hla).
  apply bind_Ok in E. destruct E as (w2 & u2 & Epdf & E).
  apply bind_Ok in E. destruct E as (w3 & u3 & Ecl & E).
  apply bind_Ok in E. destruct E as (w4 & u4 & Eop & E).
  apply bind_Ok in E. destruct E as (w5 & imarrN & EN & E).
  apply bind_Ok in E. destruct E as (w6 & imarr0 & E0 & E).
  apply bind_Ok in E. destruct E as (w7 & guess & Eg & E).
  apply bind_Ok in E. destruct E as (w7x & cornersx & Ecx & E).
  apply bind_Ok in E. destruct E as (w7y & cornersy & Ecy & E).
  apply bind_Ok in E. destruct E as (w8 & u8 & Elc & E).
  apply bind_Ok in E. destruct E as (w9 & locs & Eloc & E).
  apply bind_Ok in E. destruct E as (w10 & model & Em & E).
  apply parse_correction_model_Ok in Em.
  destruct Em as ((t10 & Ef10 & O10 & W10 & A10) & Hm).
  apply bind_Ok in E. destruct E as (w11 & corrected & Ecor & E).
  apply bind_Ok in E. destruct E as (w12 & trimmed & Etr & E).
  apply bind_Ok in E. destruct E as (w13 & th & Eth & E).
  apply parse_choose_threshold_Ok in Eth.
  destruct Eth as (t13 & Ef13 & O13 & W13 & A13 & Hth).
  apply bind_Ok in E. destruct E as (w14 & maskN & Emk & E).
  apply bind_Ok in E. destruct E as (w15 & images & Eim & E).
  apply (for_each_Ok _ _ _ _ (parse_image_step_Ok _ _ _ _ _ _ _ _ _ _ _ _ _)) in Eim.
  destruct Eim as (t15 & Ef15 & O15 & W15 & A15 & Him).
  apply bind_Ok in E. destruct E as (w16 & u16 & Efin & E).
  assert (Hpdf : exists t2, effects w1 w2 t2 /\ opens t2 = [] /\ autos t2 = [] /\
             writes t2 = if cfg_plots cfg
                         then [(pdf_path (tc_EARLIESTIMAGE tc), FPdf)] else []).
  { clear - Epdf. inv_E; [eexists; split; [eassumption | auto] |].
    exists []. split; [apply effects_refl | auto]. }
  destruct Hpdf as (t2 & Ef2 & O2 & A2 & W2).
  assert (H0 : exists t6, effects w5 w6 t6 /\ writes t6 = [] /\ autos t6 = [] /\
            opens t6 = (if String.eqb (tc_LATESTIMAGE tc) (tc_EARLIESTIMAGE tc)
                        then [] else [tc_EARLIESTIMAGE tc]) /\
            (if String.eqb (tc_LATESTIMAGE tc) (tc_EARLIESTIMAGE tc)
             then imarr0 = imarrN
             else openImage (tc_EARLIESTIMAGE tc) = Some imarr0)).
  { clear - E0. destruct (String.eqb (tc_LATESTIMAGE tc) (tc_EARLIESTIMAGE tc)); inv_E.
    - exists []. split; [apply effects_refl | auto].
    - eexists. split; [eassumption | auto]. }
  destruct H0 as (t6 & Ef6 & W6 & A6 & O6 & Harr0).
  assert (Hg : exists t7, effects w6 w7 t7 /\ opens t7 = [] /\ writes t7 = [] /\ autos t7 = []).
  { clear - Eg. destruct (cfg_initpos cfg).
    - apply loadLocationGuesses_Ok in Eg. subst w7.
      exists []. split; [apply effects_refl | auto].
    - inv_E. eexists. split; [eassumption | auto]. }
  destruct Hg as (t7 & Ef7 & O7 & W7 & A7).
  assert (Hfin : exists t16, effects w15 w16 t16 /\ opens t16 = [] /\ writes t16 = [] /\ autos t16 = []).
  { clear - Efin. inv_E; [eexists; split; [eassumption | auto] |].
    exists []. split; [apply effects_refl | auto]. }
  destruct Hfin as (t16 & Ef16 & O16 & W16 & A16).
  clear Epdf E0 Eg Efin.
  inv_E.
  match goal with Hs : set_false _ _ = Ok _ |- _ => apply set_false_ones in Hs end.
  eexists. split; [chain |].
  unfold parse_batch_facts.
  rewrite ?opens_app, ?writes_app, ?autos_app.
  rewrite O1, O2, O6, O7, O10, O13, O15, O16, W1, W2, W6, W7, W10, W13, W15, W16,
    A1, A2, A6, A7, A10, A13, A15, A16.
  simpl. rewrite !app_nil_r.
  assert (Hfm : forall l : list ImageLog,
             flat_map (fun il => [il_file il]) l = map il_file l).
  { clear. induction l; simpl; congruence. }
  rewrite Hfm.
  destruct imarrN as [imN arrN]. destruct imarr0 as [im0 arr0]. simpl in *.
  assert (Hcor : if cfg_lc cfg
                 then cfg_cut cfg = false /\
                      exists cm ab, makeCorrectionMap arr0 locs = Some (cm, ab)
                                    /\ fst (fst model) = Some cm
                                    /\ arr_mul arrN cm = Ok corrected
                 else corrected = arrN /\ fst (fst model) = None).
  { destruct (cfg_lc cfg).
    - destruct Hm as (Hc & cm & ab & c & Hmk & Hmul & ->). simpl in *.
      split; [exact Hc |]. exists cm, ab. repeat split; congruence.
    - destruct Hm as (ab & Hgm & ->). simpl in *. split; congruence. }
  assert (Ha0 : if String.eqb (tc_LATESTIMAGE tc) (tc_EARLIESTIMAGE tc)
                then arr0 = arrN
                else exists im, openImage (tc_EARLIESTIMAGE tc) = Some (im, arr0)).
  { destruct (String.eqb (tc_LATESTIMAGE tc) (tc_EARLIESTIMAGE tc)); [congruence | eauto]. }
  repeat split; eauto.
Qed.

End ParseAndRun_facts.

(** ** A successful pass of timecourse_fixedpos.py over one barcode *)

Section Fixedpos_facts.
Context `{Ext : External}.

Lemma fixedpos_choose_threshold_Ok cfg B trimmed w w' th :
  TimecourseFixedpos.choose_threshold cfg B trimmed w = (w', Ok th) ->
  exists t, effects w w' t /\ opens t = [] /\
    writes t = (if num_geb (cfg_fixedThresh cfg) (num_of_Z 0) then []
                else if cfg_plots cfg
                     then [((B ++ "_HistogramReport.pdf")%string, FPdf)] else []) /\
    autos t = (if num_geb (cfg_fixedThresh cfg) (num_of_Z 0) then [] else [B]) /\
    (if num_geb (cfg_fixedThresh cfg) (num_of_Z 0)
     then th = cfg_fixedThresh cfg
     else exists tb, automaticThreshold trimmed = Some tb /\ th = fst tb).
Proof.
  unfold TimecourseFixedpos.choose_threshold. intros E.
  destruct (num_geb (cfg_fixedThresh cfg) (num_of_Z 0)).
  - inv_E. exists []. repeat split; auto. apply effects_refl.
  - destruct (cfg_plots cfg); inv_E;
      (eexists; split; [chain | rewrite ?opens_app, ?writes_app, ?autos_app;
                                 simpl; repeat split; eauto]).
Qed.

Lemma fixedpos_image_step_Ok cfg B locs dx dy arrN cm ab th maskN F w w' il :
  TimecourseFixedpos.image_step cfg B locs dx dy arrN cm ab th maskN F w = (w', Ok il) ->
  exists t, effects w w' t /\ opens t = [il_file il] /\ writes t = image_writes dx dy il
            /\ autos t = [] /\ fixedpos_image_facts cfg arrN th cm F il.
Proof.
  unfold TimecourseFixedpos.image_step, write_results. intros E.
  apply bind_Ok in E. destruct E as (w1 & u1 & E1 & E).
  apply bind_Ok in E. destruct E as (w2 & ia & E2 & E).
  apply bind_Ok in E. destruct E as (w3 & arr1 & E3 & E).
  assert (F3 : w3 = w2 /\
               if cfg_lc cfg then arr_mul (snd ia) cm = Ok arr1 else arr1 = snd ia).
  { clear - E3. destruct (cfg_lc cfg); inv_E; eauto. }
  destruct F3 as [-> F3]. clear E3.
  inv_E.
  match goal with Hs : set_false _ _ = Ok _ |- _ => apply set_false_ones in Hs end.
  eexists. split; [chain |].
  rewrite ?opens_app, ?writes_app, ?autos_app. simpl.
  unfold fixedpos_image_facts. simpl.
  destruct ia as [im raw]. repeat split; eauto.
Qed.

Lemma fixedpos_analyse_barcode_Ok cfg d w w' b :
  TimecourseFixedpos.analyse_barcode cfg d w = (w', Ok b) ->
  exists t, effects w w' t /\ fixedpos_batch_facts cfg d b t.
Proof.
  unfold TimecourseFixedpos.analyse_barcode. intros E.
  apply bind_Ok in E. destruct E as (w1 & tc & Etc & E).
  apply prepareTimecourse_Ok in Etc.
  destruct Etc as ((t1 & Ef1 & O1 & W1 & A1) & Hfb & Hd & Hhd & Hla).
  apply bind_Ok in E. destruct E as (w3 & u3 & Ecl & E).
  apply bind_Ok in E. destruct E as (w4 & u4 & Eop & E).
  apply bind_Ok in E. destruct E as (w5 & imarrN & EN & E).
  apply bind_Ok in E. destruct E as (w5' & u5 & Eop0 & E).
  apply bind_Ok in E. destruct E as (w6 & imarr0 & E0 & E).
  apply bind_Ok in E. destruct E as (w7 & guess & Eg & E).
  apply bind_Ok in E. destruct E as (w7x & cornersx & Ecx & E).
  apply bind_Ok in E. destruct E as (w7y & cornersy & Ecy & E).
  apply bind_Ok in E. destruct E as (w8 & u8 & Elc & E).
  apply bind_Ok in E. destruct E as (w9 & locs & Eloc & E).
  apply bind_Ok in E. destruct E as (w10 & u10 & Ecm & E).
  apply bind_Ok in E. destruct E as (w11 & cmab & Emk & E).
  apply bind_Ok in E. destruct E as (w12 & corrected & Ecor & E).
  apply bind_Ok in E. destruct E as (w13 & trimmed & Etr & E).
  apply bind_Ok in E. destruct E as (w14 & th & Eth & E).
  apply fixedpos_choose_threshold_Ok in Eth.
  destruct Eth as (t14 & Ef14 & O14 & W14 & A14 & Hth).
  apply bind_Ok in E. destruct E as (w15 & maskN & Emk' & E).
  apply bind_Ok in E. destruct E as (w16 & images & Eim & E).
  apply (for_each_Ok _ _ _ _ (fixedpos_image_step_Ok _ _ _ _ _ _ _ _ _ _)) in Eim.
  destruct Eim as (t16 & Ef16 & O16 & W16 & A16 & Him).
  assert (Hg : exists t7, effects w6 w7 t7 /\ opens t7 = [] /\ writes t7 = [] /\ autos t7 = []).
  { clear - Eg. destruct (cfg_initpos cfg).
    - apply loadLocationGuesses_Ok in Eg. subst w7.
      exists []. split; [apply effects_refl | auto].
    - inv_E. eexists. split; [eassumption | auto]. }
  destruct Hg as (t7 & Ef7 & O7 & W7 & A7).
  clear Eg.
  inv_E.
  match goal with Hs : set_false _ _ = Ok _ |- _ => apply set_false_ones in Hs end.
  eexists. split; [chain |].
  unfold fixedpos_batch_facts.
  rewrite ?opens_app, ?writes_app, ?autos_app.
  rewrite O1, O7, O14, O16, W1, W7, W14, W16, A1, A7, A14, A16.
  simpl. rewrite !app_nil_r.
  assert (Hfm : forall l : list ImageLog,
             flat_map (fun il => [il_file il]) l = map il_file l).
  { clear. induction l; simpl; congruence. }
  rewrite Hfm.
  destruct imarrN as [imN arrN]. destruct imarr0 as [im0 arr0].
  destruct cmab as [cm ab]. simpl in *.
  repeat split; eauto 10.
Qed.

End Fixedpos_facts.

(** ** Concrete runs for the quiet mode *)

Section Quiet_runs.
Import Demo.

Lemma quiet_buildVars_never_returns_witness :
  a_quiet args_quiet = true /\
  exists w', ParseAndRun.buildVars args_quiet w0 = (w', Raise (UnboundLocalError "cut")).
Proof.
  split; [reflexivity |].
  destruct (quiet_buildVars_never_returns args_quiet w0 eq_refl) as (_ & Hcut & _).
  apply (Hcut w0 (2, 2)). reflexivity.
Defined.

(** C10 as stated fails at [-q -o a b]: [int("a")] raises ValueError
    before the result dictionary is built. *)
Lemma quiet_non_integer_format_raises_ValueError :
  ~ C10_as_stated args_quiet_ab w0.
Proof.
  intros (w' & e & E & Hn).
  assert (Hrun : ParseAndRun.buildVars args_quiet_ab w0 = (w0, Raise (ValueError "int")))
    by reflexivity.
  rewrite Hrun in E. injection E as _ <-. discriminate Hn.
Qed.

End Quiet_runs.

(** ** The barcode index and the work claim *)

Section Index_facts.
Context `{Ext : External}.

Lemma drop_started_Ok d w w' d' :
  drop_started d w = (w', Ok d') ->
  w' = w /\ d' = filter (fun kv => unclaimed (fs w) (snd kv) = true) d.
Proof.
  unfold drop_started. intros E. apply bind_Ok in E.
  destruct E as (w1 & f & Ef & E). apply get_fs_Ok in Ef. destruct Ef as [-> ->].
  destruct (existsb _ _); [discriminate |]. apply ret_Ok in E. destruct E. auto.
Qed.

(** A batch that a filtered index keeps has no LockMarker. *)
Lemma kept_batch_unmarked (f : gmap string File) (d : Index) b ims e :
  filter (fun kv => unclaimed f (snd kv) = true) d !! b = Some ims ->
  last ims = Some e ->
  d !! b = Some ims /\ f !! out_path e = None.
Proof.
  intros Hl He. apply map_lookup_filter_Some in Hl. destruct Hl as [Hd Hu].
  split; [exact Hd |]. simpl in Hu. unfold unclaimed, checkAnalysisStarted in Hu.
  rewrite He in Hu. destruct (f !! out_path e); [discriminate | reflexivity].
Qed.

(** A batch whose LockMarker exists is not kept. *)
Lemma marked_batch_dropped (f : gmap string File) (d : Index) b ims e :
  d !! b = Some ims -> last ims = Some e -> is_Some (f !! out_path e) ->
  filter (fun kv => unclaimed f (snd kv) = true) d !! b = None.
Proof.
  intros Hd He Hm.
  destruct (filter _ d !! b) as [ims' |] eqn:Hl; [| reflexivity].
  assert (Hd' : d !! b = Some ims') by (apply map_lookup_filter_Some in Hl; tauto).
  assert (ims' = ims) by congruence. subst ims'.
  destruct (kept_batch_unmarked _ _ _ _ _ Hl He) as [_ Hn].
  rewrite Hn in Hm. destruct Hm. discriminate.
Qed.

(** C9 (spec-modelled).  A fresh index build never includes a barcode
    whose LockMarker exists: every batch of the index that [checkImages]
    returns has no marker for its earliest image; a barcode of the
    manifest, or of the directory scan, whose marker exists is absent from
    the index; and the same holds for the index that [main] rebuilds after
    each batch. *)
Theorem index_excludes_claimed (fdir : string) (fdict : option string)
    (w w' : World) (d : Index) :
  checkImages fdir fdict w = (w', Ok d) ->
  (forall b ims e, d !! b = Some ims -> last ims = Some e ->
     fs w !! out_path e = None) /\
  (forall p m b ims e,
     fdict = Some p -> fs w !! p = Some (FManifest m) ->
     m !! b = Some ims -> last ims = Some e ->
     is_Some (fs w !! out_path e) -> d !! b = None) /\
  (forall b ims e,
     fdict = None ->
     group_images (0, -24) (listImages fdir) !! b = Some ims -> last ims = Some e ->
     is_Some (fs w !! out_path e) -> d !! b = None) /\
  (forall d0 w1 w2 d1 b ims e,
     drop_started d0 w1 = (w2, Ok d1) ->
     d0 !! b = Some ims -> last ims = Some e ->
     is_Some (fs w1 !! out_path e) -> d1 !! b = None).
Proof.
  intros E.
  assert (Hd : exists d0, d = filter (fun kv => unclaimed (fs w) (snd kv) = true) d0 /\
                 match fdict with
                 | Some p => fs w !! p = Some (FManifest d0)
                 | None => d0 = group_images (0, -24) (listImages fdir)
                 end).
  { unfold checkImages in E. destruct fdict as [p |].
    - apply bind_Ok in E. destruct E as (w1 & f & Ef & E).
      apply get_fs_Ok in Ef. destruct Ef as [-> ->].
      destruct (fs w !! p) as [[| | | | m | |] |] eqn:Hp; try discriminate.
      apply drop_started_Ok in E. destruct E as [_ ->]. eauto.
    - apply bind_Ok in E. destruct E as (w1 & u & Ee & E).
      apply emit_Ok in Ee. subst w1.
      apply bind_Ok in E. destruct E as (w1 & f & Ef & E).
      apply get_fs_Ok in Ef. destruct Ef as [-> ->].
      apply lift_Ok in E. destruct E as [_ E]. unfold getBarcodes in E.
      destruct (dir_readable fdir); [| discriminate]. injection E as <-.
      simpl. unfold found_barcodes. eauto. }
  destruct Hd as (d0 & -> & Hsrc).
  repeat split.
  - intros b ims e Hl He. eapply kept_batch_unmarked; eauto.
  - intros p m b ims e -> Hp Hm He Hmk. rewrite Hp in Hsrc. injection Hsrc as <-.
    eapply marked_batch_dropped; eauto.
  - intros b ims e -> Hg He Hmk. subst d0. eapply marked_batch_dropped; eauto.
  - intros d1 w1 w2 d2 b ims e Ed Hl He Hmk.
    apply drop_started_Ok in Ed. destruct Ed as [_ ->].
    eapply marked_batch_dropped; eauto.
Qed.

(** The claim depends on the operating system only. *)
Lemma claim_eq e w :
  claim e w
  = if can_write (out_path e)
    then ({| fs := <[out_path e := FEmpty]> (fs w);
             trace := (trace w ++ [EvWrite (out_path e) FEmpty])%list |}, Ok tt)
    else (w, Raise (IOError (out_path e))).
Proof. reflexivity. Qed.

(** After the writes of a pass, the marker of the batch exists. *)
Lemma marker_exists_after w w' t e :
  effects w w' t -> In (out_path e, FEmpty) (writes t) ->
  is_Some (fs w' !! out_path e).
Proof. intros [_ Hf] Hin. rewrite Hf. eapply applied_write_exists; eauto. Qed.


End Index_facts.
(** ** Concrete runs for the index and the claim *)

Section Index_runs.
Import Demo.

Lemma result_Ok {A} (c : M A) w w' a : c w = (w', Ok a) -> result (c w) = Some a.
Proof. intros E. unfold result. now rewrite E. Qed.

Lemma result_Some {A} (c : M A) w a :
  result (c w) = Some a -> c w = (fst (c w), Ok a).
Proof.
  unfold result. destruct (c w) as [w' [x | e]]; simpl; [| discriminate].
  now intros [= ->].
Qed.

Lemma index_excludes_claimed_witness :
  checkImages "d" None w_claimed
    = ({| fs := fs w_claimed; trace := [EvCall "getBarcodes"] |},
       Ok (found_barcodes (fs w_claimed) "d" (0, -24)))
  /\ found_barcodes (fs w_claimed) "d" (0, -24) !! "P2" = None.
Proof.
  assert (E : checkImages "d" None w_claimed
              = ({| fs := fs w_claimed; trace := [EvCall "getBarcodes"] |},
                 Ok (found_barcodes (fs w_claimed) "d" (0, -24)))) by reflexivity.
  split; [exact E |].
  destruct (index_excludes_claimed _ _ _ _ _ E) as (_ & _ & Hscan & _).
  apply (Hscan "P2" [im_P2] im_P2); try reflexivity.
  eexists. reflexivity.
Defined.



End Index_runs.
(** ** What a run does, whatever its outcome *)

Section Acts.
Context `{Ext : External}.

Lemma acts_pure (P : Event -> Prop) {A} (c : M A) :
  (forall w, fst (c w) = w) -> acts P c.
Proof.
  intros Hc w. exists []. rewrite Hc. split; [apply effects_refl | constructor].
Qed.

Lemma acts_ret P {A} (a : A) : acts P (ret a).
Proof. now apply acts_pure. Qed.

Lemma acts_raise P {A} e : acts P (@raise _ _ A e).
Proof. now apply acts_pure. Qed.

Lemma acts_lift P {A} (r : Res A) : acts P (lift r).
Proof. now apply acts_pure. Qed.

Lemma acts_get_fs P : acts P get_fs.
Proof. now apply acts_pure. Qed.

Lemma acts_emit (P : Event -> Prop) e : writes [e] = [] -> P e -> acts P (emit e).
Proof.
  intros Hw He w. exists [e]. split; [| now repeat constructor].
  now apply (emit_effects e w _ tt).
Qed.

Lemma acts_write (P : Event -> Prop) p f : P (EvWrite p f) -> acts P (write_file p f).
Proof.
  intros He w. unfold write_file. destruct (can_write p); simpl.
  - exists [EvWrite p f]. split; [split; reflexivity | now repeat constructor].
  - exists []. split; [apply effects_refl | constructor].
Qed.

Lemma acts_open_pdf (P : Event -> Prop) p : P (EvPdfOpen p) -> acts P (open_pdf p).
Proof.
  intros He w. unfold open_pdf. destruct (can_write p); simpl.
  - exists [EvPdfOpen p]. split; [split; reflexivity | now repeat constructor].
  - exists []. split; [apply effects_refl | constructor].
Qed.

Lemma acts_bind P {A B} (c : M A) (k : A -> M B) :
  acts P c -> (forall a, acts P (k a)) -> acts P (bind c k).
Proof.
  intros Hc Hk w. unfold bind. destruct (Hc w) as (t1 & E1 & F1).
  destruct (c w) as [w1 [a | e]]; simpl in *.
  - destruct (Hk a w1) as (t2 & E2 & F2). exists (t1 ++ t2)%list.
    split; [eapply effects_trans; eauto | now apply Forall_app].
  - exists t1. auto.
Qed.

Lemma acts_when P b (c : M unit) : acts P c -> acts P (when b c).
Proof. intros Hc. destruct b; simpl; [exact Hc | apply acts_ret]. Qed.

Lemma acts_weaken (P Q : Event -> Prop) {A} (c : M A) :
  (forall e, P e -> Q e) -> acts P c -> acts Q c.
Proof.
  intros HPQ Hc w. destruct (Hc w) as (t & E & F). exists t. split; [exact E |].
  eapply Forall_impl; eauto.
Qed.

Lemma acts_for_each P {A B} (body : A -> M B) l :
  (forall x, acts P (body x)) -> acts P (for_each body l).
Proof.
  intros Hb. induction l as [| x l IH]; simpl.
  - apply acts_ret.
  - apply acts_bind; [apply Hb | intros ?].
    apply acts_bind; [exact IH | intros ?; apply acts_ret].
Qed.

(** The outcome of a run that [acts]. *)
Lemma acts_run P {A} (c : M A) w w' r :
  acts P c -> c w = (w', r) -> exists t, effects w w' t /\ Forall P t.
Proof. intros Hc E. specialize (Hc w). now rewrite E in Hc. Qed.

Lemma silent_projections t :
  Forall silent t -> opens t = [] /\ writes t = [] /\ autos t = [].
Proof.
  induction 1 as [| e t He _ (IHo & IHw & IHa)]; [auto |].
  destruct e; simpl in *; try contradiction; auto.
Qed.

Lemma is_print_silent e : is_print e -> silent e.
Proof. intros [s ->]. exact I. Qed.

(** Nothing that a run does removes a file. *)
Lemma effects_keeps_files w w' t p :
  effects w w' t -> is_Some (fs w !! p) -> is_Some (fs w' !! p).
Proof. intros [_ ->]. apply apply_writes_is_Some. Qed.

End Acts.

(** Proving [acts P c] along the structure of [c]. *)
Ltac acts_event :=
  first [ exact I | apply is_print_EvPrint | reflexivity | solve [simpl; eauto 7] | eauto ].

Ltac acts_auto :=
  repeat first
    [ assumption | apply acts_ret | apply acts_raise | apply acts_lift | apply acts_get_fs
    | apply acts_emit; [reflexivity | acts_event]
    | apply acts_write; acts_event
    | apply acts_open_pdf; acts_event
    | apply acts_when
    | apply acts_for_each; intros ?
    | apply acts_bind; [| intros ?]
    | match goal with
      | IH : forall _, acts _ _ |- acts _ _ => apply IH
      | |- acts _ (if ?b then _ else _) => destruct b
      | |- acts _ (match ?x with _ => _ end) => destruct x
      end ].

Section Acts_scripts.
Context `{Ext : External}.

Lemma grid_format_acts fmt : acts is_print (grid_format fmt).
Proof.
  unfold grid_format.
  destruct (2 <? length fmt)%nat; [acts_auto |].
  destruct (length fmt =? 1)%nat; [destruct fmt; acts_auto |].
  apply acts_bind.
  - induction fmt as [| x l IH]; simpl; [apply acts_ret |].
    destruct (py_int x); acts_auto.
  - intros l. unfold unpack2. destruct l as [| a [| b [| c l]]]; acts_auto.
Qed.

Lemma warn_missing_acts fdict : acts is_print (warn_missing fdict).
Proof. unfold warn_missing, path_exists. acts_auto. Qed.

Lemma report_threshold_acts ft : acts is_print (report_threshold ft).
Proof. unfold report_threshold. acts_auto. Qed.

Lemma report_manifest_acts fdict : acts is_print (report_manifest fdict).
Proof. unfold report_manifest, path_exists. acts_auto. Qed.

Lemma parse_buildVars_acts inp : acts is_print (ParseAndRun.buildVars inp).
Proof.
  unfold ParseAndRun.buildVars, ParseAndRun.verbose_report.
  apply acts_bind; [apply grid_format_acts | intros g].
  apply acts_bind; [apply warn_missing_acts | intros ?].
  apply acts_bind; [| intros ?; acts_auto].
  destruct (a_quiet inp); [acts_auto |].
  apply acts_bind; [| intros ?; acts_auto].
  repeat (apply acts_bind; [| intros ?]);
    first [ apply report_threshold_acts | apply report_manifest_acts | acts_auto ].
Qed.

Lemma fixedpos_buildVars_acts verbose inp :
  acts is_print (TimecourseFixedpos.buildVars verbose inp).
Proof.
  unfold TimecourseFixedpos.buildVars.
  apply acts_bind; [apply grid_format_acts | intros g].
  apply acts_bind; [apply warn_missing_acts | intros ?].
  apply acts_bind; [| intros ?; acts_auto].
  apply acts_when.
  repeat (apply acts_bind; [| intros ?]);
    first [ apply report_threshold_acts | apply report_manifest_acts | acts_auto ].
Qed.

Lemma drop_started_acts d : acts silent (drop_started d).
Proof. unfold drop_started. acts_auto. Qed.

Lemma checkImages_acts fdir fdict : acts silent (checkImages fdir fdict).
Proof.
  unfold checkImages. destruct fdict as [p |]; [| acts_auto].
  apply acts_bind; [acts_auto | intros f].
  destruct (f !! p) as [[| | | | m | |] |]; acts_auto.
Qed.

Lemma prepareTimecourse_acts d v : acts silent (prepareTimecourse d v).
Proof. unfold prepareTimecourse. acts_auto. Qed.

Lemma loadLocationGuesses_acts F ins : acts any_event (loadLocationGuesses F ins).
Proof. unfold loadLocationGuesses. acts_auto. Qed.

Lemma parse_analyse_barcode_acts cfg d : acts any_event (ParseAndRun.analyse_barcode cfg d).
Proof.
  unfold ParseAndRun.analyse_barcode.
  apply acts_bind; [eapply acts_weaken; [| apply prepareTimecourse_acts]; now intros | intros tc].
  unfold ParseAndRun.correction_model, ParseAndRun.choose_threshold, ParseAndRun.image_step,
    write_results, edgeFill, maskAndFill, loadLocationGuesses, claim.
  acts_auto.
Qed.

Lemma fixedpos_analyse_barcode_acts cfg d :
  acts any_event (TimecourseFixedpos.analyse_barcode cfg d).
Proof.
  unfold TimecourseFixedpos.analyse_barcode.
  apply acts_bind; [eapply acts_weaken; [| apply prepareTimecourse_acts]; now intros | intros tc].
  unfold TimecourseFixedpos.choose_threshold, TimecourseFixedpos.image_step,
    write_results, loadLocationGuesses, claim.
  acts_auto.
Qed.

Lemma parse_main_loop_acts fuel cfg : forall d, acts any_event (ParseAndRun.main_loop fuel cfg d).
Proof.
  induction fuel as [| fuel IH]; intros d; simpl;
    (destruct (bool_decide (d = ∅)); [apply acts_ret |]); [apply acts_raise |].
  apply acts_bind; [apply parse_analyse_barcode_acts | intros b].
  apply acts_bind;
    [eapply acts_weaken; [| apply drop_started_acts]; now intros | intros d'].
  acts_auto.
Qed.

Lemma fixedpos_main_loop_acts fuel cfg :
  forall d, acts any_event (TimecourseFixedpos.main_loop fuel cfg d).
Proof.
  induction fuel as [| fuel IH]; intros d; simpl;
    (destruct (bool_decide (d = ∅)); [apply acts_ret |]); [apply acts_raise |].
  apply acts_bind; [apply fixedpos_analyse_barcode_acts | intros b].
  apply acts_bind;
    [eapply acts_weaken; [| apply drop_started_acts]; now intros | intros d'].
  acts_auto.
Qed.

End Acts_scripts.
(** ** Successful whole runs *)

Section Whole_runs.
Context `{Ext : External}.

Lemma opens_concat ts : opens (concat ts) = flat_map opens ts.
Proof. induction ts as [| t ts IH]; simpl; [reflexivity |]. now rewrite opens_app, IH. Qed.
Lemma writes_concat ts : writes (concat ts) = flat_map writes ts.
Proof. induction ts as [| t ts IH]; simpl; [reflexivity |]. now rewrite writes_app, IH. Qed.
Lemma autos_concat ts : autos (concat ts) = flat_map autos ts.
Proof. induction ts as [| t ts IH]; simpl; [reflexivity |]. now rewrite autos_app, IH. Qed.

(** What [buildVars] of parseAndRun.py returns, when it returns. *)
Lemma parse_buildVars_Ok inp w w' cfg :
  ParseAndRun.buildVars inp w = (w', Ok cfg) ->
  a_quiet inp = false /\
  cfg_lc cfg = a_lc inp /\
  cfg_fixedThresh cfg = default_thresh inp /\
  cfg_plots cfg = a_plots inp /\
  cfg_initpos cfg = a_initpos inp /\
  cfg_fdict cfg = manifest_path inp /\
  cfg_fdir cfg = default_dir inp /\
  cfg_cut cfg = a_lc inp && a_cut inp /\
  cfg_verbose cfg = true /\
  cfg_diffims cfg = a_lc inp && a_diffims inp /\
  exists w1, grid_format (a_fmt inp) w = (w1, Ok (cfg_nrow cfg, cfg_ncol cfg)).
Proof.
  unfold ParseAndRun.buildVars. intros E.
  apply bind_Ok in E. destruct E as (w1 & g & Eg & E).
  apply bind_Ok in E. destruct E as (w2 & u & Ew & E).
  apply bind_Ok in E. destruct E as (w3 & locals & El & E).
  destruct (a_quiet inp); [inv_M; discriminate |].
  apply bind_Ok in El. destruct El as (w4 & r & Er & El).
  assert (Hr : r = (a_lc inp && a_diffims inp, a_lc inp && a_cut inp)).
  { clear - Er. unfold ParseAndRun.verbose_report in Er.
    apply bind_Ok in Er. destruct Er as (? & ? & _ & Er).
    apply bind_Ok in Er. destruct Er as (? & di & Ed & Er).
    apply bind_Ok in Er. destruct Er as (? & ? & _ & Er).
    apply bind_Ok in Er. destruct Er as (? & ? & _ & Er).
    apply bind_Ok in Er. destruct Er as (? & cu & Ec & Er).
    apply bind_Ok in Er. destruct Er as (? & ? & _ & Er).
    apply bind_Ok in Er. destruct Er as (? & ? & _ & Er).
    apply ret_Ok in Er. destruct Er as [_ ->].
    destruct (a_lc inp), (a_diffims inp), (a_cut inp); inv_M; reflexivity. }
  subst r. inv_M. simpl in *. destruct g as [nr nc]. simpl.
  repeat split; eauto; congruence.
Qed.

(** What [buildVars] of timecourse_fixedpos.py returns, when it returns. *)
Lemma fixedpos_buildVars_Ok verbose inp w w' cfg :
  TimecourseFixedpos.buildVars verbose inp w = (w', Ok cfg) ->
  cfg_lc cfg = a_lc inp /\
  cfg_fixedThresh cfg = default_thresh inp /\
  cfg_plots cfg = a_plots inp /\
  cfg_initpos cfg = a_initpos inp /\
  cfg_fdict cfg = manifest_path inp /\
  cfg_fdir cfg = default_dir inp /\
  cfg_verbose cfg = verbose /\
  exists w1, grid_format (a_fmt inp) w = (w1, Ok (cfg_nrow cfg, cfg_ncol cfg)).
Proof.
  unfold TimecourseFixedpos.buildVars. intros E.
  apply bind_Ok in E. destruct E as (w1 & g & Eg & E).
  apply bind_Ok in E. destruct E as (w2 & u & Ew & E).
  apply bind_Ok in E. destruct E as (w3 & u3 & El & E).
  inv_M. simpl. destruct g as [nr nc]. simpl. repeat split; eauto.
Qed.

Lemma parse_batch_facts_more cfg d b t t' :
  parse_batch_facts cfg d b t -> Forall silent t' ->
  parse_batch_facts cfg d b (t ++ t').
Proof.
  intros Hb Hs. apply silent_projections in Hs. destruct Hs as (Ho & Hw & Ha).
  unfold parse_batch_facts in *.
  rewrite opens_app, writes_app, autos_app, Ho, Hw, Ha, !app_nil_r. exact Hb.
Qed.

Lemma fixedpos_batch_facts_more cfg d b t t' :
  fixedpos_batch_facts cfg d b t -> Forall silent t' ->
  fixedpos_batch_facts cfg d b (t ++ t').
Proof.
  intros Hb Hs. apply silent_projections in Hs. destruct Hs as (Ho & Hw & Ha).
  unfold fixedpos_batch_facts in *.
  rewrite opens_app, writes_app, autos_app, Ho, Hw, Ha, !app_nil_r. exact Hb.
Qed.

(** A successful loop is a sequence of successful passes, one per batch
    log, each over a part of the index the loop began with. *)
Lemma parse_main_loop_Ok fuel cfg : forall d w w' logs,
  ParseAndRun.main_loop fuel cfg d w = (w', Ok logs) ->
  exists ts, effects w w' (concat ts) /\
    Forall2 (fun b t => exists d0, d0 ⊆ d /\ parse_batch_facts cfg d0 b t) logs ts.
Proof.
  induction fuel as [| fuel IH]; intros d w w' logs E; simpl in E;
    (destruct (bool_decide (d = ∅));
     [apply ret_Ok in E; destruct E as [-> ->]; exists []; split;
      [apply effects_refl | constructor] |]); [discriminate |].
  apply bind_Ok in E. destruct E as (w1 & b & Eb & E).
  apply bind_Ok in E. destruct E as (w2 & d' & Ed & E).
  apply bind_Ok in E. destruct E as (w3 & u & Ep & E).
  apply bind_Ok in E. destruct E as (w4 & r & Er & E).
  apply ret_Ok in E. destruct E as [-> ->].
  apply parse_analyse_barcode_Ok in Eb. destruct Eb as (t1 & Ef1 & Hb).
  apply drop_started_Ok in Ed. destruct Ed as [-> ->].
  assert (Hp : exists t3, effects w1 w3 t3 /\ Forall silent t3).
  { eapply (acts_run silent (when (cfg_plots cfg) (emit EvPdfClose))); [| exact Ep].
    apply acts_when, acts_emit; [reflexivity | exact I]. }
  destruct Hp as (t3 & Ef3 & Hs3).
  apply IH in Er. destruct Er as (ts & Efr & Hr).
  exists ((t1 ++ t3)%list :: ts). split.
  - simpl. eapply effects_trans; [eapply effects_trans; eauto | exact Efr].
  - constructor.
    + exists d. split; [reflexivity | now apply parse_batch_facts_more].
    + eapply Forall2_impl; [exact Hr |].
      intros b0 t0 (d0 & Hsub & Hf). exists d0. split; [| exact Hf].
      etransitivity; [exact Hsub | apply map_filter_subseteq].
Qed.

Lemma fixedpos_main_loop_Ok fuel cfg : forall d w w' logs,
  TimecourseFixedpos.main_loop fuel cfg d w = (w', Ok logs) ->
  exists ts, effects w w' (concat ts) /\
    Forall2 (fun b t => exists d0, d0 ⊆ d /\ fixedpos_batch_facts cfg d0 b t) logs ts.
Proof.
  induction fuel as [| fuel IH]; intros d w w' logs E; simpl in E;
    (destruct (bool_decide (d = ∅));
     [apply ret_Ok in E; destruct E as [-> ->]; exists []; split;
      [apply effects_refl | constructor] |]); [discriminate |].
  apply bind_Ok in E. destruct E as (w1 & b & Eb & E).
  apply bind_Ok in E. destruct E as (w2 & d' & Ed & E).
  apply bind_Ok in E. destruct E as (w4 & r & Er & E).
  apply ret_Ok in E. destruct E as [-> ->].
  apply fixedpos_analyse_barcode_Ok in Eb. destruct Eb as (t1 & Ef1 & Hb).
  apply drop_started_Ok in Ed. destruct Ed as [-> ->].
  apply IH in Er. destruct Er as (ts & Efr & Hr).
  exists (t1 :: ts). split.
  - simpl. eapply effects_trans; eauto.
  - constructor.
    + exists d. split; [reflexivity | exact Hb].
    + eapply Forall2_impl; [exact Hr |].
      intros b0 t0 (d0 & Hsub & Hf). exists d0. split; [| exact Hf].
      etransitivity; [exact Hsub | apply map_filter_subseteq].
Qed.

(** A successful run of parseAndRun.py: its configuration, its index, and
    its passes; outside the passes it opens no image, writes no file and
    fits no threshold. *)
Lemma parse_main_Ok fuel inp w w' logs :
  ParseAndRun.main fuel inp w = (w', Ok logs) ->
  exists cfg wa wb wc d ts t,
    ParseAndRun.buildVars inp wa = (wb, Ok cfg) /\
    checkImages (cfg_fdir cfg) (cfg_fdict cfg) wb = (wc, Ok d) /\
    effects w w' t /\
    opens t = flat_map opens ts /\ writes t = flat_map writes ts /\
    autos t = flat_map autos ts /\
    Forall2 (fun b t => exists d0, d0 ⊆ d /\ parse_batch_facts cfg d0 b t) logs ts.
Proof.
  unfold ParseAndRun.main. intros E.
  apply bind_Ok in E. destruct E as (wa & u1 & E1 & E).
  apply bind_Ok in E. destruct E as (wb & cfg & E2 & E).
  apply bind_Ok in E. destruct E as (wc & d & E3 & E).
  apply bind_Ok in E. destruct E as (wd & u4 & E4 & E).
  apply bind_Ok in E. destruct E as (we & logs' & E5 & E).
  apply bind_Ok in E. destruct E as (wf & u6 & E6 & E).
  apply ret_Ok in E. destruct E as [-> ->].
  apply emit_effects in E1; [| reflexivity].
  apply emit_effects in E4; [| reflexivity].
  apply emit_effects in E6; [| reflexivity].
  destruct (acts_run _ _ _ _ _ (parse_buildVars_acts inp) E2) as (t2 & Ef2 & Hs2).
  destruct (acts_run _ _ _ _ _ (checkImages_acts _ _) E3) as (t3 & Ef3 & Hs3).
  apply parse_main_loop_Ok in E5. destruct E5 as (ts & Ef5 & Hl).
  exists cfg, wa, wb, wc, d, ts. eexists. split; [exact E2 |]. split; [exact E3 |].
  split; [chain |].
  assert (Hs2' : Forall silent t2)
    by (eapply Forall_impl; [exact Hs2 | apply is_print_silent]).
  apply silent_projections in Hs2'. destruct Hs2' as (O2 & W2 & A2).
  apply silent_projections in Hs3. destruct Hs3 as (O3 & W3 & A3).
  rewrite ?opens_app, ?writes_app, ?autos_app, O2, W2, A2, O3, W3, A3,
    opens_concat, writes_concat, autos_concat.
  simpl. rewrite !app_nil_r. auto.
Qed.

Lemma fixedpos_main_Ok fuel verbose inp w w' logs :
  TimecourseFixedpos.main fuel verbose inp w = (w', Ok logs) ->
  exists cfg wa wb wc d ts t,
    TimecourseFixedpos.buildVars verbose inp wa = (wb, Ok cfg) /\
    checkImages (cfg_fdir cfg) (cfg_fdict cfg) wb = (wc, Ok d) /\
    effects w w' t /\
    opens t = flat_map opens ts /\ writes t = flat_map writes ts /\
    autos t = flat_map autos ts /\
    Forall2 (fun b t => exists d0, d0 ⊆ d /\ fixedpos_batch_facts cfg d0 b t) logs ts.
Proof.
  unfold TimecourseFixedpos.main. intros E.
  apply bind_Ok in E. destruct E as (wa & u1 & E1 & E).
  apply bind_Ok in E. destruct E as (wb & cfg & E2 & E).
  apply bind_Ok in E. destruct E as (wc & d & E3 & E).
  apply bind_Ok in E. destruct E as (wd & u4 & E4 & E).
  apply bind_Ok in E. destruct E as (we & logs' & E5 & E).
  apply bind_Ok in E. destruct E as (wf & u6 & E6 & E).
  apply ret_Ok in E. destruct E as [-> ->].
  apply emit_effects in E1; [| reflexivity].
  apply emit_effects in E4; [| reflexivity].
  apply emit_effects in E6; [| reflexivity].
  destruct (acts_run _ _ _ _ _ (fixedpos_buildVars_acts verbose inp) E2) as (t2 & Ef2 & Hs2).
  destruct (acts_run _ _ _ _ _ (checkImages_acts _ _) E3) as (t3 & Ef3 & Hs3).
  apply fixedpos_main_loop_Ok in E5. destruct E5 as (ts & Ef5 & Hl).
  exists cfg, wa, wb, wc, d, ts. eexists. split; [exact E2 |]. split; [exact E3 |].
  split; [chain |].
  assert (Hs2' : Forall silent t2)
    by (eapply Forall_impl; [exact Hs2 | apply is_print_silent]).
  apply silent_projections in Hs2'. destruct Hs2' as (O2 & W2 & A2).
  apply silent_projections in Hs3. destruct Hs3 as (O3 & W3 & A3).
  rewrite ?opens_app, ?writes_app, ?autos_app, O2, W2, A2, O3, W3, A3,
    opens_concat, writes_concat, autos_concat.
  simpl. rewrite !app_nil_r. auto.
Qed.

End Whole_runs.
(** ** The fixed threshold *)

Section Fixed_threshold.
Context `{Ext : External}.

Lemma acts_bind_post P {A B} (c : M A) (k : A -> M B) (Q : A -> Prop) :
  acts P c -> (forall w w' a, c w = (w', Ok a) -> Q a) ->
  (forall a, Q a -> acts P (k a)) -> acts P (bind c k).
Proof.
  intros Hc HQ Hk w. unfold bind. destruct (Hc w) as (t1 & E1 & F1).
  destruct (c w) as [w1 [a | e]] eqn:E; simpl in *.
  - destruct (Hk a (HQ _ _ _ E) w1) as (t2 & E2 & F2). exists (t1 ++ t2)%list.
    split; [eapply effects_trans; eauto | now apply Forall_app].
  - exists t1. auto.
Qed.

Lemma not_a_fit_autos t : Forall not_a_fit t -> autos t = [].
Proof.
  induction 1 as [| e t He _ IH]; [reflexivity |].
  destruct e; simpl in *; try contradiction; exact IH.
Qed.

Lemma is_print_not_a_fit e : is_print e -> not_a_fit e.
Proof. intros [s ->]. exact I. Qed.

Lemma silent_not_a_fit e : silent e -> not_a_fit e.
Proof. destruct e; simpl; tauto. Qed.

Lemma parse_analyse_barcode_no_fit cfg d :
  num_geb (cfg_fixedThresh cfg) (num_of_Z 0) = true ->
  acts not_a_fit (ParseAndRun.analyse_barcode cfg d).
Proof.
  intros Hge. unfold ParseAndRun.analyse_barcode.
  apply acts_bind;
    [eapply acts_weaken; [| apply prepareTimecourse_acts]; apply silent_not_a_fit | intros tc].
  unfold ParseAndRun.correction_model, ParseAndRun.choose_threshold, ParseAndRun.image_step,
    write_results, edgeFill, maskAndFill, loadLocationGuesses, claim.
  rewrite Hge. acts_auto.
Qed.

Lemma fixedpos_analyse_barcode_no_fit cfg d :
  num_geb (cfg_fixedThresh cfg) (num_of_Z 0) = true ->
  acts not_a_fit (TimecourseFixedpos.analyse_barcode cfg d).
Proof.
  intros Hge. unfold TimecourseFixedpos.analyse_barcode.
  apply acts_bind;
    [eapply acts_weaken; [| apply prepareTimecourse_acts]; apply silent_not_a_fit | intros tc].
  unfold TimecourseFixedpos.choose_threshold, TimecourseFixedpos.image_step,
    write_results, loadLocationGuesses, claim.
  rewrite Hge. acts_auto.
Qed.

Lemma parse_main_no_fit fuel inp v :
  a_fixthresh inp = Some v -> num_geb v (num_of_Z 0) = true ->
  acts not_a_fit (ParseAndRun.main fuel inp).
Proof.
  intros Hv Hge. unfold ParseAndRun.main.
  apply acts_bind; [acts_auto | intros ?].
  apply (acts_bind_post _ _ _ (fun cfg => num_geb (cfg_fixedThresh cfg) (num_of_Z 0) = true)).
  - eapply acts_weaken; [| apply parse_buildVars_acts]. apply is_print_not_a_fit.
  - intros w w' cfg E. apply parse_buildVars_Ok in E. destruct E as (_ & _ & Hth & _).
    rewrite Hth. unfold default_thresh. now rewrite Hv.
  - intros cfg Hcfg.
    apply acts_bind;
      [eapply acts_weaken; [| apply checkImages_acts]; apply silent_not_a_fit | intros d].
    apply acts_bind; [acts_auto | intros ?].
    apply acts_bind; [| intros ?; acts_auto].
    revert d. induction fuel as [| fuel IH]; intros d; simpl;
      (destruct (bool_decide (d = ∅)); [apply acts_ret |]); [apply acts_raise |].
    apply acts_bind; [now apply parse_analyse_barcode_no_fit | intros b].
    apply acts_bind;
      [eapply acts_weaken; [| apply drop_started_acts]; apply silent_not_a_fit | intros d'].
    acts_auto.
Qed.

Lemma fixedpos_main_no_fit fuel verbose inp v :
  a_fixthresh inp = Some v -> num_geb v (num_of_Z 0) = true ->
  acts not_a_fit (TimecourseFixedpos.main fuel verbose inp).
Proof.
  intros Hv Hge. unfold TimecourseFixedpos.main.
  apply acts_bind; [acts_auto | intros ?].
  apply (acts_bind_post _ _ _ (fun cfg => num_geb (cfg_fixedThresh cfg) (num_of_Z 0) = true)).
  - eapply acts_weaken; [| apply fixedpos_buildVars_acts]. apply is_print_not_a_fit.
  - intros w w' cfg E. apply fixedpos_buildVars_Ok in E. destruct E as (_ & Hth & _).
    rewrite Hth. unfold default_thresh. now rewrite Hv.
  - intros cfg Hcfg.
    apply acts_bind;
      [eapply acts_weaken; [| apply checkImages_acts]; apply silent_not_a_fit | intros d].
    apply acts_bind; [acts_auto | intros ?].
    apply acts_bind; [| intros ?; acts_auto].
    revert d. induction fuel as [| fuel IH]; intros d; simpl;
      (destruct (bool_decide (d = ∅)); [apply acts_ret |]); [apply acts_raise |].
    apply acts_bind; [now apply fixedpos_analyse_barcode_no_fit | intros b].
    apply acts_bind;
      [eapply acts_weaken; [| apply drop_started_acts]; apply silent_not_a_fit | intros d'].
    acts_auto.
Qed.

End Fixed_threshold.

(** ** Thresholds, masks, opens and writes of successful runs *)

Section Run_claims.
Context `{Ext : External}.

Lemma flat_map_eq_Forall2 {A B C} (R : A -> B -> Prop) (f : B -> list C) (g : A -> list C) l r :
  Forall2 R l r -> (forall a b, R a b -> f b = g a) -> flat_map f r = flat_map g l.
Proof.
  intros HF Hfg. induction HF as [| a b l r Hab _ IH]; simpl; [reflexivity |].
  now rewrite (Hfg _ _ Hab), IH.
Qed.

Lemma Forall2_elim_l {A B} (R : A -> B -> Prop) (P : A -> Prop) l r :
  Forall2 R l r -> (forall a b, R a b -> P a) -> Forall P l.
Proof. intros HF HP. induction HF; constructor; eauto. Qed.

Lemma Forall2_elim_r {A B} (R : A -> B -> Prop) (P : B -> Prop) l r :
  Forall2 R l r -> (forall a b, R a b -> P b) -> Forall P r.
Proof. intros HF HP. induction HF; constructor; eauto. Qed.

Lemma Forall2_map_eq_r {A B} (R : A -> B -> Prop) (f : B -> A) l r :
  Forall2 R l r -> (forall a b, R a b -> f b = a) -> map f r = l.
Proof.
  intros HF Hf. induction HF as [| a b l r Hab _ IH]; simpl; [reflexivity |].
  now rewrite (Hf _ _ Hab), IH.
Qed.

Lemma flat_map_all_nil {A B} (f : A -> list B) l :
  (forall a, f a = []) -> flat_map f l = [].
Proof. intros Hf. induction l; simpl; [reflexivity |]. now rewrite Hf, IHl. Qed.

Lemma flat_map_singletons {A B} (f : A -> B) l :
  flat_map (fun a => [f a]) l = map f l.
Proof. induction l; simpl; congruence. Qed.

(** C5, as amended.  In a run with a non-negative fixed threshold
    override, the automatic fit is never invoked, whatever the outcome of
    the run, and the base threshold of every batch is that override.  The
    threshold at which each image is segmented is the override too
    whenever the drift adjustment is off, that is always in
    timecourse_fixedpos.py and in parseAndRun.py unless [--lc] and
    [--diffims] are both given; with both given it need not be.  In a run
    without an override, the base threshold of every batch is the one that
    the automatic fit returns for the trimmed image of the batch, the
    corrected latest image in parseAndRun.py and the latest image as
    opened in timecourse_fixedpos.py, and the fit is invoked once per
    batch. *)
Theorem fixed_threshold_used_or_fitted (fuel : nat) (verbose : bool) (inp : Args)
    (w : World) :
  (forall v, a_fixthresh inp = Some v -> num_geb v (num_of_Z 0) = true ->
     (exists t, effects w (fst (ParseAndRun.main fuel inp w)) t /\ autos t = []) /\
     (exists t, effects w (fst (TimecourseFixedpos.main fuel verbose inp w)) t
                /\ autos t = []) /\
     (forall w' logs, ParseAndRun.main fuel inp w = (w', Ok logs) ->
        Forall (fun b => bl_thresh b = v /\
                         (a_lc inp && a_diffims inp = false ->
                          Forall (fun il => il_threshadj il = v) (bl_images b))) logs) /\
     (forall w' logs, TimecourseFixedpos.main fuel verbose inp w = (w', Ok logs) ->
        Forall (fun b => bl_thresh b = v /\
                         Forall (fun il => il_threshadj il = v) (bl_images b)) logs)) /\
  (a_fixthresh inp = None ->
     (forall w' logs, ParseAndRun.main fuel inp w = (w', Ok logs) ->
        exists t, effects w w' t /\
          autos t = map (fun b => tc_BARCODE (bl_tc b)) logs /\
          Forall (fun b => exists tb,
                    trim (bl_corrected_arrN b) (bl_arrN b) (bl_locationsN b) (bl_dx b) (bl_dy b)
                      = Ok (bl_trimmed_arrN b)
                    /\ automaticThreshold (bl_trimmed_arrN b) = Some tb
                    /\ bl_thresh b = fst tb) logs) /\
     (forall w' logs, TimecourseFixedpos.main fuel verbose inp w = (w', Ok logs) ->
        exists t, effects w w' t /\
          autos t = map (fun b => tc_BARCODE (bl_tc b)) logs /\
          Forall (fun b => exists tb,
                    trim (bl_arrN b) (bl_arrN b) (bl_locationsN b) (bl_dx b) (bl_dy b)
                      = Ok (bl_trimmed_arrN b)
                    /\ automaticThreshold (bl_trimmed_arrN b) = Some tb
                    /\ bl_thresh b = fst tb) logs)).
Proof.
  split.
  - intros v Hv Hge. split; [| split; [| split]].
    + destruct (parse_main_no_fit fuel inp v Hv Hge w) as (t & Ef & Hnf).
      exists t. split; [exact Ef | now apply not_a_fit_autos].
    + destruct (fixedpos_main_no_fit fuel verbose inp v Hv Hge w) as (t & Ef & Hnf).
      exists t. split; [exact Ef | now apply not_a_fit_autos].
    + intros w' logs E. apply parse_main_Ok in E.
      destruct E as (cfg & wa & wb & wc & d & ts & t & Eb & _ & _ & _ & _ & _ & Hl).
      apply parse_buildVars_Ok in Eb.
      destruct Eb as (_ & _ & Hth & _ & _ & _ & _ & _ & _ & Hdi & _).
      unfold default_thresh in Hth. rewrite Hv in Hth.
      eapply Forall2_elim_l; [exact Hl |].
      intros b tb (d0 & _ & Hb). unfold parse_batch_facts in Hb.
      destruct Hb as (_ & _ & _ & _ & _ & _ & _ & _ & Ht & _ & Him & _).
      rewrite Hth, Hge in Ht. split; [exact Ht |].
      intros Hoff. rewrite Hoff in Hdi.
      eapply Forall2_elim_r; [exact Him |].
      intros F il (_ & _ & Hadj). destruct (Hadj Hdi) as [Hil _]. congruence.
    + intros w' logs E. apply fixedpos_main_Ok in E.
      destruct E as (cfg & wa & wb & wc & d & ts & t & Eb & _ & _ & _ & _ & _ & Hl).
      apply fixedpos_buildVars_Ok in Eb. destruct Eb as (_ & Hth & _).
      unfold default_thresh in Hth. rewrite Hv in Hth.
      eapply Forall2_elim_l; [exact Hl |].
      intros b tb (d0 & _ & Hb). unfold fixedpos_batch_facts in Hb.
      destruct Hb as (_ & _ & _ & _ & _ & _ & (cm & ab & _ & _ & _ & Him) & _ & Ht & _).
      rewrite Hth, Hge in Ht. split; [exact Ht |].
      eapply Forall2_elim_r; [exact Him |].
      intros F il (_ & _ & Hil & _). congruence.
  - intros Hv. split; intros w' logs E.
    + apply parse_main_Ok in E.
      destruct E as (cfg & wa & wb & wc & d & ts & t & Eb & _ & Ef & _ & _ & Ha & Hl).
      apply parse_buildVars_Ok in Eb. destruct Eb as (_ & _ & Hth & _).
      unfold default_thresh in Hth. rewrite Hv in Hth.
      exists t. split; [exact Ef |]. rewrite Ha. split.
      * erewrite (flat_map_eq_Forall2 _ autos (fun b => [tc_BARCODE (bl_tc b)]));
          [apply flat_map_singletons | exact Hl |].
        intros b tb (d0 & _ & Hb). unfold parse_batch_facts in Hb.
        destruct Hb as (_ & _ & _ & _ & _ & _ & _ & _ & _ & _ & _ & _ & _ & Hau).
        rewrite Hth, num_sentinel_negative in Hau. exact Hau.
      * eapply Forall2_elim_l; [exact Hl |].
        intros b tb (d0 & _ & Hb). unfold parse_batch_facts in Hb.
        destruct Hb as (_ & _ & _ & _ & _ & _ & _ & Htr & Ht & _).
        rewrite Hth, num_sentinel_negative in Ht. destruct Ht as (x & Hx & Hx').
        exists x. auto.
    + apply fixedpos_main_Ok in E.
      destruct E as (cfg & wa & wb & wc & d & ts & t & Eb & _ & Ef & _ & _ & Ha & Hl).
      apply fixedpos_buildVars_Ok in Eb. destruct Eb as (_ & Hth & _).
      unfold default_thresh in Hth. rewrite Hv in Hth.
      exists t. split; [exact Ef |]. rewrite Ha. split.
      * erewrite (flat_map_eq_Forall2 _ autos (fun b => [tc_BARCODE (bl_tc b)]));
          [apply flat_map_singletons | exact Hl |].
        intros b tb (d0 & _ & Hb). unfold fixedpos_batch_facts in Hb.
        destruct Hb as (_ & _ & _ & _ & _ & _ & _ & _ & _ & _ & _ & _ & Hau).
        rewrite Hth, num_sentinel_negative in Hau. exact Hau.
      * eapply Forall2_elim_l; [exact Hl |].
        intros b tb (d0 & _ & Hb). unfold fixedpos_batch_facts in Hb.
        destruct Hb as (_ & _ & _ & _ & _ & _ & _ & Htr & Ht & _).
        rewrite Hth, num_sentinel_negative in Ht. destruct Ht as (x & Hx & Hx').
        exists x. auto.
Qed.

(** C6.  In a run of parseAndRun.py with lighting correction disabled,
    every image of every batch is measured at the base threshold of its
    batch, and on the pixel values as [openImage] returned them: neither
    is shifted.  ([--diffims] has no effect without [--lc]: [diffIms] is
    set only under [if inp.lc].) *)
Theorem no_drift_adjustment_without_correction (fuel : nat) (inp : Args)
    (w w' : World) (logs : list BatchLog) :
  a_lc inp = false ->
  ParseAndRun.main fuel inp w = (w', Ok logs) ->
  Forall (fun b =>
            Forall (fun il => il_threshadj il = bl_thresh b /\
                              exists im, openImage (il_file il) = Some (im, il_arr il))
                   (bl_images b)) logs.
Proof.
  intros Hlc E. apply parse_main_Ok in E.
  destruct E as (cfg & wa & wb & wc & d & ts & t & Eb & _ & _ & _ & _ & _ & Hl).
  apply parse_buildVars_Ok in Eb.
  destruct Eb as (_ & Hc & _ & _ & _ & _ & _ & _ & _ & Hdi & _).
  rewrite Hlc in Hc, Hdi. simpl in Hdi.
  eapply Forall2_elim_l; [exact Hl |].
  intros b tb (d0 & _ & Hb). unfold parse_batch_facts in Hb.
  destruct Hb as (_ & _ & _ & _ & _ & _ & _ & _ & _ & _ & Him & _).
  eapply Forall2_elim_r; [exact Him |].
  intros F il (Hf & _ & Hadj). destruct (Hadj Hdi) as (Ht & im & raw & Ho & Hr).
  rewrite Hc in Hr. subst. eauto.
Qed.

End Run_claims.
Section Batch_claims.
Context `{Ext : External}.

(** C1, as amended.  The mask of every image of a batch compares the
    (possibly drift-adjusted) threshold with the array of the latest image
    of the batch, not with the image's own array: in parseAndRun.py with
    the latest image as corrected when lighting correction is on and as
    opened otherwise, in timecourse_fixedpos.py always with the latest
    image as opened. *)
Theorem mask_compares_latest_image (fuel : nat) (verbose : bool) (inp : Args)
    (w w' : World) (logs : list BatchLog) :
  (ParseAndRun.main fuel inp w = (w', Ok logs) ->
   Forall (fun b =>
             (exists im, openImage (tc_LATESTIMAGE (bl_tc b)) = Some (im, bl_arrN b)) /\
             (if a_lc inp
              then exists cm, bl_correction_map b = Some cm
                              /\ arr_mul (bl_arrN b) cm = Ok (bl_corrected_arrN b)
              else bl_corrected_arrN b = bl_arrN b) /\
             Forall (fun il => il_mask il = not_below (bl_corrected_arrN b) (il_threshadj il))
                    (bl_images b)) logs) /\
  (TimecourseFixedpos.main fuel verbose inp w = (w', Ok logs) ->
   Forall (fun b =>
             (exists im, openImage (tc_LATESTIMAGE (bl_tc b)) = Some (im, bl_arrN b)) /\
             Forall (fun il => il_mask il = not_below (bl_arrN b) (il_threshadj il))
                    (bl_images b)) logs).
Proof.
  split; intros E.
  - apply parse_main_Ok in E.
    destruct E as (cfg & wa & wb & wc & d & ts & t & Eb & _ & _ & _ & _ & _ & Hl).
    apply parse_buildVars_Ok in Eb. destruct Eb as (_ & Hc & _).
    eapply Forall2_elim_l; [exact Hl |].
    intros b tb (d0 & _ & Hb). unfold parse_batch_facts in Hb.
    destruct Hb as (_ & _ & _ & _ & Ho & _ & Hcor & _ & _ & _ & Him & _).
    split; [exact Ho |]. split.
    + rewrite <- Hc. destruct (cfg_lc cfg); [| tauto].
      destruct Hcor as (_ & cm & ab & _ & Hm & Hmul). eauto.
    + eapply Forall2_elim_r; [exact Him |]. intros F il (_ & Hm & _). exact Hm.
  - apply fixedpos_main_Ok in E.
    destruct E as (cfg & wa & wb & wc & d & ts & t & Eb & _ & _ & _ & _ & _ & Hl).
    eapply Forall2_elim_l; [exact Hl |].
    intros b tb (d0 & _ & Hb). unfold fixedpos_batch_facts in Hb.
    destruct Hb as (_ & _ & _ & _ & Ho & _ & (cm & ab & _ & _ & _ & Him) & _).
    split; [exact Ho |].
    eapply Forall2_elim_r; [exact Him |]. intros F il (_ & Hm & _). exact Hm.
Qed.

(** C4, as amended.  No cumulative file is written.  The files that a
    pass which completes creates or replaces are, in this order: in
    parseAndRun.py with plots on, the report of the batch; the empty lock
    marker; in timecourse_fixedpos.py with plots on and no fixed
    threshold, the histogram report of the barcode; then, for each image
    in the order of the batch, that image's own three files: its table,
    its companion [.dat] file and its preview, each holding the rows of
    that image only.  Every write replaces the whole file, and the
    resulting file system is the initial one with these writes applied in
    order. *)
Theorem batch_writes_per_image_files (cfg : Config) (d : Index) (w w' : World)
    (b : BatchLog) :
  (ParseAndRun.analyse_barcode cfg d w = (w', Ok b) ->
   exists t, effects w w' t /\
     map il_file (bl_images b) = tc_IMs (bl_tc b) /\
     writes t = ((if cfg_plots cfg
                  then [(pdf_path (tc_EARLIESTIMAGE (bl_tc b)), FPdf)] else [])
                 ++ (out_path (tc_EARLIESTIMAGE (bl_tc b)), FEmpty)
                 :: flat_map (fun il =>
                                [ (out_path (il_file il), FTable (il_rows il));
                                  (dat_path (il_file il),
                                   FDat (il_rows il) (il_threshadj il) (bl_dx b) (bl_dy b));
                                  (png_path (il_file il), FPng (il_preview il)) ])
                             (bl_images b))%list /\
     fs w' = apply_writes (writes t) (fs w)) /\
  (TimecourseFixedpos.analyse_barcode cfg d w = (w', Ok b) ->
   exists t, effects w w' t /\
     map il_file (bl_images b) = tc_IMs (bl_tc b) /\
     writes t = ((out_path (tc_EARLIESTIMAGE (bl_tc b)), FEmpty)
                 :: (if num_geb (cfg_fixedThresh cfg) (num_of_Z 0) then []
                     else if cfg_plots cfg
                          then [((tc_BARCODE (bl_tc b) ++ "_HistogramReport.pdf")%string, FPdf)]
                          else [])
                 ++ flat_map (fun il =>
                                [ (out_path (il_file il), FTable (il_rows il));
                                  (dat_path (il_file il),
                                   FDat (il_rows il) (il_threshadj il) (bl_dx b) (bl_dy b));
                                  (png_path (il_file il), FPng (il_preview il)) ])
                             (bl_images b))%list /\
     fs w' = apply_writes (writes t) (fs w)).
Proof.
  split; intros E.
  - apply parse_analyse_barcode_Ok in E. destruct E as (t & Ef & Hb).
    exists t. split; [exact Ef |]. unfold parse_batch_facts in Hb.
    destruct Hb as (_ & _ & _ & _ & _ & _ & _ & _ & _ & _ & Him & _ & Hw & _).
    split; [| split; [exact Hw | apply Ef]].
    eapply Forall2_map_eq_r; [exact Him |]. intros F il (Hf & _). exact Hf.
  - apply fixedpos_analyse_barcode_Ok in E. destruct E as (t & Ef & Hb).
    exists t. split; [exact Ef |]. unfold fixedpos_batch_facts in Hb.
    destruct Hb as (_ & _ & _ & _ & _ & _ & (cm & ab & _ & _ & _ & Him) & _ & _ & _ & _ & Hw & _).
    split; [| split; [exact Hw | apply Ef]].
    eapply Forall2_map_eq_r; [exact Him |]. intros F il (Hf & _). exact Hf.
Qed.

(** C7, as amended.  When the latest and the earliest image of a batch
    are the same file, the set-up of parseAndRun.py opens it once and uses
    the loaded array as both reference and background; the loop over the
    images of the batch then opens every image again, so a batch of that
    one image opens it twice.  timecourse_fixedpos.py has no shortcut: it
    opens the latest image, then the earliest, then every image of the
    batch, so a batch of one image opens it three times. *)
Theorem single_timepoint_batch_opens (cfg : Config) (d : Index) (w w' : World)
    (b : BatchLog) :
  tc_LATESTIMAGE (bl_tc b) = tc_EARLIESTIMAGE (bl_tc b) ->
  (ParseAndRun.analyse_barcode cfg d w = (w', Ok b) ->
   exists t, effects w w' t /\
     opens t = tc_LATESTIMAGE (bl_tc b) :: tc_IMs (bl_tc b) /\
     bl_arr0 b = bl_arrN b /\
     (forall F, tc_IMs (bl_tc b) = [F] -> opens t = [F; F])) /\
  (TimecourseFixedpos.analyse_barcode cfg d w = (w', Ok b) ->
   exists t, effects w w' t /\
     opens t = tc_LATESTIMAGE (bl_tc b) :: tc_LATESTIMAGE (bl_tc b) :: tc_IMs (bl_tc b) /\
     (forall F, tc_IMs (bl_tc b) = [F] -> opens t = [F; F; F])).
Proof.
  intros Heq. split; intros E.
  - apply parse_analyse_barcode_Ok in E. destruct E as (t & Ef & Hb).
    exists t. split; [exact Ef |]. unfold parse_batch_facts in Hb.
    destruct Hb as (_ & _ & Hhd & _ & _ & H0 & _ & _ & _ & _ & Him & Ho & _).
    rewrite <- Heq, String.eqb_refl in H0, Ho. simpl in Ho.
    assert (Hfiles : map il_file (bl_images b) = tc_IMs (bl_tc b)).
    { eapply Forall2_map_eq_r; [exact Him |]. intros F il (Hf & _). exact Hf. }
    rewrite Hfiles in Ho. repeat split; auto.
    intros F HF. rewrite Ho. rewrite HF in Hhd |- *. simpl in Hhd. congruence.
  - apply fixedpos_analyse_barcode_Ok in E. destruct E as (t & Ef & Hb).
    exists t. split; [exact Ef |]. unfold fixedpos_batch_facts in Hb.
    destruct Hb as (_ & _ & Hhd & _ & _ & _ & (cm & ab & _ & _ & _ & Him) & _ & _ & _ & Ho & _).
    rewrite <- Heq in Ho.
    assert (Hfiles : map il_file (bl_images b) = tc_IMs (bl_tc b)).
    { eapply Forall2_map_eq_r; [exact Him |]. intros F il (Hf & _). exact Hf. }
    rewrite Hfiles in Ho. split; [exact Ho |].
    intros F HF. rewrite Ho. rewrite HF in Hhd |- *. simpl in Hhd. congruence.
Qed.

(** C8.  In signal-removal mode the correction model is never built: the
    first statement of [edgeFill] calls [getEdges], a name that the script
    neither defines nor imports, so the statement at lines 220-236 raises
    NameError; no batch of a run with [--lc --cut] is ever completed. *)
Theorem cut_mode_raises_NameError (fuel : nat) (inp : Args) (w w' : World)
    (logs : list BatchLog) :
  a_lc inp = true -> a_cut inp = true ->
  (forall cfg arrN arr0 locs w1,
     cfg_lc cfg = true -> cfg_cut cfg = true ->
     ParseAndRun.correction_model cfg arrN arr0 locs w1 = (w1, Raise (NameError "getEdges"))) /\
  (ParseAndRun.main fuel inp w = (w', Ok logs) -> logs = []).
Proof.
  intros Hlc Hcut. split.
  - intros cfg arrN arr0 locs w1 Hc Hx. unfold ParseAndRun.correction_model.
    now rewrite Hc, Hx.
  - intros E. apply parse_main_Ok in E.
    destruct E as (cfg & wa & wb & wc & d & ts & t & Eb & _ & _ & _ & _ & _ & Hl).
    apply parse_buildVars_Ok in Eb.
    destruct Eb as (_ & Hc & _ & _ & _ & _ & _ & Hx & _).
    rewrite Hlc in Hc. rewrite Hlc, Hcut in Hx. simpl in Hx.
    destruct Hl as [| b tb l r (d0 & _ & Hb) _]; [reflexivity |].
    unfold parse_batch_facts in Hb.
    destruct Hb as (_ & _ & _ & _ & _ & _ & Hcor & _).
    rewrite Hc in Hcor. destruct Hcor as [Hn _]. congruence.
Qed.

End Batch_claims.
(** ** Steps that always return *)

Section Returns.
Context `{Ext : External}.

Lemma returns_ret {A} (a : A) : returns (ret a).
Proof. intros w. now exists w, a. Qed.

Lemma returns_emit e : returns (emit e).
Proof. intros w. eexists _, tt. reflexivity. Qed.

Lemma returns_get_fs : returns get_fs.
Proof. intros w. now exists w, (fs w). Qed.

Lemma returns_bind {A B} (c : M A) (k : A -> M B) :
  returns c -> (forall a, returns (k a)) -> returns (bind c k).
Proof.
  intros Hc Hk w. destruct (Hc w) as (w1 & a & E).
  destruct (Hk a w1) as (w2 & b & E'). exists w2, b.
  now rewrite (bind_Ok_l _ _ _ _ _ E).
Qed.

Lemma returns_when b (c : M unit) : returns c -> returns (when b c).
Proof. intros Hc. destruct b; simpl; [exact Hc | apply returns_ret]. Qed.

End Returns.

Ltac returns_auto :=
  repeat first
    [ assumption | apply returns_ret | apply returns_get_fs
    | apply returns_emit | apply returns_when
    | apply returns_bind; [| intros ?]
    | match goal with
      | |- returns (if ?b then _ else _) => destruct b
      | |- returns (match ?x with _ => _ end) => destruct x
      end ].

Section Continue.
Context `{Ext : External}.

Lemma warn_missing_returns fdict : returns (warn_missing fdict).
Proof. unfold warn_missing, path_exists. returns_auto. Qed.

Lemma verbose_report_returns inp ft fd : returns (ParseAndRun.verbose_report inp ft fd).
Proof.
  unfold ParseAndRun.verbose_report, report_threshold, report_manifest, path_exists.
  returns_auto.
Qed.

(** Without [--quiet], [buildVars] of parseAndRun.py returns whenever the
    grid format resolves. *)
Lemma parse_buildVars_returns inp w w1 g :
  a_quiet inp = false -> grid_format (a_fmt inp) w = (w1, Ok g) ->
  exists w' cfg, ParseAndRun.buildVars inp w = (w', Ok cfg).
Proof.
  intros Hq Hg. unfold ParseAndRun.buildVars.
  rewrite (bind_Ok_l _ _ _ _ _ Hg), Hq.
  destruct (warn_missing_returns (manifest_path inp) w1) as (w2 & u & Ew).
  rewrite (bind_Ok_l _ _ _ _ _ Ew).
  destruct (verbose_report_returns inp (default_thresh inp) (manifest_path inp) w2)
    as (w3 & r & Er).
  unfold bind at 1. unfold bind at 1. rewrite Er. simpl. eauto.
Qed.

(** Composing what has happened with what follows. *)
Lemma bind_Ok_then {A B} (c : M A) (k : A -> M B) (Q : list Event -> Prop) w w1 a t1 :
  c w = (w1, Ok a) -> effects w w1 t1 ->
  (exists t2, effects w1 (fst (k a w1)) t2 /\ Q (t1 ++ t2)%list) ->
  exists t, effects w (fst (bind c k w)) t /\ Q t.
Proof.
  intros E Ef (t2 & Ef2 & HQ). exists (t1 ++ t2)%list. split; [| exact HQ].
  rewrite (bind_Ok_l _ _ _ _ _ E). eapply effects_trans; eauto.
Qed.

Lemma bind_then_acts {A B} (c : M A) (k : A -> M B) (Q : list Event -> Prop) w :
  (exists t, effects w (fst (c w)) t /\ Q t) ->
  (forall a, acts any_event (k a)) ->
  (forall t t', Q t -> Q (t ++ t')%list) ->
  exists t, effects w (fst (bind c k w)) t /\ Q t.
Proof.
  intros (t & Ef & HQ) Hk Hmono. unfold bind.
  destruct (c w) as [w1 [a | e]]; simpl in *; [| eauto].
  destruct (Hk a w1) as (t2 & Ef2 & _). exists (t ++ t2)%list.
  split; [eapply effects_trans; eauto | auto].
Qed.

(** Once the batch is chosen and the operating system has let the report
    (with plots on) and the marker be created, a pass of parseAndRun.py
    has written the marker and goes on to open the latest image, whatever
    happens afterwards. *)
Lemma parse_analyse_barcode_claims_first cfg d w w1 tc :
  prepareTimecourse d (cfg_verbose cfg) w = (w1, Ok tc) ->
  (cfg_plots cfg = true -> can_write (pdf_path (tc_EARLIESTIMAGE tc)) = true) ->
  can_write (out_path (tc_EARLIESTIMAGE tc)) = true ->
  exists t, effects w (fst (ParseAndRun.analyse_barcode cfg d w)) t /\
    (In (EvWrite (out_path (tc_EARLIESTIMAGE tc)) FEmpty) t /\
     In (EvOpenImage (tc_LATESTIMAGE tc)) t).
Proof.
  intros Ep Hpw Hcw. unfold ParseAndRun.analyse_barcode.
  destruct (prepareTimecourse_Ok _ _ _ _ _ Ep) as ((t1 & Ef1 & _) & _).
  eapply bind_Ok_then; [exact Ep | exact Ef1 |].
  assert (Hpdf : exists w2 t2,
             when (cfg_plots cfg) (open_pdf (pdf_path (tc_EARLIESTIMAGE tc))) w1
             = (w2, Ok tt) /\ effects w1 w2 t2).
  { destruct (cfg_plots cfg); simpl.
    - assert (Eo : exists w2, open_pdf (pdf_path (tc_EARLIESTIMAGE tc)) w1 = (w2, Ok tt)).
      { unfold open_pdf. rewrite Hpw by reflexivity. eauto. }
      destruct Eo as (w2 & Eo). exists w2. eexists. split; [exact Eo |].
      eapply open_pdf_effects; exact Eo.
    - exists w1, []. split; [reflexivity | apply effects_refl]. }
  destruct Hpdf as (w2 & t2 & E2 & Ef2).
  eapply bind_Ok_then; [exact E2 | exact Ef2 |].
  assert (Ecl : exists w3, claim (tc_EARLIESTIMAGE tc) w2 = (w3, Ok tt)).
  { rewrite claim_eq, Hcw. eauto. }
  destruct Ecl as (w3 & Ecl).
  eapply bind_Ok_then; [exact Ecl | eapply write_effects; exact Ecl |].
  eapply bind_Ok_then; [reflexivity | eapply emit_effects; [| reflexivity]; reflexivity |].
  match goal with
  | |- exists x, effects ?w4 (fst (?c ?w4)) x /\ _ =>
      assert (Hrest : acts any_event c)
  end.
  { unfold ParseAndRun.correction_model, ParseAndRun.choose_threshold,
      ParseAndRun.image_step, write_results, edgeFill, maskAndFill, loadLocationGuesses.
    acts_auto. }
  match goal with
  | |- exists x, effects ?w4 _ x /\ _ => destruct (Hrest w4) as (t5 & Ef5 & _)
  end.
  exists t5. split; [exact Ef5 |].
  split; rewrite !in_app_iff; simpl; tauto.
Qed.

End Continue.
(** ** A grid format with too many tokens *)

Section Grid_claim.
Context `{Ext : External}.

Lemma first_barcode_empty : first_barcode ∅ = None.
Proof. unfold first_barcode. now rewrite map_to_list_empty. Qed.

Lemma prepareTimecourse_nonempty d v w w1 tc :
  prepareTimecourse d v w = (w1, Ok tc) -> d <> ∅.
Proof.
  intros E ->. unfold prepareTimecourse in E.
  rewrite first_barcode_empty in E. discriminate E.
Qed.

Lemma parse_main_loop_S fuel cfg d :
  ParseAndRun.main_loop (S fuel) cfg d
  = if bool_decide (d = ∅) then ret []
    else bind (ParseAndRun.analyse_barcode cfg d) (fun b =>
         bind (drop_started d) (fun d' =>
         bind (when (cfg_plots cfg) (emit EvPdfClose)) (fun _ =>
         bind (ParseAndRun.main_loop fuel cfg d') (fun r => ret (b :: r))))).
Proof. reflexivity. Qed.

(** C2, as amended.  With three or more dimension tokens and without
    [--quiet], [buildVars] prints its warning and returns a configuration
    with [nrow = ncol = 0]; it raises nothing.  The run goes on with that
    grid: once the first batch of the work list has been prepared and the
    operating system has let its report (with plots on) and its lock
    marker be created, the run has written the marker and opens the
    latest image of the batch, whatever happens later. *)
Theorem three_dimension_tokens_continue (inp : Args) (w : World) :
  (2 < length (a_fmt inp))%nat -> a_quiet inp = false ->
  (exists w1 cfg t,
     ParseAndRun.buildVars inp w = (w1, Ok cfg) /\ effects w w1 t /\
     cfg_nrow cfg = 0 /\ cfg_ncol cfg = 0 /\
     In (EvPrint "Woah!  Too many dimensions specified for rectangular grid format!") t) /\
  (forall fuel wa wb cfg wc d wd we tc,
     print ("Colonyzer " ++ c2_version)%string w = (wa, Ok tt) ->
     ParseAndRun.buildVars inp wa = (wb, Ok cfg) ->
     checkImages (cfg_fdir cfg) (cfg_fdict cfg) wb = (wc, Ok d) ->
     emit (EvCall "setupDirectories") wc = (wd, Ok tt) ->
     prepareTimecourse d (cfg_verbose cfg) wd = (we, Ok tc) ->
     (cfg_plots cfg = true -> can_write (pdf_path (tc_EARLIESTIMAGE tc)) = true) ->
     can_write (out_path (tc_EARLIESTIMAGE tc)) = true ->
     exists t, effects w (fst (ParseAndRun.main (S fuel) inp w)) t /\
       In (EvWrite (out_path (tc_EARLIESTIMAGE tc)) FEmpty) t /\
       In (EvOpenImage (tc_LATESTIMAGE tc)) t).
Proof.
  intros Hlen Hq. split.
  - assert (Hg : grid_format (a_fmt inp) w
                 = ({| fs := fs w;
                       trace := (trace w ++ [EvPrint "Woah!  Too many dimensions specified for rectangular grid format!"])%list |},
                    Ok (0, 0))).
    { unfold grid_format. apply Nat.ltb_lt in Hlen. now rewrite Hlen. }
    destruct (parse_buildVars_returns inp w _ _ Hq Hg) as (w1 & cfg & Eb).
    exists w1, cfg.
    destruct (parse_buildVars_Ok _ _ _ _ Eb) as (_ & _ & _ & _ & _ & _ & _ & _ & _ & _ & w2 & Hg').
    rewrite Hg in Hg'. injection Hg' as _ Hr Hc.
    assert (Ht : exists t, effects w (fst (ParseAndRun.buildVars inp w)) t /\
              In (EvPrint "Woah!  Too many dimensions specified for rectangular grid format!") t).
    { unfold ParseAndRun.buildVars.
      eapply bind_Ok_then; [exact Hg | eapply emit_effects; [| reflexivity]; reflexivity |].
      match goal with
      | |- exists t, effects ?w3 (fst (?c ?w3)) t /\ _ =>
          assert (Hrest : acts any_event c)
      end.
      { unfold ParseAndRun.verbose_report, warn_missing, report_threshold,
          report_manifest, path_exists.
        acts_auto. }
      match goal with
      | |- exists x, effects ?w3 _ x /\ _ => destruct (Hrest w3) as (t & Ef & _)
      end.
      exists t. split; [exact Ef | now left]. }
    rewrite Eb in Ht. destruct Ht as (t & Ef & Hin). exists t. auto.
  - intros fuel wa wb cfg wc d wd we tc Ep Eb Ec Es Et Hpw Hcw.
    unfold ParseAndRun.main.
    eapply bind_Ok_then; [exact Ep | eapply emit_effects; [| exact Ep]; reflexivity |].
    destruct (acts_run _ _ _ _ _ (parse_buildVars_acts inp) Eb) as (t2 & Ef2 & _).
    eapply bind_Ok_then; [exact Eb | exact Ef2 |].
    destruct (acts_run _ _ _ _ _ (checkImages_acts _ _) Ec) as (t3 & Ef3 & _).
    eapply bind_Ok_then; [exact Ec | exact Ef3 |].
    eapply bind_Ok_then; [exact Es | eapply emit_effects; [| exact Es]; reflexivity |].
    apply bind_then_acts.
    + rewrite parse_main_loop_S.
      rewrite bool_decide_eq_false_2 by (eapply prepareTimecourse_nonempty; eauto).
      apply bind_then_acts.
      * destruct (parse_analyse_barcode_claims_first cfg d wd we tc Et Hpw Hcw)
          as (t & Ef & Hi1 & Hi2).
        exists t. split; [exact Ef |]. rewrite !in_app_iff. tauto.
      * intros b. apply acts_bind;
          [eapply acts_weaken; [| apply drop_started_acts]; now intros | intros d'].
        apply acts_bind; [acts_auto | intros ?].
        apply acts_bind; [apply parse_main_loop_acts | intros ?; apply acts_ret].
      * intros t t'. rewrite !in_app_iff. tauto.
    + intros logs. acts_auto.
    + intros t t'. rewrite !in_app_iff. tauto.
Qed.

End Grid_claim.
(** ** Concrete runs *)

Section Demo_runs.
Import Demo.

Lemma run_returns {A} (c : M A) (w : World) :
  raised (c w) = None -> exists w' a, c w = (w', Ok a).
Proof.
  unfold raised. destruct (c w) as [w' [a | e]]; simpl; [eauto | discriminate].
Qed.

Lemma fixed_threshold_used_or_fitted_witness :
  exists w' logs,
    ParseAndRun.main 5 args_fixed w0 = (w', Ok logs)
    /\ a_fixthresh args_fixed = Some (1 # 2)%Q
    /\ num_geb (1 # 2)%Q (num_of_Z 0) = true
    /\ Forall (fun b => bl_thresh b = (1 # 2)%Q
                        /\ Forall (fun il => il_threshadj il = (1 # 2)%Q) (bl_images b)) logs.
Proof.
  destruct (run_returns (ParseAndRun.main 5 args_fixed) w0 eq_refl) as (w' & logs & E).
  exists w', logs. split; [exact E |]. split; [reflexivity |]. split; [reflexivity |].
  destruct (fixed_threshold_used_or_fitted 5 true args_fixed w0) as [Hfix _].
  destruct (Hfix (1 # 2)%Q eq_refl eq_refl) as (_ & _ & Hp & _).
  eapply Forall_impl; [exact (Hp w' logs E) |].
  intros b [Hb Hil]. split; [exact Hb | now apply Hil].
Defined.

(** C5 as stated fails at [-c -m -f 5]: the three images are segmented at
    4, 4 and 6, the override shifted by the drift of each image. *)
Lemma drift_shifts_fixed_threshold :
  a_fixthresh args_drift = Some 5%Q /\
  num_geb 5%Q (num_of_Z 0) = true /\
  ~ C5_as_stated 5 args_drift w0 5%Q.
Proof.
  split; [reflexivity |]. split; [reflexivity |]. intros Hall.
  destruct (run_returns (ParseAndRun.main 5 args_drift) w0 eq_refl) as (w' & logs & E).
  specialize (Hall w' logs E).
  assert (Hc : option_map (map (fun b => map il_threshadj (bl_images b)))
                 (result (ParseAndRun.main 5 args_drift w0))
               = Some [[4%Q; 4%Q]; [6%Q]]) by reflexivity.
  rewrite E in Hc. unfold result in Hc. simpl in Hc. injection Hc as Hc.
  destruct logs as [| b logs]; [discriminate Hc |].
  injection Hc as Hb _.
  apply Forall_cons in Hall. destruct Hall as [Himgs _].
  destruct (bl_images b) as [| il ims]; [discriminate Hb |].
  injection Hb as Hil _.
  apply Forall_cons in Himgs. destruct Himgs as [Himg _].
  rewrite Himg in Hil. discriminate Hil.
Qed.

Lemma no_drift_adjustment_without_correction_witness :
  exists w' logs,
    ParseAndRun.main 5 args0 w0 = (w', Ok logs)
    /\ a_lc args0 = false
    /\ Forall (fun b => Forall (fun il => il_threshadj il = bl_thresh b) (bl_images b)) logs.
Proof.
  destruct (run_returns (ParseAndRun.main 5 args0) w0 eq_refl) as (w' & logs & E).
  exists w', logs. split; [exact E |]. split; [reflexivity |].
  pose proof (no_drift_adjustment_without_correction 5 args0 w0 w' logs eq_refl E) as Hall.
  eapply Forall_impl; [exact Hall |]. intros b Hb.
  eapply Forall_impl; [exact Hb |]. intros il [Hil _]. exact Hil.
Defined.

Lemma mask_compares_latest_image_witness :
  exists w' logs,
    ParseAndRun.main 5 args_lc w0 = (w', Ok logs)
    /\ Forall (fun b =>
                 Forall (fun il => il_mask il = not_below (bl_corrected_arrN b) (il_threshadj il))
                        (bl_images b)) logs.
Proof.
  destruct (run_returns (ParseAndRun.main 5 args_lc) w0 eq_refl) as (w' & logs & E).
  exists w', logs. split; [exact E |].
  destruct (mask_compares_latest_image 5 true args_lc w0 w' logs) as [Hp _].
  eapply Forall_impl; [exact (Hp E) |]. intros b (_ & _ & Hb). exact Hb.
Defined.

(** C1 as stated fails on plate P1 without lighting correction: the mask
    of the early image is the comparison of the latest image's array
    [[8,2],[2,8]] with the threshold 5, not that of its own array
    [[2,2],[2,4]], which has no pixel at or above 5. *)
Lemma early_image_mask_from_latest_array :
  exists w' b,
    ParseAndRun.analyse_barcode cfg0 idx0 w0 = (w', Ok b) /\ ~ C1_as_stated cfg0 b.
Proof.
  destruct (run_returns (ParseAndRun.analyse_barcode cfg0 idx0) w0 eq_refl) as (w' & b & E).
  exists w', b. split; [exact E |].
  assert (Hc : option_map
                 (fun b => map (fun il => (il_file il, il_threshadj il, il_mask il)) (bl_images b))
                 (result (ParseAndRun.analyse_barcode cfg0 idx0 w0))
               = Some [ (im_P1_late, 5%Q, [[true; false]; [false; true]]);
                        (im_P1_early, 5%Q, [[true; false]; [false; true]]) ])
    by reflexivity.
  rewrite E in Hc. unfold result in Hc. simpl in Hc. injection Hc as Hc.
  unfold C1_as_stated. intros Hall.
  destruct (bl_images b) as [| il1 [| il2 [| il3 ims]]]; try discriminate Hc.
  injection Hc as _ _ _ Hf Ht Hm.
  apply Forall_cons in Hall. destruct Hall as [_ Hall].
  apply Forall_cons in Hall. destruct Hall as [(im & raw & Ho & Hown) _].
  simpl in Hown. rewrite Hf in Ho. rewrite Ht, Hm in Hown.
  assert (Hraw : raw = [[2; 2]; [2; 4]]%Q).
  { change (Some (im_P1_early, [[2; 2]; [2; 4]]%Q) = Some (im, raw)) in Ho. congruence. }
  subst raw. discriminate Hown.
Qed.

Lemma three_dimension_tokens_continue_witness :
  exists w1 cfg,
    ParseAndRun.buildVars args_3tokens w0 = (w1, Ok cfg)
    /\ cfg_nrow cfg = 0 /\ cfg_ncol cfg = 0.
Proof.
  destruct (three_dimension_tokens_continue args_3tokens w0) as [Hb _];
    [simpl; lia | reflexivity |].
  destruct Hb as (w1 & cfg & t & E & _ & Hr & Hc & _). exists w1, cfg. auto.
Defined.

(** C2 as stated fails at [-o 2 2 2]: the run returns, having opened
    images. *)
Lemma three_dimension_tokens_run_returns :
  ~ C2_as_stated 5 args_3tokens w0.
Proof.
  intros (w' & e & E & _).
  assert (Hr : raised (ParseAndRun.main 5 args_3tokens w0) = None) by reflexivity.
  rewrite E in Hr. discriminate Hr.
Qed.

Lemma batch_writes_per_image_files_witness :
  exists w' b t,
    ParseAndRun.analyse_barcode cfg0 idx0 w0 = (w', Ok b)
    /\ effects w0 w' t
    /\ map fst (writes t)
       = [ out_path im_P1_early;
           out_path im_P1_late; dat_path im_P1_late; png_path im_P1_late;
           out_path im_P1_early; dat_path im_P1_early; png_path im_P1_early ].
Proof.
  destruct (run_returns (ParseAndRun.analyse_barcode cfg0 idx0) w0 eq_refl) as (w' & b & E).
  destruct (proj1 (batch_writes_per_image_files cfg0 idx0 w0 w' b) E)
    as (t & Ef & Hfiles & Hw & _).
  exists w', b, t. split; [exact E |]. split; [exact Ef |].
  assert (Hc : option_map (fun b => (tc_EARLIESTIMAGE (bl_tc b), tc_IMs (bl_tc b)))
                 (result (ParseAndRun.analyse_barcode cfg0 idx0 w0))
               = Some (im_P1_early, [im_P1_late; im_P1_early])) by reflexivity.
  rewrite E in Hc. unfold result in Hc. simpl in Hc. injection Hc as He Hi.
  rewrite Hw, He. rewrite Hi in Hfiles.
  destruct (bl_images b) as [| il1 [| il2 [| il3 ims]]]; try discriminate Hfiles.
  injection Hfiles as Hf1 Hf2. simpl. rewrite Hf1, Hf2. reflexivity.
Defined.

(** C4 as stated fails on plate P1 (two images, four cells): no file
    holds eight rows after the batch. *)
Lemma no_cumulative_file_after_batch :
  exists w' b,
    ParseAndRun.analyse_barcode cfg0 idx0 w0 = (w', Ok b)
    /\ length (bl_images b) = 2%nat /\ (cfg_nrow cfg0 * cfg_ncol cfg0 = 4)%Z
    /\ ~ C4_as_stated 2 4 w'.
Proof.
  destruct (run_returns (ParseAndRun.analyse_barcode cfg0 idx0) w0 eq_refl) as (w' & b & E).
  exists w', b. split; [exact E |].
  assert (Hc : option_map (fun b => length (bl_images b))
                 (result (ParseAndRun.analyse_barcode cfg0 idx0 w0)) = Some 2%nat)
    by reflexivity.
  assert (Hr : forallb (fun pf => negb (length (file_rows (snd pf)) =? 8)%nat)
                 (map_to_list (fs (fst (ParseAndRun.analyse_barcode cfg0 idx0 w0))))
               = true) by reflexivity.
  rewrite E in Hc, Hr. unfold result in Hc. simpl in Hc, Hr.
  split; [congruence |]. split; [reflexivity |].
  intros (p & f & Hl & Hn).
  apply elem_of_map_to_list, list_elem_of_In in Hl.
  rewrite forallb_forall in Hr. specialize (Hr _ Hl).
  change (negb (length (file_rows f) =? 8)%nat = true) in Hr.
  rewrite Hn in Hr. discriminate Hr.
Qed.

Lemma single_timepoint_batch_opens_witness :
  exists w' b t,
    ParseAndRun.analyse_barcode cfg0 idx_P2 w0 = (w', Ok b)
    /\ tc_LATESTIMAGE (bl_tc b) = tc_EARLIESTIMAGE (bl_tc b)
    /\ effects w0 w' t /\ opens t = [im_P2; im_P2].
Proof.
  destruct (run_returns (ParseAndRun.analyse_barcode cfg0 idx_P2) w0 eq_refl) as (w' & b & E).
  assert (Hc : option_map (fun b => (tc_LATESTIMAGE (bl_tc b), tc_EARLIESTIMAGE (bl_tc b),
                                     tc_IMs (bl_tc b)))
                 (result (ParseAndRun.analyse_barcode cfg0 idx_P2 w0))
               = Some (im_P2, im_P2, [im_P2])) by reflexivity.
  rewrite E in Hc. unfold result in Hc. simpl in Hc. injection Hc as Hl He Hi.
  assert (Heq : tc_LATESTIMAGE (bl_tc b) = tc_EARLIESTIMAGE (bl_tc b)) by congruence.
  destruct (single_timepoint_batch_opens cfg0 idx_P2 w0 w' b Heq) as [Hp _].
  destruct (Hp E) as (t & Ef & _ & _ & Hone).
  exists w', b, t. split; [exact E |]. split; [exact Heq |]. split; [exact Ef |].
  exact (Hone im_P2 Hi).
Defined.

(** C7 as stated fails on plate P2, a batch of one image: the file is
    opened in the set-up and again in the loop over the images. *)
Lemma single_image_opened_twice :
  exists w' b,
    ParseAndRun.analyse_barcode cfg0 idx_P2 w0 = (w', Ok b)
    /\ ~ C7_as_stated (bl_tc b) (trace w').
Proof.
  destruct (run_returns (ParseAndRun.analyse_barcode cfg0 idx_P2) w0 eq_refl) as (w' & b & E).
  exists w', b. split; [exact E |].
  assert (Hc : option_map (fun b => (tc_LATESTIMAGE (bl_tc b), tc_EARLIESTIMAGE (bl_tc b)))
                 (result (ParseAndRun.analyse_barcode cfg0 idx_P2 w0))
               = Some (im_P2, im_P2)) by reflexivity.
  assert (Ho : opens (trace (fst (ParseAndRun.analyse_barcode cfg0 idx_P2 w0)))
               = [im_P2; im_P2]) by reflexivity.
  rewrite E in Hc, Ho. unfold result in Hc. simpl in Hc, Ho. injection Hc as Hl He.
  unfold C7_as_stated. rewrite Ho, Hl, He. intros Hone.
  specialize (Hone eq_refl). vm_compute in Hone. discriminate Hone.
Qed.

Lemma cut_mode_raises_NameError_witness :
  a_lc args_cut = true /\ a_cut args_cut = true /\
  ParseAndRun.correction_model
    {| cfg_lc := true; cfg_fixedThresh := (-99)%Q; cfg_plots := false;
       cfg_initpos := false; cfg_fdict := None; cfg_fdir := "d";
       cfg_nrow := 2; cfg_ncol := 2;
       cfg_cut := true; cfg_verbose := true; cfg_diffims := false |}
    [[8; 2]; [2; 8]]%Q [[2; 2]; [2; 4]]%Q [] w0
  = (w0, Raise (NameError "getEdges")).
Proof.
  split; [reflexivity |]. split; [reflexivity |].
  destruct (cut_mode_raises_NameError 5 args_cut w0 w0 [] eq_refl eq_refl) as [Hm _].
  apply Hm; reflexivity.
Defined.

End Demo_runs.
(** ** Termination of the loop over barcodes *)

Section Never.
Context `{Ext : External}.

Lemma raised_bind {A B} (c : M A) (k : A -> M B) w :
  raised (bind c k w)
  = match c w with
    | (w1, Ok a) => raised (k a w1)
    | (_, Raise e) => Some e
    end.
Proof. unfold bind. now destruct (c w) as [w1 [a | e]]. Qed.

Lemma never_ret e {A} (a : A) : never e (ret a).
Proof. intros w. discriminate. Qed.

Lemma never_raise e e' {A} : e' <> e -> never e (@raise _ _ A e').
Proof. intros Hne w. unfold raised. simpl. congruence. Qed.

Lemma never_lift e {A} (r : Res A) : r <> Raise e -> never e (lift r).
Proof. intros Hne w. unfold raised. simpl. destruct r; congruence. Qed.

Lemma never_get_fs e : never e get_fs.
Proof. intros w. discriminate. Qed.

Lemma never_emit e ev : never e (emit ev).
Proof. intros w. discriminate. Qed.

Lemma never_write e p f : e <> IOError p -> never e (write_file p f).
Proof.
  intros Hne w. unfold write_file, raised. destruct (can_write p); simpl; congruence.
Qed.

Lemma never_open_pdf e p : e <> IOError p -> never e (open_pdf p).
Proof.
  intros Hne w. unfold open_pdf, raised. destruct (can_write p); simpl; congruence.
Qed.

Lemma never_bind e {A B} (c : M A) (k : A -> M B) :
  never e c -> (forall a, never e (k a)) -> never e (bind c k).
Proof.
  intros Hc Hk w. rewrite raised_bind. specialize (Hc w). unfold raised in Hc.
  destruct (c w) as [w1 [a | e']]; simpl in Hc; [apply Hk | exact Hc].
Qed.

Lemma never_when e b (c : M unit) : never e c -> never e (when b c).
Proof. intros Hc. destruct b; simpl; [exact Hc | apply never_ret]. Qed.

Lemma never_for_each e {A B} (body : A -> M B) l :
  (forall x, never e (body x)) -> never e (for_each body l).
Proof.
  intros Hb. induction l as [| x l IH]; simpl.
  - apply never_ret.
  - apply never_bind; [apply Hb | intros ?].
    apply never_bind; [exact IH | intros ?; apply never_ret].
Qed.

(** The array operations raise ValueError or IndexError only. *)
Lemma arr_mul_fuel a b : arr_mul a b <> Raise OutOfFuel.
Proof. unfold arr_mul. destruct (same_shape a b); discriminate. Qed.

Lemma set_false_fuel m c : set_false m c <> Raise OutOfFuel.
Proof. unfold set_false. destruct (same_shape m c); discriminate. Qed.

Lemma select_not_fuel a m : select_not a m <> Raise OutOfFuel.
Proof. unfold select_not. destruct (same_shape a m); discriminate. Qed.

Lemma rbind_fuel {A B} (r : Res A) (k : A -> Res B) :
  r <> Raise OutOfFuel -> (forall a, k a <> Raise OutOfFuel) ->
  rbind r k <> Raise OutOfFuel.
Proof. intros Hr Hk. destruct r; simpl; [apply Hk | congruence]. Qed.

Lemma int_round_fuel x : int_round x <> Raise OutOfFuel.
Proof. unfold int_round. destruct (num_round x), (num_isnan x); discriminate. Qed.

Lemma col_min_fuel l : col_min l <> Raise OutOfFuel.
Proof. destruct l; discriminate. Qed.

Lemma col_max_fuel l : col_max l <> Raise OutOfFuel.
Proof. destruct l; discriminate. Qed.

Lemma trim_fuel {A} (a : list (list A)) arrN locs dx dy :
  trim a arrN locs dx dy <> Raise OutOfFuel.
Proof.
  unfold trim.
  repeat (apply rbind_fuel;
          [first [apply col_min_fuel | apply col_max_fuel | apply int_round_fuel]
          | intros ?]).
  discriminate.
Qed.

Lemma corner_of_fuel cand d : corner_of cand d <> Raise OutOfFuel.
Proof.
  induction cand as [| c cand IH]; simpl; [discriminate |].
  apply rbind_fuel; [apply int_round_fuel | intros n].
  apply rbind_fuel; [exact IH | intros r; discriminate].
Qed.

Lemma grid_mean_fuel arr0 locs : grid_mean arr0 locs <> Raise OutOfFuel.
Proof.
  unfold grid_mean, col_min, col_max.
  destruct (map loc_y locs), (map loc_x locs); discriminate.
Qed.

End Never.

Ltac never_auto :=
  repeat first
    [ assumption | apply never_ret | apply never_get_fs
    | apply never_emit | apply never_when
    | apply never_write; discriminate | apply never_open_pdf; discriminate
    | apply never_raise; discriminate
    | apply never_lift;
      first [ apply arr_mul_fuel | apply set_false_fuel | apply select_not_fuel
            | apply trim_fuel | apply grid_mean_fuel | apply corner_of_fuel
            | match goal with |- match ?o with _ => _ end <> _ => destruct o; discriminate end ]
    | apply never_for_each; intros ?
    | apply never_bind; [| intros ?]
    | match goal with
      | |- never _ (if ?b then _ else _) => destruct b
      | |- never _ (match ?x with _ => _ end) => destruct x
      end ].

Section Termination.
Context `{Ext : External}.

Lemma drop_started_never d : never OutOfFuel (drop_started d).
Proof. unfold drop_started. never_auto. Qed.

Lemma parse_analyse_barcode_never cfg d :
  never OutOfFuel (ParseAndRun.analyse_barcode cfg d).
Proof.
  unfold ParseAndRun.analyse_barcode, prepareTimecourse, ParseAndRun.correction_model,
    ParseAndRun.choose_threshold, ParseAndRun.image_step, write_results, edgeFill,
    maskAndFill, loadLocationGuesses, claim, lib, read_local.
  never_auto.
Qed.

Lemma fixedpos_analyse_barcode_never cfg d :
  never OutOfFuel (TimecourseFixedpos.analyse_barcode cfg d).
Proof.
  unfold TimecourseFixedpos.analyse_barcode, prepareTimecourse,
    TimecourseFixedpos.choose_threshold, TimecourseFixedpos.image_step, write_results,
    loadLocationGuesses, claim, lib, read_local.
  never_auto.
Qed.

(** The index after a pass is strictly smaller. *)
Lemma index_shrinks (d : Index) (f : gmap string File) b ims e :
  d !! b = Some ims -> last ims = Some e -> is_Some (f !! out_path e) ->
  (size (filter (fun kv => unclaimed f (snd kv) = true) d) < size d)%nat.
Proof.
  intros Hd He Hm. apply map_subset_size. split; [apply map_filter_subseteq |].
  intros Hsub. rewrite map_subseteq_spec in Hsub. specialize (Hsub _ _ Hd).
  rewrite (marked_batch_dropped f d b ims e Hd He Hm) in Hsub. discriminate Hsub.
Qed.

End Termination.
Section Termination_loop.
Context `{Ext : External}.

Lemma fixedpos_main_loop_S fuel cfg d :
  TimecourseFixedpos.main_loop (S fuel) cfg d
  = if bool_decide (d = ∅) then ret []
    else bind (TimecourseFixedpos.analyse_barcode cfg d) (fun b =>
         bind (drop_started d) (fun d' =>
         bind (TimecourseFixedpos.main_loop fuel cfg d') (fun r => ret (b :: r)))).
Proof. reflexivity. Qed.

Lemma parse_pass_shrinks cfg d w w1 b :
  ParseAndRun.analyse_barcode cfg d w = (w1, Ok b) ->
  (size (filter (fun kv => unclaimed (fs w1) (snd kv) = true) d) < size d)%nat.
Proof.
  intros E. apply parse_analyse_barcode_Ok in E. destruct E as (t & Ef & Hb).
  unfold parse_batch_facts in Hb.
  destruct Hb as (_ & Hd & _ & Hla & _ & _ & _ & _ & _ & _ & _ & _ & Hw & _).
  eapply index_shrinks; eauto. eapply marker_exists_after; [eauto | marker_in Hw].
Qed.

Lemma fixedpos_pass_shrinks cfg d w w1 b :
  TimecourseFixedpos.analyse_barcode cfg d w = (w1, Ok b) ->
  (size (filter (fun kv => unclaimed (fs w1) (snd kv) = true) d) < size d)%nat.
Proof.
  intros E. apply fixedpos_analyse_barcode_Ok in E. destruct E as (t & Ef & Hb).
  unfold fixedpos_batch_facts in Hb.
  destruct Hb as (_ & Hd & _ & Hla & _ & _ & _ & _ & _ & _ & _ & Hw & _).
  eapply index_shrinks; eauto. eapply marker_exists_after; [eauto | marker_in Hw].
Qed.

Lemma parse_main_loop_fuel fuel cfg : forall d w,
  (size d <= fuel)%nat ->
  raised (ParseAndRun.main_loop fuel cfg d w) <> Some OutOfFuel.
Proof.
  induction fuel as [| fuel IH]; intros d w Hs.
  - simpl. case_bool_decide as Hd; [discriminate |].
    exfalso. apply Hd, map_size_empty_iff. lia.
  - rewrite parse_main_loop_S. case_bool_decide as Hd; [discriminate |].
    rewrite raised_bind.
    destruct (ParseAndRun.analyse_barcode cfg d w) as [w1 [b | e]] eqn:E.
    + apply parse_pass_shrinks in E.
      rewrite raised_bind.
      destruct (drop_started d w1) as [w2 [d' | e']] eqn:Ed.
      * apply drop_started_Ok in Ed. destruct Ed as [-> ->].
        rewrite raised_bind.
        assert (Hw : exists w3, when (cfg_plots cfg) (emit EvPdfClose) w1 = (w3, Ok tt))
          by (destruct (cfg_plots cfg); simpl; eauto).
        destruct Hw as (w3 & ->). rewrite raised_bind.
        specialize (IH (filter (fun kv => unclaimed (fs w1) (snd kv) = true) d) w3).
        destruct (ParseAndRun.main_loop fuel cfg _ w3) as [w4 [r | e']];
          [discriminate | apply IH; lia].
      * pose proof (drop_started_never d w1) as Hn. rewrite Ed in Hn. exact Hn.
    + pose proof (parse_analyse_barcode_never cfg d w) as Hn. rewrite E in Hn. exact Hn.
Qed.

Lemma fixedpos_main_loop_fuel fuel cfg : forall d w,
  (size d <= fuel)%nat ->
  raised (TimecourseFixedpos.main_loop fuel cfg d w) <> Some OutOfFuel.
Proof.
  induction fuel as [| fuel IH]; intros d w Hs.
  - simpl. case_bool_decide as Hd; [discriminate |].
    exfalso. apply Hd, map_size_empty_iff. lia.
  - rewrite fixedpos_main_loop_S. case_bool_decide as Hd; [discriminate |].
    rewrite raised_bind.
    destruct (TimecourseFixedpos.analyse_barcode cfg d w) as [w1 [b | e]] eqn:E.
    + apply fixedpos_pass_shrinks in E.
      rewrite raised_bind.
      destruct (drop_started d w1) as [w2 [d' | e']] eqn:Ed.
      * apply drop_started_Ok in Ed. destruct Ed as [-> ->].
        rewrite raised_bind.
        specialize (IH (filter (fun kv => unclaimed (fs w1) (snd kv) = true) d) w1).
        destruct (TimecourseFixedpos.main_loop fuel cfg _ w1) as [w4 [r | e']];
          [discriminate | apply IH; lia].
      * pose proof (drop_started_never d w1) as Hn. rewrite Ed in Hn. exact Hn.
    + pose proof (fixedpos_analyse_barcode_never cfg d w) as Hn. rewrite E in Hn. exact Hn.
Qed.

Lemma parse_main_loop_passes fuel cfg : forall d w w' logs,
  ParseAndRun.main_loop fuel cfg d w = (w', Ok logs) -> (length logs <= size d)%nat.
Proof.
  induction fuel as [| fuel IH]; intros d w w' logs E.
  - simpl in E. case_bool_decide; [| discriminate].
    apply ret_Ok in E. destruct E as [_ ->]. simpl. lia.
  - rewrite parse_main_loop_S in E. case_bool_decide.
    + apply ret_Ok in E. destruct E as [_ ->]. simpl. lia.
    + apply bind_Ok in E. destruct E as (w1 & b & Eb & E).
      apply bind_Ok in E. destruct E as (w2 & d' & Ed & E).
      apply bind_Ok in E. destruct E as (w3 & u & _ & E).
      apply bind_Ok in E. destruct E as (w4 & r & Er & E).
      apply ret_Ok in E. destruct E as [_ ->].
      apply parse_pass_shrinks in Eb.
      apply drop_started_Ok in Ed. destruct Ed as [-> ->].
      apply IH in Er. simpl. lia.
Qed.

Lemma fixedpos_main_loop_passes fuel cfg : forall d w w' logs,
  TimecourseFixedpos.main_loop fuel cfg d w = (w', Ok logs) -> (length logs <= size d)%nat.
Proof.
  induction fuel as [| fuel IH]; intros d w w' logs E.
  - simpl in E. case_bool_decide; [| discriminate].
    apply ret_Ok in E. destruct E as [_ ->]. simpl. lia.
  - rewrite fixedpos_main_loop_S in E. case_bool_decide.
    + apply ret_Ok in E. destruct E as [_ ->]. simpl. lia.
    + apply bind_Ok in E. destruct E as (w1 & b & Eb & E).
      apply bind_Ok in E. destruct E as (w2 & d' & Ed & E).
      apply bind_Ok in E. destruct E as (w4 & r & Er & E).
      apply ret_Ok in E. destruct E as [_ ->].
      apply fixedpos_pass_shrinks in Eb.
      apply drop_started_Ok in Ed. destruct Ed as [-> ->].
      apply IH in Er. simpl. lia.
Qed.

(** The loop [while len(barcdict)>0] terminates.  Every pass that
    completes writes the marker of its batch, so the filter that follows
    removes at least that barcode: a loop allowed as many passes as the
    index has barcodes never runs out of them, and a loop that returns
    has made at most that many passes.  This holds for both scripts. *)
Theorem loop_over_barcodes_terminates (fuel : nat) (cfg : Config) (d : Index) (w : World) :
  (size d <= fuel)%nat ->
  raised (ParseAndRun.main_loop fuel cfg d w) <> Some OutOfFuel /\
  raised (TimecourseFixedpos.main_loop fuel cfg d w) <> Some OutOfFuel /\
  (forall w' logs, ParseAndRun.main_loop fuel cfg d w = (w', Ok logs) ->
     (length logs <= size d)%nat) /\
  (forall w' logs, TimecourseFixedpos.main_loop fuel cfg d w = (w', Ok logs) ->
     (length logs <= size d)%nat).
Proof.
  intros Hs. split; [now apply parse_main_loop_fuel |].
  split; [now apply fixedpos_main_loop_fuel |].
  split; intros w' logs E.
  - eapply parse_main_loop_passes; eauto.
  - eapply fixedpos_main_loop_passes; eauto.
Qed.

End Termination_loop.

Section Termination_run.
Import Demo.

Lemma loop_over_barcodes_terminates_witness :
  (size idx0 <= 2)%nat /\
  raised (ParseAndRun.main_loop 2 cfg0 idx0 w0) <> Some OutOfFuel.
Proof.
  assert (Hs : (size idx0 <= 2)%nat) by (vm_compute; lia).
  split; [exact Hs |].
  exact (proj1 (loop_over_barcodes_terminates 2 cfg0 idx0 w0 Hs)).
Defined.

End Termination_run.
Section Once.
Context `{Ext : External}.

Lemma pass_barcodes_step (d : Index) (f : gmap string File) B ims e
    (bs : list (string * list string)) :
  d !! B = Some ims -> last ims = Some e -> is_Some (f !! out_path e) ->
  NoDup (map fst bs) ->
  Forall (fun bi => filter (fun kv => unclaimed f (snd kv) = true) d !! fst bi
                    = Some (snd bi)) bs ->
  NoDup (B :: map fst bs) /\
  Forall (fun bi => d !! fst bi = Some (snd bi)) ((B, ims) :: bs).
Proof.
  intros Hd He Hm Hnd Hall. split.
  - constructor; [| exact Hnd].
    intros Hin. apply list_elem_of_fmap in Hin. destruct Hin as ([B' ims'] & -> & Hin).
    rewrite Forall_forall in Hall. specialize (Hall _ Hin).
    simpl in Hall. rewrite (marked_batch_dropped f d B' ims e Hd He Hm) in Hall.
    discriminate Hall.
  - constructor; [exact Hd |].
    eapply Forall_impl; [exact Hall |]. intros [B' ims'] Hl. simpl in *.
    apply map_lookup_filter_Some in Hl. tauto.
Qed.

Lemma parse_main_loop_once fuel cfg : forall d w w' logs,
  ParseAndRun.main_loop fuel cfg d w = (w', Ok logs) ->
  NoDup (map fst (map (fun b => (tc_BARCODE (bl_tc b), tc_IMs (bl_tc b))) logs)) /\
  Forall (fun bi => d !! fst bi = Some (snd bi))
         (map (fun b => (tc_BARCODE (bl_tc b), tc_IMs (bl_tc b))) logs).
Proof.
  induction fuel as [| fuel IH]; intros d w w' logs E.
  - simpl in E. case_bool_decide; [| discriminate].
    apply ret_Ok in E. destruct E as [_ ->]. split; constructor.
  - rewrite parse_main_loop_S in E. case_bool_decide.
    + apply ret_Ok in E. destruct E as [_ ->]. split; constructor.
    + apply bind_Ok in E. destruct E as (w1 & b & Eb & E).
      apply bind_Ok in E. destruct E as (w2 & d' & Ed & E).
      apply bind_Ok in E. destruct E as (w3 & u & _ & E).
      apply bind_Ok in E. destruct E as (w4 & r & Er & E).
      apply ret_Ok in E. destruct E as [_ ->].
      apply parse_analyse_barcode_Ok in Eb. destruct Eb as (t & Ef & Hb).
      unfold parse_batch_facts in Hb.
      destruct Hb as (_ & Hd & _ & Hla & _ & _ & _ & _ & _ & _ & _ & _ & Hw & _).
      apply drop_started_Ok in Ed. destruct Ed as [-> ->].
      apply IH in Er. destruct Er as [Hnd Hall]. simpl.
      eapply pass_barcodes_step; eauto. eapply marker_exists_after; [eauto | marker_in Hw].
Qed.

Lemma fixedpos_main_loop_once fuel cfg : forall d w w' logs,
  TimecourseFixedpos.main_loop fuel cfg d w = (w', Ok logs) ->
  NoDup (map fst (map (fun b => (tc_BARCODE (bl_tc b), tc_IMs (bl_tc b))) logs)) /\
  Forall (fun bi => d !! fst bi = Some (snd bi))
         (map (fun b => (tc_BARCODE (bl_tc b), tc_IMs (bl_tc b))) logs).
Proof.
  induction fuel as [| fuel IH]; intros d w w' logs E.
  - simpl in E. case_bool_decide; [| discriminate].
    apply ret_Ok in E. destruct E as [_ ->]. split; constructor.
  - rewrite fixedpos_main_loop_S in E. case_bool_decide.
    + apply ret_Ok in E. destruct E as [_ ->]. split; constructor.
    + apply bind_Ok in E. destruct E as (w1 & b & Eb & E).
      apply bind_Ok in E. destruct E as (w2 & d' & Ed & E).
      apply bind_Ok in E. destruct E as (w4 & r & Er & E).
      apply ret_Ok in E. destruct E as [_ ->].
      apply fixedpos_analyse_barcode_Ok in Eb. destruct Eb as (t & Ef & Hb).
      unfold fixedpos_batch_facts in Hb.
      destruct Hb as (_ & Hd & _ & Hla & _ & _ & _ & _ & _ & _ & _ & Hw & _).
      apply drop_started_Ok in Ed. destruct Ed as [-> ->].
      apply IH in Er. destruct Er as [Hnd Hall]. simpl.
      eapply pass_barcodes_step; eauto. eapply marker_exists_after; [eauto | marker_in Hw].
Qed.

(** No barcode is analysed twice in one run of the loop, and every batch
    that is analysed is a batch of the index the loop started with, with
    the images that the index lists for it.  This holds for both
    scripts. *)
Theorem each_barcode_analysed_once (fuel : nat) (cfg : Config) (d : Index)
    (w w' : World) (logs : list BatchLog) :
  ParseAndRun.main_loop fuel cfg d w = (w', Ok logs)
  \/ TimecourseFixedpos.main_loop fuel cfg d w = (w', Ok logs) ->
  NoDup (map (fun b => tc_BARCODE (bl_tc b)) logs) /\
  Forall (fun b => d !! tc_BARCODE (bl_tc b) = Some (tc_IMs (bl_tc b))) logs.
Proof.
  intros E.
  assert (Hboth :
    NoDup (map fst (map (fun b => (tc_BARCODE (bl_tc b), tc_IMs (bl_tc b))) logs)) /\
    Forall (fun bi => d !! fst bi = Some (snd bi))
           (map (fun b => (tc_BARCODE (bl_tc b), tc_IMs (bl_tc b))) logs)).
  { destruct E as [E | E];
      [eapply parse_main_loop_once | eapply fixedpos_main_loop_once]; eauto. }
  destruct Hboth as [Hnd Hall]. rewrite map_map in Hnd. simpl in Hnd.
  split; [exact Hnd |]. rewrite Forall_map in Hall. exact Hall.
Qed.

End Once.

Section Once_run.
Import Demo.

Lemma each_barcode_analysed_once_witness :
  exists w' logs,
    ParseAndRun.main_loop 5 cfg0 idx0 w0 = (w', Ok logs)
    /\ NoDup (map (fun b => tc_BARCODE (bl_tc b)) logs).
Proof.
  destruct (run_returns (ParseAndRun.main_loop 5 cfg0 idx0) w0 eq_refl) as (w' & logs & E).
  exists w', logs. split; [exact E |].
  exact (proj1 (each_barcode_analysed_once 5 cfg0 idx0 w0 w' logs (or_introl E))).
Defined.

End Once_run.
(** ** A pass that fails *)

Section Stale_marker.
Context `{Ext : External}.

Lemma written_file_exists w w' t p f :
  effects w w' t -> In (EvWrite p f) t -> is_Some (fs w' !! p).
Proof.
  intros [_ ->] Hin. apply (applied_write_exists _ _ p f).
  apply list_elem_of_In. unfold writes. apply list_elem_of_omap.
  exists (EvWrite p f). split; [now apply list_elem_of_In | reflexivity].
Qed.

(** Once the batch is chosen and the operating system has let the marker
    be created, a pass of timecourse_fixedpos.py has written the marker
    and goes on to open the latest image, whatever happens afterwards. *)
Lemma fixedpos_analyse_barcode_claims_first cfg d w w1 tc :
  prepareTimecourse d (cfg_verbose cfg) w = (w1, Ok tc) ->
  can_write (out_path (tc_EARLIESTIMAGE tc)) = true ->
  exists t, effects w (fst (TimecourseFixedpos.analyse_barcode cfg d w)) t /\
    (In (EvWrite (out_path (tc_EARLIESTIMAGE tc)) FEmpty) t /\
     In (EvOpenImage (tc_LATESTIMAGE tc)) t).
Proof.
  intros Ep Hcw. unfold TimecourseFixedpos.analyse_barcode.
  destruct (prepareTimecourse_Ok _ _ _ _ _ Ep) as ((t1 & Ef1 & _) & _).
  eapply bind_Ok_then; [exact Ep | exact Ef1 |].
  assert (Ecl : exists w3, claim (tc_EARLIESTIMAGE tc) w1 = (w3, Ok tt)).
  { rewrite claim_eq, Hcw. eauto. }
  destruct Ecl as (w3 & Ecl).
  eapply bind_Ok_then; [exact Ecl | eapply write_effects; exact Ecl |].
  eapply bind_Ok_then; [reflexivity | eapply emit_effects; [| reflexivity]; reflexivity |].
  match goal with
  | |- exists x, effects ?w4 (fst (?c ?w4)) x /\ _ =>
      assert (Hrest : acts any_event c)
  end.
  { unfold TimecourseFixedpos.choose_threshold, TimecourseFixedpos.image_step,
      write_results, loadLocationGuesses.
    acts_auto. }
  match goal with
  | |- exists x, effects ?w4 _ x /\ _ => destruct (Hrest w4) as (t5 & Ef5 & _)
  end.
  exists t5. split; [exact Ef5 |].
  split; rewrite !in_app_iff; simpl; tauto.
Qed.

(** When the operating system refuses the marker, the pass stops there:
    it raises IOError and has opened no image. *)
Lemma fixedpos_analyse_barcode_refused cfg d w w1 tc :
  prepareTimecourse d (cfg_verbose cfg) w = (w1, Ok tc) ->
  can_write (out_path (tc_EARLIESTIMAGE tc)) = false ->
  TimecourseFixedpos.analyse_barcode cfg d w
  = (w1, Raise (IOError (out_path (tc_EARLIESTIMAGE tc)))).
Proof.
  intros Ep Hcw. unfold TimecourseFixedpos.analyse_barcode.
  rewrite (bind_Ok_l _ _ _ _ _ Ep).
  apply bind_Raise_l. now rewrite claim_eq, Hcw.
Qed.

Lemma parse_analyse_barcode_refused cfg d w w1 tc :
  prepareTimecourse d (cfg_verbose cfg) w = (w1, Ok tc) ->
  cfg_plots cfg = false ->
  can_write (out_path (tc_EARLIESTIMAGE tc)) = false ->
  ParseAndRun.analyse_barcode cfg d w
  = (w1, Raise (IOError (out_path (tc_EARLIESTIMAGE tc)))).
Proof.
  intros Ep Hp Hcw. unfold ParseAndRun.analyse_barcode.
  rewrite (bind_Ok_l _ _ _ _ _ Ep), Hp.
  rewrite (bind_Ok_l _ _ w1 w1 tt) by reflexivity.
  apply bind_Raise_l. now rewrite claim_eq, Hcw.
Qed.

(** A pass whose marker was created leaves it behind.  Once the batch is
    chosen and the operating system has let the marker (and, in
    parseAndRun.py with plots on, the report that precedes it) be
    created, the marker exists after the pass whatever its outcome, and a
    later filtering of an index by the markers drops the barcode, analysed
    or not.  When the operating system refuses the marker, the pass
    raises IOError at once, leaving the images unopened. *)
Theorem failed_pass_leaves_marker (cfg : Config) (d : Index) (w w1 : World)
    (tc : Timecourse) :
  prepareTimecourse d (cfg_verbose cfg) w = (w1, Ok tc) ->
  let wp := fst (ParseAndRun.analyse_barcode cfg d w) in
  let wf := fst (TimecourseFixedpos.analyse_barcode cfg d w) in
  (can_write (out_path (tc_EARLIESTIMAGE tc)) = true ->
   ((cfg_plots cfg = true -> can_write (pdf_path (tc_EARLIESTIMAGE tc)) = true) ->
    is_Some (fs wp !! out_path (tc_EARLIESTIMAGE tc)) /\
    (forall w2 d', drop_started d wp = (w2, Ok d') -> d' !! tc_BARCODE tc = None)) /\
   is_Some (fs wf !! out_path (tc_EARLIESTIMAGE tc)) /\
   (forall w2 d', drop_started d wf = (w2, Ok d') -> d' !! tc_BARCODE tc = None)) /\
  (can_write (out_path (tc_EARLIESTIMAGE tc)) = false ->
   (cfg_plots cfg = false ->
    ParseAndRun.analyse_barcode cfg d w
    = (w1, Raise (IOError (out_path (tc_EARLIESTIMAGE tc))))) /\
   TimecourseFixedpos.analyse_barcode cfg d w
   = (w1, Raise (IOError (out_path (tc_EARLIESTIMAGE tc))))).
Proof.
  intros Ep wp wf.
  destruct (prepareTimecourse_Ok _ _ _ _ _ Ep) as (_ & _ & Hd & _ & Hla).
  split.
  - intros Hcw. split; [| split].
    + intros Hpw.
      destruct (parse_analyse_barcode_claims_first cfg d w w1 tc Ep Hpw Hcw)
        as (tp & Efp & Hp & _).
      pose proof (written_file_exists _ _ _ _ _ Efp Hp) as Hmp.
      split; [exact Hmp |].
      intros w2 d' Ed. apply drop_started_Ok in Ed. destruct Ed as [_ ->].
      eapply marked_batch_dropped; eauto.
    + destruct (fixedpos_analyse_barcode_claims_first cfg d w w1 tc Ep Hcw)
        as (tf & Eff & Hf & _).
      exact (written_file_exists _ _ _ _ _ Eff Hf).
    + destruct (fixedpos_analyse_barcode_claims_first cfg d w w1 tc Ep Hcw)
        as (tf & Eff & Hf & _).
      pose proof (written_file_exists _ _ _ _ _ Eff Hf) as Hmf.
      intros w2 d' Ed. apply drop_started_Ok in Ed. destruct Ed as [_ ->].
      eapply marked_batch_dropped; eauto.
  - intros Hcw. split.
    + intros Hp. now apply parse_analyse_barcode_refused.
    + now apply fixedpos_analyse_barcode_refused.
Qed.

End Stale_marker.

Section Stale_marker_run.
Import Demo.

Lemma failed_pass_leaves_marker_witness :
  exists w1 tc,
    prepareTimecourse idx0 (cfg_verbose cfg0_cut) w0 = (w1, Ok tc)
    /\ can_write (out_path (tc_EARLIESTIMAGE tc)) = true
    /\ raised (ParseAndRun.analyse_barcode cfg0_cut idx0 w0) = Some (NameError "getEdges")
    /\ is_Some (fs (fst (ParseAndRun.analyse_barcode cfg0_cut idx0 w0))
                !! out_path (tc_EARLIESTIMAGE tc)).
Proof.
  destruct (run_returns (prepareTimecourse idx0 (cfg_verbose cfg0_cut)) w0 eq_refl)
    as (w1 & tc & E).
  exists w1, tc. split; [exact E |]. split; [reflexivity |]. split; [reflexivity |].
  destruct (failed_pass_leaves_marker cfg0_cut idx0 w0 w1 tc E) as [Hleft _].
  destruct (Hleft eq_refl) as [Hp _].
  destruct Hp as [Hm _]; [discriminate | exact Hm].
Defined.

End Stale_marker_run.
(** ** The output files of an image *)

Section Output_paths.

Lemma string_app_cons (c : ascii) (s1 s2 : string) :
  (String c s1 ++ s2 = String c (s1 ++ s2))%string.
Proof. reflexivity. Qed.

Lemma string_app_assoc (s1 s2 s3 : string) : ((s1 ++ s2) ++ s3 = s1 ++ (s2 ++ s3))%string.
Proof.
  induction s1 as [| c s1 IH]; [reflexivity |].
  now rewrite !string_app_cons, IH.
Qed.

Lemma string_length_app (s1 s2 : string) :
  String.length (s1 ++ s2) = (String.length s1 + String.length s2)%nat.
Proof.
  induction s1 as [| c s1 IH]; [reflexivity |].
  rewrite string_app_cons. simpl. now rewrite IH.
Qed.

(** Two strings that end in extensions of one length end in the same
    extension. *)
Lemma same_extension (y y' e e' : string) :
  (y ++ e = y' ++ e')%string -> String.length e = String.length e' -> e = e'.
Proof.
  revert y'. induction y as [| c y IH]; intros [| c' y'] Heq Hlen.
  - exact Heq.
  - exfalso. apply (f_equal String.length) in Heq.
    rewrite string_app_cons in Heq. simpl in Heq.
    rewrite !string_length_app in Heq. simpl in Heq. lia.
  - exfalso. apply (f_equal String.length) in Heq.
    rewrite string_app_cons in Heq. simpl in Heq.
    rewrite !string_length_app in Heq. simpl in Heq. lia.
  - rewrite !string_app_cons in Heq. injection Heq as _ Heq. eauto.
Qed.

Lemma join2_ends_with (a b : string) : exists x, join2 a b = (x ++ b)%string.
Proof.
  unfold join2. destruct (starts_with_slash b); [now exists EmptyString |].
  destruct a as [| c a]; [now exists EmptyString |].
  destruct (ends_with_slash (String c a)); [now eexists |].
  exists (String c a ++ "/")%string. now rewrite string_app_assoc.
Qed.

(** Every output name ends in its extension. *)
Lemma out_name_ends_with (sub ext F : string) :
  exists y, out_name sub ext F = (y ++ ext)%string.
Proof.
  unfold out_name, path_join. simpl.
  destruct (join2_ends_with (join2 (dirname F) sub) (split_dot0 (basename F) ++ ext)%string)
    as (x & ->).
  exists (x ++ split_dot0 (basename F))%string. now rewrite string_app_assoc.
Qed.

(** The table, the companion file and the preview of any two images are
    three different files. *)
Lemma output_paths_differ (F1 F2 : string) :
  out_path F1 <> dat_path F2 /\ out_path F1 <> png_path F2 /\ dat_path F1 <> png_path F2.
Proof.
  unfold out_path, dat_path, png_path.
  destruct (out_name_ends_with "Output_Data" ".out" F1) as (y1 & ->).
  destruct (out_name_ends_with "Output_Data" ".dat" F1) as (y1' & ->).
  destruct (out_name_ends_with "Output_Data" ".dat" F2) as (y2 & ->).
  destruct (out_name_ends_with "Output_Images" ".png" F2) as (y3 & ->).
  repeat split; intros Heq; apply same_extension in Heq;
    first [discriminate Heq | reflexivity].
Qed.

End Output_paths.

Section Marker_replaced.
Context `{Ext : External}.

Lemma last_map_Some {A B} (f : A -> B) (l : list A) y :
  last (map f l) = Some y -> exists l0 x, l = (l0 ++ [x])%list /\ f x = y.
Proof.
  destruct l as [| a l] using rev_ind; [discriminate |].
  rewrite map_app. simpl. rewrite last_snoc. intros [= <-]. eauto.
Qed.

Lemma image_writes_land (dx dy : num) (il : ImageLog) (g : gmap string File) :
  let g' := apply_writes (image_writes dx dy il) g in
  g' !! out_path (il_file il) = Some (FTable (il_rows il)) /\
  g' !! dat_path (il_file il) = Some (FDat (il_rows il) (il_threshadj il) dx dy) /\
  g' !! png_path (il_file il) = Some (FPng (il_preview il)).
Proof.
  destruct (output_paths_differ (il_file il) (il_file il)) as (Hod & Hop & Hdp).
  simpl. repeat split.
  - rewrite lookup_insert_ne by congruence. rewrite lookup_insert_ne by congruence.
    apply lookup_insert_eq.
  - rewrite lookup_insert_ne by congruence. apply lookup_insert_eq.
  - apply lookup_insert_eq.
Qed.

Lemma batch_writes_land (dx dy : num) (images : list ImageLog)
    (w w' : World) t (pre : list (string * File)) e il :
  effects w w' t ->
  writes t = (pre ++ flat_map (image_writes dx dy) images)%list ->
  last (map il_file images) = Some e ->
  last images = Some il ->
  fs w' !! out_path e = Some (FTable (il_rows il)) /\
  Forall (fun il => is_Some (fs w' !! out_path (il_file il)) /\
                    is_Some (fs w' !! dat_path (il_file il)) /\
                    is_Some (fs w' !! png_path (il_file il))) images.
Proof.
  intros [_ Hfs] Hw Hlast Hil. split.
  - apply last_map_Some in Hlast. destruct Hlast as (l0 & x & -> & Hx).
    rewrite last_snoc in Hil. injection Hil as ->.
    rewrite Hfs, Hw.
    rewrite flat_map_app, app_assoc, apply_writes_app.
    change (flat_map (image_writes dx dy) [il]) with (image_writes dx dy il ++ [])%list.
    rewrite app_nil_r.
    rewrite <- Hx. apply image_writes_land.
  - apply Forall_forall. intros x Hin.
    assert (Hws : forall pf, In pf (image_writes dx dy x) -> In pf (writes t)).
    { intros pf Hpf. rewrite Hw. apply in_or_app. right. apply in_flat_map. exists x.
      split; [now apply list_elem_of_In | exact Hpf]. }
    rewrite Hfs.
    repeat split; eapply applied_write_exists; apply Hws; simpl; eauto.
Qed.

(** After a pass that completes, the marker of the batch is no longer
    the empty file that claimed it: its path is the path of the table of
    the earliest image, the last image of the batch, and it holds that
    image's rows.  The table, the companion file and the preview of every
    image of the batch exist, and they are three different files.  This
    holds for both scripts. *)
Theorem marker_becomes_earliest_table (cfg : Config) (d : Index) (w w' : World)
    (b : BatchLog) :
  ParseAndRun.analyse_barcode cfg d w = (w', Ok b)
  \/ TimecourseFixedpos.analyse_barcode cfg d w = (w', Ok b) ->
  (exists il, last (bl_images b) = Some il
              /\ il_file il = tc_EARLIESTIMAGE (bl_tc b)
              /\ fs w' !! out_path (tc_EARLIESTIMAGE (bl_tc b)) = Some (FTable (il_rows il))) /\
  Forall (fun il => is_Some (fs w' !! out_path (il_file il)) /\
                    is_Some (fs w' !! dat_path (il_file il)) /\
                    is_Some (fs w' !! png_path (il_file il))) (bl_images b) /\
  (forall F1 F2, out_path F1 <> dat_path F2 /\ out_path F1 <> png_path F2
                 /\ dat_path F1 <> png_path F2).
Proof.
  intros E.
  assert (Hfacts : exists t pre, effects w w' t /\
            map il_file (bl_images b) = tc_IMs (bl_tc b) /\
            last (tc_IMs (bl_tc b)) = Some (tc_EARLIESTIMAGE (bl_tc b)) /\
            writes t = (pre ++ flat_map (image_writes (bl_dx b) (bl_dy b)) (bl_images b))%list).
  { destruct E as [E | E].
    - apply parse_analyse_barcode_Ok in E. destruct E as (t & Ef & Hb).
      exists t. unfold parse_batch_facts in Hb.
      destruct Hb as (_ & _ & _ & Hla & _ & _ & _ & _ & _ & _ & Him & _ & Hw & _).
      exists ((if cfg_plots cfg
               then [(pdf_path (tc_EARLIESTIMAGE (bl_tc b)), FPdf)] else [])
              ++ [(out_path (tc_EARLIESTIMAGE (bl_tc b)), FEmpty)])%list.
      split; [exact Ef |]. split; [| split; [exact Hla |]].
      + eapply Forall2_map_eq_r; [exact Him |]. intros F il (Hf & _). exact Hf.
      + rewrite Hw, <- app_assoc. reflexivity.
    - apply fixedpos_analyse_barcode_Ok in E. destruct E as (t & Ef & Hb).
      exists t. unfold fixedpos_batch_facts in Hb.
      destruct Hb as (_ & _ & _ & Hla & _ & _ & (cm & ab & _ & _ & _ & Him) & _ & _ & _ & _ & Hw & _).
      eexists. split; [exact Ef |]. split; [| split; [exact Hla |]].
      + eapply Forall2_map_eq_r; [exact Him |]. intros F il (Hf & _). exact Hf.
      + rewrite Hw. rewrite app_comm_cons. reflexivity. }
  destruct Hfacts as (t & pre & Ef & Hfiles & Hla & Hw).
  rewrite <- Hfiles in Hla.
  destruct (last_map_Some _ _ _ Hla) as (l0 & il & Himgs & Hfile).
  assert (Hil : last (bl_images b) = Some il) by (rewrite Himgs; apply last_snoc).
  destruct (batch_writes_land _ _ _ w w' t pre _ il Ef Hw Hla Hil) as [Hm Hall].
  split; [exists il; auto |]. split; [exact Hall |].
  intros F1 F2. apply output_paths_differ.
Qed.

End Marker_replaced.

Section Marker_replaced_run.
Import Demo.

Lemma marker_becomes_earliest_table_witness :
  exists w' b il,
    ParseAndRun.analyse_barcode cfg0 idx0 w0 = (w', Ok b)
    /\ last (bl_images b) = Some il
    /\ fs w' !! out_path (tc_EARLIESTIMAGE (bl_tc b)) = Some (FTable (il_rows il)).
Proof.
  destruct (run_returns (ParseAndRun.analyse_barcode cfg0 idx0) w0 eq_refl) as (w' & b & E).
  destruct (marker_becomes_earliest_table cfg0 idx0 w0 w' b (or_introl E))
    as ((il & Hl & _ & Hm) & _).
  exists w', b, il. auto.
Defined.

End Marker_replaced_run.
(** ** Outcomes of [checkImages] and [prepareTimecourse] *)

Section Index_outcomes.
Context `{Ext : External}.

Lemma first_barcode_in (d : Index) k : first_barcode d = Some k -> is_Some (d !! k).
Proof.
  unfold first_barcode. intros Hk.
  assert (Hin : In k (map fst (map_to_list d))).
  { revert k Hk. induction (map fst (map_to_list d)) as [| x l IH]; intros k Hk;
      simpl in Hk; [discriminate |].
    destruct (fold_right _ None l) as [m |].
    - destruct (String.ltb x m); injection Hk as <-; [now left | right; now apply IH].
    - injection Hk as <-. now left. }
  apply in_map_iff in Hin. destruct Hin as ([k' v] & <- & Hin).
  apply list_elem_of_In, elem_of_map_to_list in Hin. simpl. eauto.
Qed.

Lemma first_barcode_is_Some (d : Index) : d <> ∅ -> is_Some (first_barcode d).
Proof.
  intros Hne. unfold first_barcode.
  destruct (map_to_list d) as [| [k v] l] eqn:Hl.
  - exfalso. now apply Hne, map_to_list_empty_iff.
  - simpl. destruct (fold_right _ None (map fst l)) as [m |]; [| eauto].
    destruct (String.ltb k m); eauto.
Qed.

Lemma has_empty_batch (m : Index) b :
  m !! b = Some [] -> existsb (fun kv => is_nil (snd kv)) (map_to_list m) = true.
Proof.
  intros Hb. apply existsb_exists. exists (b, []). split; [| reflexivity].
  now apply list_elem_of_In, elem_of_map_to_list.
Qed.

Lemma no_empty_batch (m : Index) :
  (forall b ims, m !! b = Some ims -> ims <> []) ->
  existsb (fun kv => is_nil (snd kv)) (map_to_list m) = false.
Proof.
  intros Hall. destruct (existsb _ _) eqn:Hex; [| reflexivity].
  apply existsb_exists in Hex. destruct Hex as ([b ims] & Hin & Hnil).
  apply list_elem_of_In, elem_of_map_to_list in Hin. apply Hall in Hin.
  destruct ims; [contradiction | discriminate].
Qed.

(** [checkImages] with a manifest (lines 15-19) only reads: whatever its
    outcome it leaves every file as it was.  It raises IOError when the
    manifest does not exist and IndexError when the manifest lists a
    barcode without images (marked or not), and otherwise returns the
    batches of the manifest whose earliest image has no marker. *)
Theorem checkImages_outcomes (fdir p : string) (w : World) :
  fs (fst (checkImages fdir (Some p) w)) = fs w /\
  (fs w !! p = None ->
     raised (checkImages fdir (Some p) w) = Some (IOError p)) /\
  (forall m b, fs w !! p = Some (FManifest m) -> m !! b = Some [] ->
     raised (checkImages fdir (Some p) w) = Some (IndexError "barcdict[x][-1]")) /\
  (forall m, fs w !! p = Some (FManifest m) ->
     (forall b ims, m !! b = Some ims -> ims <> []) ->
     result (checkImages fdir (Some p) w)
     = Some (filter (fun kv => unclaimed (fs w) (snd kv) = true) m)).
Proof.
  split; [| split; [| split]].
  - destruct (checkImages_acts fdir (Some p) w) as (t & Ef & Hs).
    apply silent_projections in Hs. destruct Hs as (_ & Hw & _).
    eapply effects_fs_same; eauto.
  - intros Hp. unfold checkImages, raised, bind, get_fs. simpl. now rewrite Hp.
  - intros m b Hp Hb. unfold checkImages, drop_started, raised, bind, get_fs. simpl.
    rewrite Hp. simpl. now rewrite (has_empty_batch m b Hb).
  - intros m Hp Hall. unfold checkImages, drop_started, result, bind, get_fs. simpl.
    rewrite Hp. simpl. now rewrite (no_empty_batch m Hall).
Qed.

(** [prepareTimecourse] raises IndexError on an empty index and on a
    batch without images, and never KeyError: the barcode it looks up is a
    key of the index.  When it returns, the batch is a batch of the
    index, its latest image is the first of the list and its earliest
    image the last, and nothing was written. *)
Theorem prepareTimecourse_outcomes (d : Index) (verbose : bool) (w : World) :
  (d = ∅ -> prepareTimecourse d verbose w = (w, Raise (IndexError "BARCs[0]"))) /\
  (forall k, raised (prepareTimecourse d verbose w) <> Some (KeyError k)) /\
  (forall b, first_barcode d = Some b -> d !! b = Some [] ->
     prepareTimecourse d verbose w = (w, Raise (IndexError "barcdict[BARCODE][0]"))) /\
  (forall w' tc, prepareTimecourse d verbose w = (w', Ok tc) ->
     d !! tc_BARCODE tc = Some (tc_IMs tc) /\
     head (tc_IMs tc) = Some (tc_LATESTIMAGE tc) /\
     last (tc_IMs tc) = Some (tc_EARLIESTIMAGE tc) /\
     tc_imdir tc = dirname (tc_LATESTIMAGE tc) /\
     readInstructions (tc_imdir tc) = Some (tc_InsData tc) /\
     fs w' = fs w).
Proof.
  split; [| split; [| split]].
  - intros ->. unfold prepareTimecourse. now rewrite first_barcode_empty.
  - intros k. unfold prepareTimecourse.
    destruct (first_barcode d) as [B |] eqn:HB; [| discriminate].
    destruct (first_barcode_in d B HB) as (ims & ->).
    destruct (head ims), (last ims); try discriminate.
    unfold raised, bind, emit, lib, lift. simpl.
    destruct (readInstructions _); simpl; [| discriminate].
    destruct verbose; discriminate.
  - intros b HB Hb. unfold prepareTimecourse. now rewrite HB, Hb.
  - intros w' tc E.
    destruct (prepareTimecourse_Ok _ _ _ _ _ E) as ((t & Ef & _ & Hw & _) & _ & Hd & Hh & Hl).
    split; [exact Hd |]. split; [exact Hh |]. split; [exact Hl |].
    split; [| split; [| eapply effects_fs_same; eauto]].
    + unfold prepareTimecourse in E.
      destruct (first_barcode d); [| discriminate].
      destruct (d !! s); [| discriminate].
      destruct (head l), (last l); try discriminate.
      inv_M. destruct verbose; simpl in *; inv_M; reflexivity.
    + unfold prepareTimecourse in E.
      destruct (first_barcode d); [| discriminate].
      destruct (d !! s); [| discriminate].
      destruct (head l), (last l); try discriminate.
      inv_M. destruct verbose; simpl in *; inv_M; simpl; assumption.
Qed.

End Index_outcomes.

Section Index_outcomes_run.
Import Demo.

Lemma checkImages_outcomes_witness :
  fs w0 !! "work.json" = None /\
  raised (checkImages "d" (Some "work.json") w0) = Some (IOError "work.json").
Proof.
  split; [reflexivity |].
  destruct (checkImages_outcomes "d" "work.json" w0) as (_ & Hio & _).
  now apply Hio.
Defined.

Lemma prepareTimecourse_outcomes_witness :
  exists w' tc,
    prepareTimecourse idx0 true w0 = (w', Ok tc)
    /\ idx0 !! tc_BARCODE tc = Some (tc_IMs tc)
    /\ last (tc_IMs tc) = Some (tc_EARLIESTIMAGE tc).
Proof.
  destruct (run_returns (prepareTimecourse idx0 true) w0 eq_refl) as (w' & tc & E).
  exists w', tc. split; [exact E |].
  destruct (prepareTimecourse_outcomes idx0 true w0) as (_ & _ & _ & Hok).
  destruct (Hok w' tc E) as (Hd & _ & Hl & _). auto.
Defined.

End Index_outcomes_run.
(** ** The trimming window *)

Section Trim.
Context `{Ext : External}.

Lemma py_slice_window {A} (lo hi : Z) (l : list A) :
  exists before after, l = (before ++ py_slice lo hi l ++ after)%list.
Proof.
  unfold py_slice.
  set (a := Z.to_nat (py_index (Z.of_nat (length l)) lo)).
  set (n := Z.to_nat (py_index (Z.of_nat (length l)) hi - py_index (Z.of_nat (length l)) lo)).
  exists (firstn a l), (skipn n (skipn a l)).
  now rewrite (firstn_skipn n (skipn a l)), (firstn_skipn a l).
Qed.

Lemma rbind_ret {X Y} (x : X) (k : X -> Res Y) : rbind (Ok x) k = k x.
Proof. reflexivity. Qed.

Lemma rbind_raise {X Y} (e : exn) (k : X -> Res Y) : rbind (Raise e) k = Raise e.
Proof. reflexivity. Qed.

Lemma int_round_cases (x : num) :
  (exists n, num_round x = Some n /\ int_round x = Ok n) \/
  (num_round x = None /\
   int_round x = Raise (if num_isnan x
                        then ValueError "cannot convert float NaN to integer"
                        else OverflowError "cannot convert float infinity to integer")).
Proof.
  unfold int_round. destruct (num_round x) as [n |]; [left; eauto | right].
  split; [reflexivity |]. now destruct (num_isnan x).
Qed.

Lemma slice2_window {A} (r0 r1 c0 c1 : Z) (a : list (list A)) :
  exists above rows below,
    a = (above ++ rows ++ below)%list /\
    Forall2 (fun r row => exists left right, row = (left ++ r ++ right)%list)
            (slice2 r0 r1 c0 c1 a) rows.
Proof.
  destruct (py_slice_window r0 r1 a) as (above & below & Ha).
  exists above, (py_slice r0 r1 a), below. split; [exact Ha |].
  unfold slice2. clear Ha. generalize (py_slice r0 r1 a). intros rows.
  induction rows as [| row rows IH]; simpl; constructor; [| exact IH].
  destruct (py_slice_window c0 c1 row) as (left & right & Hrow). eauto.
Qed.


End Trim.

Section Trim_run.
Import Demo.


End Trim_run.
(** ** The body of the loop over the images of a batch *)

Section Loop_body.
Context `{Ext : External}.

Lemma set_false_shape (a c : arr) (t : num) (m : mask_t) :
  set_false (ones_like a) (lt_mask c t) = Ok m -> shape_of a = shape_of c.
Proof.
  unfold set_false, same_shape, shape_of, ones_like, lt_mask.
  case_bool_decide as Hs; [| discriminate]. intros _.
  rewrite !map_map in Hs.
  erewrite (map_ext _ length), (map_ext (fun x => length (map _ x)) length) in Hs;
    [exact Hs | |]; intros r; apply length_map.
Qed.

(** The body of the loop over images in parseAndRun.py (lines 255-295).
    When it completes for the image [F]: the array measured is the image
    as opened, multiplied by the correction map when lighting correction
    is on; with [diffims] it is then shifted, and the threshold with it,
    by one and the same amount, the average background of the batch minus
    the mean of the background pixels (those outside [maskN]) of the
    trimmed image; the image has the shape of the latest image of the
    batch, or the mask assignment would have failed; the rows are those
    that [measureSizeAndColour] returns for this array and mask. *)
Theorem parse_loop_body (cfg : Config) (B : string) (locs : list Loc) (dx dy : num)
    (candx candy : list num) (arrN : arr) (cmap : option arr) (ab : option num)
    (corrected : arr) (th : num) (maskN : mask_t) (F : string) (w w' : World)
    (il : ImageLog) :
  ParseAndRun.image_step cfg B locs dx dy candx candy arrN cmap ab corrected th maskN F w
    = (w', Ok il) ->
  exists im raw arr1 back,
    openImage F = Some (im, raw) /\
    (if cfg_lc cfg
     then exists cm, cmap = Some cm /\ arr_mul raw cm = Ok arr1
     else arr1 = raw) /\
    ab = Some back /\
    (if cfg_diffims cfg
     then exists arrsm masksm sel,
            trim arr1 arrN locs dx dy = Ok arrsm /\
            trim maskN arrN locs dx dy = Ok masksm /\
            select_not arrsm masksm = Ok sel /\
            il_arr il = arr_shift arr1 (num_sub back (num_mean sel)) /\
            il_threshadj il = num_add th (num_sub back (num_mean sel))
     else il_arr il = arr1 /\ il_threshadj il = th) /\
    shape_of (il_arr il) = shape_of corrected /\
    il_mask il = not_below corrected (il_threshadj il) /\
    measureSizeAndColour locs (il_arr il) im (il_mask il) back B (str_slice 0 (-4) F)
      = Some (il_rows il) /\
    threshPreview (il_arr il) (il_threshadj il) (il_rows il) = Some (il_preview il).
Proof.
  unfold ParseAndRun.image_step, write_results. intros E.
  apply bind_Ok in E. destruct E as (w1 & u1 & E1 & E).
  apply bind_Ok in E. destruct E as (w2 & ia & E2 & E).
  apply bind_Ok in E. destruct E as (w3 & arr1 & E3 & E).
  apply bind_Ok in E. destruct E as (w4 & adj & E4 & E).
  apply bind_Ok in E. destruct E as (w5 & mask & E5 & E).
  apply bind_Ok in E. destruct E as (w6 & back & E6 & E).
  apply bind_Ok in E. destruct E as (w7 & u7 & E7 & E).
  apply bind_Ok in E. destruct E as (w8 & rows & E8 & E).
  apply bind_Ok in E. destruct E as (w9 & prev & E9 & E).
  apply bind_Ok in E. destruct E as (w10 & u10 & E10 & E).
  apply ret_Ok in E. destruct E as [_ ->]. simpl.
  apply lib_Ok in E2. destruct E2 as [_ E2].
  apply lift_Ok in E5. destruct E5 as [_ E5].
  apply read_local_Ok in E6. destruct E6 as [_ E6].
  apply lib_Ok in E8. destruct E8 as [_ E8].
  destruct ia as [im raw]. simpl in *. subst ab.
  exists im, raw, arr1, back.
  split; [exact E2 |].
  split; [clear - E3; destruct (cfg_lc cfg); inv_M; eauto |].
  split; [reflexivity |].
  split.
  { clear - E4. destruct (cfg_diffims cfg); inv_M; [| auto].
    simpl. match goal with Hb : Some _ = Some _ |- _ => injection Hb as <- end.
    eauto 10. }
  split; [eapply set_false_shape; exact E5 |].
  split; [eapply set_false_ones; exact E5 |].
  split; [exact E8 |].
  clear - E9. inv_M.
  destruct candx, candy; inv_M; assumption.
Qed.

(** The body of the loop over images in timecourse_fixedpos.py (lines
    228-254).  When it completes for the image [F]: the array measured is
    the image as opened, multiplied by the correction map when lighting
    correction is on; the mean of the background pixels of the trimmed
    image is computed, which requires the trimming to succeed and the
    shapes to agree, but is not used: the threshold is the threshold of
    the batch; the image has the shape of the latest image. *)
Theorem fixedpos_loop_body (cfg : Config) (B : string) (locs : list Loc) (dx dy : num)
    (arrN : arr) (cm : arr) (ab : num) (th : num) (maskN : mask_t) (F : string)
    (w w' : World) (il : ImageLog) :
  TimecourseFixedpos.image_step cfg B locs dx dy arrN cm ab th maskN F w = (w', Ok il) ->
  exists im raw,
    openImage F = Some (im, raw) /\
    (if cfg_lc cfg then arr_mul raw cm = Ok (il_arr il) else il_arr il = raw) /\
    (exists arrsm masksm sel,
       trim (il_arr il) arrN locs dx dy = Ok arrsm /\
       trim maskN arrN locs dx dy = Ok masksm /\
       select_not arrsm masksm = Ok sel) /\
    il_threshadj il = th /\
    shape_of (il_arr il) = shape_of arrN /\
    il_mask il = not_below arrN th /\
    measureSizeAndColour locs (il_arr il) im (il_mask il) ab B (str_slice 0 (-4) F)
      = Some (il_rows il) /\
    threshPreview (il_arr il) th (il_rows il) = Some (il_preview il).
Proof.
  unfold TimecourseFixedpos.image_step, write_results. intros E.
  apply bind_Ok in E. destruct E as (w1 & u1 & E1 & E).
  apply bind_Ok in E. destruct E as (w2 & ia & E2 & E).
  apply bind_Ok in E. destruct E as (w3 & arr1 & E3 & E).
  apply bind_Ok in E. destruct E as (w4 & arrsm & E4 & E).
  apply bind_Ok in E. destruct E as (w5 & masksm & E5 & E).
  apply bind_Ok in E. destruct E as (w6 & sel & E6 & E).
  apply bind_Ok in E. destruct E as (w7 & mask & E7 & E).
  apply bind_Ok in E. destruct E as (w8 & u8 & E8 & E).
  apply bind_Ok in E. destruct E as (w9 & rows & E9 & E).
  apply bind_Ok in E. destruct E as (w10 & prev & E10 & E).
  apply ret_Ok in E. destruct E as [_ ->]. simpl.
  apply lib_Ok in E2. destruct E2 as [_ E2].
  apply lift_Ok in E4. destruct E4 as [_ E4].
  apply lift_Ok in E5. destruct E5 as [_ E5].
  apply lift_Ok in E6. destruct E6 as [_ E6].
  apply lift_Ok in E7. destruct E7 as [_ E7].
  apply lib_Ok in E9. destruct E9 as [_ E9].
  destruct ia as [im raw]. simpl in *.
  exists im, raw.
  split; [exact E2 |].
  split; [clear - E3; destruct (cfg_lc cfg); inv_M; eauto |].
  split; [eauto 10 |].
  split; [reflexivity |].
  split; [eapply set_false_shape; exact E7 |].
  split; [eapply set_false_ones; exact E7 |].
  split; [exact E9 |].
  clear - E10. inv_M. assumption.
Qed.

End Loop_body.

Section Loop_body_run.
Import Demo.

Lemma parse_loop_body_witness :
  exists w' il,
    ParseAndRun.image_step cfg0 "P1"
      [ {| loc_x := 0; loc_y := 0 |}; {| loc_x := 2; loc_y := 2 |} ] 2%Q 2%Q
      [1; 3]%Q [1; 3]%Q [[8; 2]; [2; 8]]%Q None (Some 3%Q) [[8; 2]; [2; 8]]%Q 5%Q
      [[true; false]; [false; true]] im_P1_early w0 = (w', Ok il)
    /\ il_threshadj il = 5%Q
    /\ il_mask il = not_below [[8; 2]; [2; 8]]%Q 5%Q.
Proof.
  destruct (run_returns
              (ParseAndRun.image_step cfg0 "P1"
                 [ {| loc_x := 0; loc_y := 0 |}; {| loc_x := 2; loc_y := 2 |} ] 2%Q 2%Q
                 [1; 3]%Q [1; 3]%Q [[8; 2]; [2; 8]]%Q None (Some 3%Q) [[8; 2]; [2; 8]]%Q 5%Q
                 [[true; false]; [false; true]] im_P1_early) w0 eq_refl)
    as (w' & il & E).
  exists w', il. split; [exact E |].
  destruct (parse_loop_body _ _ _ _ _ _ _ _ _ _ _ _ _ _ _ _ _ E)
    as (im & raw & arr1 & back & _ & _ & _ & Hadj & _ & Hm & _).
  simpl in Hadj. destruct Hadj as [_ Ht]. rewrite Ht in Hm. auto.
Defined.

Lemma fixedpos_loop_body_witness :
  exists w' il,
    TimecourseFixedpos.image_step cfg0 "P1"
      [ {| loc_x := 0; loc_y := 0 |}; {| loc_x := 2; loc_y := 2 |} ] 2%Q 2%Q
      [[8; 2]; [2; 8]]%Q [[2; 2]; [2; 2]]%Q 3%Q 5%Q
      [[true; false]; [false; true]] im_P1_early w0 = (w', Ok il)
    /\ il_threshadj il = 5%Q
    /\ il_mask il = not_below [[8; 2]; [2; 8]]%Q 5%Q.
Proof.
  destruct (run_returns
              (TimecourseFixedpos.image_step cfg0 "P1"
                 [ {| loc_x := 0; loc_y := 0 |}; {| loc_x := 2; loc_y := 2 |} ] 2%Q 2%Q
                 [[8; 2]; [2; 8]]%Q [[2; 2]; [2; 2]]%Q 3%Q 5%Q
                 [[true; false]; [false; true]] im_P1_early) w0 eq_refl)
    as (w' & il & E).
  exists w', il. split; [exact E |].
  destruct (fixedpos_loop_body _ _ _ _ _ _ _ _ _ _ _ _ _ _ E)
    as (im & raw & _ & _ & _ & Ht & _ & Hm & _).
  auto.
Defined.

End Loop_body_run.
(** ** What a run may write *)

Section Frame.
Context `{Ext : External}.

Lemma is_print_output e : is_print e -> output_event e.
Proof. intros [s ->]. exact I. Qed.

Lemma silent_output e : silent e -> output_event e.
Proof. destruct e; simpl; tauto. Qed.

Lemma parse_analyse_barcode_outputs cfg d :
  acts output_event (ParseAndRun.analyse_barcode cfg d).
Proof.
  unfold ParseAndRun.analyse_barcode.
  apply acts_bind;
    [eapply acts_weaken; [| apply prepareTimecourse_acts]; apply silent_output | intros tc].
  unfold ParseAndRun.correction_model, ParseAndRun.choose_threshold, ParseAndRun.image_step,
    write_results, edgeFill, maskAndFill, loadLocationGuesses, claim.
  acts_auto.
Qed.

Lemma fixedpos_analyse_barcode_outputs cfg d :
  acts output_event (TimecourseFixedpos.analyse_barcode cfg d).
Proof.
  unfold TimecourseFixedpos.analyse_barcode.
  apply acts_bind;
    [eapply acts_weaken; [| apply prepareTimecourse_acts]; apply silent_output | intros tc].
  unfold TimecourseFixedpos.choose_threshold, TimecourseFixedpos.image_step,
    write_results, loadLocationGuesses, claim.
  acts_auto.
Qed.

Lemma parse_main_outputs fuel inp : acts output_event (ParseAndRun.main fuel inp).
Proof.
  unfold ParseAndRun.main.
  apply acts_bind; [acts_auto | intros ?].
  apply acts_bind;
    [eapply acts_weaken; [| apply parse_buildVars_acts]; apply is_print_output | intros cfg].
  apply acts_bind;
    [eapply acts_weaken; [| apply checkImages_acts]; apply silent_output | intros d].
  apply acts_bind; [acts_auto | intros ?].
  apply acts_bind; [| intros ?; acts_auto].
  revert d. induction fuel as [| fuel IH]; intros d; simpl;
    (destruct (bool_decide (d = ∅)); [apply acts_ret |]); [apply acts_raise |].
  apply acts_bind; [apply parse_analyse_barcode_outputs | intros b].
  apply acts_bind;
    [eapply acts_weaken; [| apply drop_started_acts]; apply silent_output | intros d'].
  acts_auto.
Qed.

Lemma fixedpos_main_outputs fuel verbose inp :
  acts output_event (TimecourseFixedpos.main fuel verbose inp).
Proof.
  unfold TimecourseFixedpos.main.
  apply acts_bind; [acts_auto | intros ?].
  apply acts_bind;
    [eapply acts_weaken; [| apply fixedpos_buildVars_acts]; apply is_print_output | intros cfg].
  apply acts_bind;
    [eapply acts_weaken; [| apply checkImages_acts]; apply silent_output | intros d].
  apply acts_bind; [acts_auto | intros ?].
  apply acts_bind; [| intros ?; acts_auto].
  revert d. induction fuel as [| fuel IH]; intros d; simpl;
    (destruct (bool_decide (d = ∅)); [apply acts_ret |]); [apply acts_raise |].
  apply acts_bind; [apply fixedpos_analyse_barcode_outputs | intros b].
  apply acts_bind;
    [eapply acts_weaken; [| apply drop_started_acts]; apply silent_output | intros d'].
  acts_auto.
Qed.

Lemma apply_writes_elsewhere (ws : list (string * File)) (g : gmap string File) p :
  Forall (fun pf => fst pf <> p) ws -> apply_writes ws g !! p = g !! p.
Proof.
  revert g. induction ws as [| [q c] ws IH]; intros g Hall; simpl; [reflexivity |].
  apply Forall_cons in Hall. destruct Hall as [Hq Hall]. simpl in Hq.
  rewrite IH by exact Hall. now apply lookup_insert_ne.
Qed.

Lemma outputs_elsewhere t p :
  Forall output_event t -> ~ output_path p ->
  Forall (fun pf => fst pf <> p) (writes t).
Proof.
  intros Hall Hp. induction Hall as [| e t He _ IH]; simpl; [constructor |].
  destruct e; simpl; try exact IH.
  - constructor; [| exact IH]. simpl. destruct He as (F & HF).
    intros <-. apply Hp. exists F. tauto.
  - constructor; [| exact IH]. simpl. destruct He as (F & HF).
    intros <-. apply Hp. exists F. tauto.
Qed.

Lemma outputs_frame w w' t :
  effects w w' t -> Forall output_event t ->
  (forall p, is_Some (fs w !! p) -> is_Some (fs w' !! p)) /\
  (forall p, ~ output_path p -> fs w' !! p = fs w !! p).
Proof.
  intros Ef Hall. split.
  - intros p. now apply (effects_keeps_files w w' t).
  - intros p Hp. destruct Ef as [_ ->].
    apply apply_writes_elsewhere. now apply outputs_elsewhere.
Qed.

(** Whatever the outcome of a run of either script, the statements of the
    script remove no file, and the only files they create or replace are
    tables, companion files and previews of images and the reports (the
    report of a batch in parseAndRun.py, the histogram report of a
    barcode in timecourse_fixedpos.py): a path that is none of these
    holds afterwards what it held before. *)
Theorem run_writes_only_outputs (fuel : nat) (verbose : bool) (inp : Args) (w : World) :
  let wp := fst (ParseAndRun.main fuel inp w) in
  let wf := fst (TimecourseFixedpos.main fuel verbose inp w) in
  (forall p, is_Some (fs w !! p) -> is_Some (fs wp !! p) /\ is_Some (fs wf !! p)) /\
  (forall p, ~ output_path p -> fs wp !! p = fs w !! p /\ fs wf !! p = fs w !! p).
Proof.
  intros wp wf.
  destruct (parse_main_outputs fuel inp w) as (tp & Efp & Hp).
  destruct (fixedpos_main_outputs fuel verbose inp w) as (tf & Eff & Hf).
  destruct (outputs_frame _ _ _ Efp Hp) as [Hkp Hop].
  destruct (outputs_frame _ _ _ Eff Hf) as [Hkf Hof].
  split; intros p Hyp; split; auto.
Qed.

End Frame.

Section Frame_run.
Import Demo.

Lemma run_writes_only_outputs_witness :
  is_Some (fs w_claimed !! out_path im_P2) /\
  is_Some (fs (fst (ParseAndRun.main 5 args0 w_claimed)) !! out_path im_P2).
Proof.
  assert (Hs : is_Some (fs w_claimed !! out_path im_P2)) by (eexists; reflexivity).
  split; [exact Hs |].
  exact (proj1 (proj1 (run_writes_only_outputs 5 true args0 w_claimed) _ Hs)).
Defined.

End Frame_run.
